(** * Trip-planner orchestration, itinerary store and enrichment

    A shallow embedding of the Python sources main.py, api.py, app.py
    and storage.py, followed by the properties of the specification
    that were checked against them.

    Conventions.
    - A Python [str] is a Rocq [string] read as ASCII text: a character
      with a code above 127 has no case and is not white space.
    - A Python [float] is a binary64 value, the standard library's
      [spec_float] with its correctly rounded operations.
    - A parsed JSON value is a term of [Json.json].  [json.loads] and
      [json.dumps], the agent runtime, the HTTP client, the database
      and the configuration are not code of the repository: each is a
      type class, and a definition that calls one takes it as an
      argument.
    - Mutable state (the session registry, the city cache, the itinerary
      store, the trip context) is passed explicitly.
    - A raised exception is the [Raise] constructor of [result].

    Part I holds the definitions, Part II the lemmas and theorems. *)

From Stdlib Require Import ZArith Ascii String List Bool Lia SpecFloat.
From stdpp Require Import gmap strings list fin_maps.

Local Open Scope Z_scope.
Local Open Scope stdpp_scope.

(** ** Exceptions *)

Inductive exn : Type :=
| ValueError (msg : string)
| RuntimeError (msg : string)
| KeyError (key : string)
| TypeError
| AttributeError
| IndexError
| OverflowError
| JSONDecodeError
| AgentError (msg : string).

(** [str(e)], as far as the code shows it: the message the exception
    was raised with. *)
Definition exn_str (e : exn) : string :=
  match e with
  | ValueError msg | RuntimeError msg | AgentError msg => msg
  | KeyError key => key
  | _ => EmptyString
  end.

Inductive result (A : Type) : Type :=
| Ok (a : A)
| Raise (e : exn).
Arguments Ok {A} a.
Arguments Raise {A} e.

#[global] Instance result_ret : MRet result := fun A a => Ok a.

#[global] Instance result_bind : MBind result := fun A B k r =>
  match r with
  | Ok a => k a
  | Raise e => Raise e
  end.

(** ** Python string methods on ASCII text *)

Module PyStr.

Definition code (c : ascii) : nat := nat_of_ascii c.

(** [str.isspace] on one character: TAB..CR, FS..US and the space. *)
Definition isspace (c : ascii) : bool :=
  let n := code c in
  ((9 <=? n)%nat && (n <=? 13)%nat) || ((28 <=? n)%nat && (n <=? 32)%nat).

Definition is_upper (c : ascii) : bool :=
  let n := code c in (65 <=? n)%nat && (n <=? 90)%nat.

Definition is_lower (c : ascii) : bool :=
  let n := code c in (97 <=? n)%nat && (n <=? 122)%nat.

Definition is_digit (c : ascii) : bool :=
  let n := code c in (48 <=? n)%nat && (n <=? 57)%nat.

Definition lower_char (c : ascii) : ascii :=
  if is_upper c then ascii_of_nat (code c + 32) else c.

Definition upper_char (c : ascii) : ascii :=
  if is_lower c then ascii_of_nat (code c - 32) else c.

Fixpoint map_chars (f : ascii -> ascii) (s : string) : string :=
  match s with
  | EmptyString => EmptyString
  | String c s' => String (f c) (map_chars f s')
  end.

(** [s.lower()], [s.upper()], [s.casefold()] *)
Definition lower : string -> string := map_chars lower_char.
Definition upper : string -> string := map_chars upper_char.
Definition casefold : string -> string := lower.

Fixpoint lstrip (s : string) : string :=
  match s with
  | EmptyString => EmptyString
  | String c s' => if isspace c then lstrip s' else s
  end.

Fixpoint rstrip (s : string) : string :=
  match s with
  | EmptyString => EmptyString
  | String c s' =>
      match rstrip s' with
      | EmptyString => if isspace c then EmptyString else String c EmptyString
      | r => String c r
      end
  end.

(** [s.strip()] *)
Definition strip (s : string) : string := rstrip (lstrip s).

(** [s.startswith(p)] *)
Fixpoint startswith (s p : string) : bool :=
  match p, s with
  | EmptyString, _ => true
  | String a p', String b s' => if Ascii.eqb a b then startswith s' p' else false
  | String _ _, EmptyString => false
  end.

Fixpoint all_space (s : string) : bool :=
  match s with
  | EmptyString => true
  | String c s' => isspace c && all_space s'
  end.

(** [s.split(sep, 1)] for a one-character separator. *)
Fixpoint split_once (sep : ascii) (s : string) : list string :=
  match s with
  | EmptyString => [EmptyString]
  | String c s' =>
      if Ascii.eqb c sep then [EmptyString; s']
      else match split_once sep s' with
           | h :: t => String c h :: t
           | [] => []
           end
  end.

(** Truth value of a string: [bool(s)]. *)
Definition truthy (s : string) : bool :=
  match s with EmptyString => false | _ => true end.

Fixpoint take (n : nat) (s : string) : string :=
  match n, s with
  | S n', String c s' => String c (take n' s')
  | _, _ => EmptyString
  end.

Fixpoint drop (n : nat) (s : string) : string :=
  match n, s with
  | S n', String _ s' => drop n' s'
  | _, _ => s
  end.

(** [sep.join(parts)] *)
Fixpoint join (sep : string) (parts : list string) : string :=
  match parts with
  | [] => EmptyString
  | [p] => p
  | p :: rest => p +:+ sep +:+ join sep rest
  end.

End PyStr.


(** ** Python number parsing *)

Module PyNum.
Import PyStr.

Definition digit_val (c : ascii) : Z := Z.of_nat (code c) - 48.

(** Decimal digits with single underscores allowed between digits. *)
Fixpoint parse_digits (s : string) (acc : Z) : option Z :=
  match s with
  | EmptyString => None
  | String c s' =>
      if is_digit c then
        let acc' := acc * 10 + digit_val c in
        match s' with
        | EmptyString => Some acc'
        | String "_" s'' => parse_digits s'' acc'
        | _ => parse_digits s' acc'
        end
      else None
  end.

(** [int(s)] for a string argument, base ten; [None] stands for the
    [ValueError] Python raises. *)
Definition int_of_string (s : string) : option Z :=
  match strip s with
  | String "-" d => Z.opp <$> parse_digits d 0
  | String "+" d => parse_digits d 0
  | d => parse_digits d 0
  end.

(** A Python [float] is an IEEE 754 binary64 value: the standard
    library's [spec_float] at precision 53, with its correctly rounded
    operations. *)
Definition prec : Z := 53.
Definition emax : Z := 1024.

Definition fmul : spec_float -> spec_float -> spec_float := SFmul prec emax.
Definition fdiv : spec_float -> spec_float -> spec_float := SFdiv prec emax.

(** The binary64 value nearest to [num / den] (ties to even), for
    [0 <= num] and [0 < den], with the given sign. *)
Definition round_ratio (negative : bool) (num den : Z) : spec_float :=
  if num =? 0 then S754_zero negative
  else
    let s := Z.max 0 (56 + Z.log2 den - Z.log2 num) in
    let n := num * 2 ^ s in
    let t := n / den in
    let r := n mod den in
    let l := if r =? 0 then loc_Exact else loc_Inexact (2 * r ?= den) in
    binary_round_aux prec emax negative t (- s) l.

(** [digits] with optional underscores, returning the value and the
    number of digits read; the rest of the string is returned too. *)
Fixpoint read_digits (s : string) (acc : Z) (n : nat) : option (Z * nat * string) :=
  match s with
  | EmptyString => None
  | String c s' =>
      if is_digit c then
        let acc' := acc * 10 + digit_val c in
        match s' with
        | String "_" s'' =>
            match read_digits s'' acc' (S n) with
            | Some r => Some r
            | None => Some (acc', S n, s')
            end
        | _ =>
            match read_digits s' acc' (S n) with
            | Some r => Some r
            | None => Some (acc', S n, s')
            end
        end
      else None
  end.

(** The float written [mant * 10 ^ (exp10 - frac_digits)]. *)
Definition make_float (negative : bool) (mant : Z) (frac_digits : nat) (exp10 : Z)
  : spec_float :=
  let e := exp10 - Z.of_nat frac_digits in
  if 0 <=? e then round_ratio negative (mant * 10 ^ e) 1
  else round_ratio negative mant (10 ^ (- e)).

(** The exponent part [e[+-]digits] of a float literal, already in lower
    case; [None] when the text is not an exponent. *)
Definition read_exponent (s : string) : option Z :=
  match s with
  | EmptyString => Some 0
  | String "e" (String "-" d) => Z.opp <$> parse_digits d 0
  | String "e" (String "+" d) => parse_digits d 0
  | String "e" d => parse_digits d 0
  | _ => None
  end.

(** An unsigned decimal literal in lower case: [digits], [digits.],
    [digits.digits] or [.digits], then an optional exponent. *)
Definition read_unsigned (negative : bool) (s : string) : option spec_float :=
  match s with
  | String "." f =>
      match read_digits f 0 0 with
      | Some (m, n, rest) => make_float negative m n <$> read_exponent rest
      | None => None
      end
  | _ =>
      match read_digits s 0 0 with
      | Some (m, _, String "." f) =>
          match read_digits f m 0 with
          | Some (m', n, rest) => make_float negative m' n <$> read_exponent rest
          | None => make_float negative m 0 <$> read_exponent f
          end
      | Some (m, _, rest) => make_float negative m 0 <$> read_exponent rest
      | None => None
      end
  end.

Definition read_signless (negative : bool) (s : string) : option spec_float :=
  if (String.eqb s "inf" || String.eqb s "infinity")%bool then Some (S754_infinity negative)
  else if String.eqb s "nan" then Some S754_nan
  else read_unsigned negative s.

(** The literal grammar of [float(s)], on text already stripped and in
    lower case. *)
Definition read_float (s : string) : option spec_float :=
  match s with
  | String "-" r => read_signless true r
  | String "+" r => read_signless false r
  | _ => read_signless false s
  end.

(** [float(s)] for a string argument; [None] stands for [ValueError].
    Python ignores surrounding white space and the case of the letters. *)
Definition float_of_string (s : string) : option spec_float :=
  read_float (lower (strip s)).

(** [int(x)] for a float: truncation toward zero. *)
Definition int_of_float (x : spec_float) : result Z :=
  match x with
  | S754_zero _ => Ok 0
  | S754_finite s m e =>
      let v := if 0 <=? e then Z.pos m * 2 ^ e else Z.pos m / 2 ^ (- e) in
      Ok (if s then - v else v)
  | S754_infinity _ => Raise OverflowError
  | S754_nan => Raise (ValueError "cannot convert float NaN to integer")
  end.

(** [float(n)] for an integer, as the mixed operators [n * x] and
    [x / n] convert their integer operand. *)
Definition float_of_int (n : Z) : result spec_float :=
  match binary_normalize prec emax n 0 false with
  | S754_infinity _ => Raise OverflowError
  | x => Ok x
  end.

(** [bool(x)] for a float. *)
Definition float_truthy (x : spec_float) : bool :=
  match x with
  | S754_zero _ => false
  | _ => true
  end.

(** The float constants of the source. *)
Definition f0_5 : spec_float := Eval vm_compute in round_ratio false 1 2.
Definition f1_25 : spec_float := Eval vm_compute in round_ratio false 5 4.
Definition f1_5 : spec_float := Eval vm_compute in round_ratio false 3 2.
Definition f500 : spec_float := Eval vm_compute in round_ratio false 500 1.

(** [x > y]; false when either is a NaN. *)
Definition float_gt (x y : spec_float) : bool := SFltb y x.

(** [str(n)] for an integer. *)
Fixpoint digits_of_pos (fuel : nat) (n : Z) (acc : string) : string :=
  match fuel with
  | O => acc
  | S fuel' =>
      let acc' := String (ascii_of_nat (Z.to_nat (n mod 10) + 48)) acc in
      if n <? 10 then acc' else digits_of_pos fuel' (n / 10) acc'
  end.

Definition string_of_Z (n : Z) : string :=
  if n <? 0 then String "-" (digits_of_pos (Z.to_nat (Z.log2 (- n)) + 1) (- n) EmptyString)
  else digits_of_pos (Z.to_nat (Z.log2 n) + 1) n EmptyString.

End PyNum.

(** ** Parsed JSON values and the Python operations the code applies to them *)

Module Json.
Import PyStr.

#[warnings="-register-all"]
Inductive json : Type :=
| JNull
| JBool (b : bool)
| JInt (n : Z)
| JFloat (x : spec_float)
| JStr (s : string)
| JArr (items : list json)
| JObj (fields : list (string * json)).

(** The parts of Python's library the code calls on JSON text and
    values.  [json_loads] returns [None] where [json.loads] raises
    [JSONDecodeError]; [py_repr] is [str(v)] for a float, list or dict. *)
Class JsonLib : Type := {
  json_loads : string -> option json;
  json_dumps : json -> string;
  json_dumps_indent : json -> string;
  py_repr : json -> string
}.

(** A Python [dict] with string keys, in insertion order. *)
Fixpoint dict_get (fields : list (string * json)) (key : string) : option json :=
  match fields with
  | [] => None
  | (k, v) :: rest => if String.eqb k key then Some v else dict_get rest key
  end.

(** [d[key] = v]: overwrite in place, or append a new key. *)
Fixpoint dict_set (fields : list (string * json)) (key : string) (v : json)
  : list (string * json) :=
  match fields with
  | [] => [(key, v)]
  | (k, w) :: rest =>
      if String.eqb k key then (k, v) :: rest else (k, w) :: dict_set rest key v
  end.

(** [d.pop(key, None)] as a statement. *)
Fixpoint dict_pop (fields : list (string * json)) (key : string)
  : list (string * json) :=
  match fields with
  | [] => []
  | (k, w) :: rest =>
      if String.eqb k key then rest else (k, w) :: dict_pop rest key
  end.

(** [bool(v)] *)
Definition truthy (v : json) : bool :=
  match v with
  | JNull => false
  | JBool b => b
  | JInt n => negb (n =? 0)
  | JFloat x => PyNum.float_truthy x
  | JStr s => PyStr.truthy s
  | JArr items => match items with [] => false | _ => true end
  | JObj fields => match fields with [] => false | _ => true end
  end.

(** [a or b] *)
Definition or_ (a b : json) : json := if truthy a then a else b.

(** [v.get(key)]: only a dict has the method. *)
Definition get (v : json) (key : string) : result json :=
  match v with
  | JObj fields => Ok (default JNull (dict_get fields key))
  | _ => Raise AttributeError
  end.

(** [v.get(key, dflt)] *)
Definition get_default (v : json) (key : string) (dflt : json) : result json :=
  match v with
  | JObj fields => Ok (default dflt (dict_get fields key))
  | _ => Raise AttributeError
  end.

(** [v[key]] with a string key. *)
Definition getitem (v : json) (key : string) : result json :=
  match v with
  | JObj fields =>
      match dict_get fields key with
      | Some w => Ok w
      | None => Raise (KeyError key)
      end
  | _ => Raise TypeError
  end.

(** [len(v)]; [None] when the value has no [__len__]. *)
Definition len (v : json) : option nat :=
  match v with
  | JStr s => Some (String.length s)
  | JArr items => Some (length items)
  | JObj fields => Some (length fields)
  | _ => None
  end.

Definition is_dict (v : json) : bool :=
  match v with JObj _ => true | _ => false end.

Definition is_list (v : json) : bool :=
  match v with JArr _ => true | _ => false end.

Definition is_none (v : json) : bool :=
  match v with JNull => true | _ => false end.

Fixpoint chars (s : string) : list json :=
  match s with
  | EmptyString => []
  | String c s' => JStr (String c EmptyString) :: chars s'
  end.

(** [iter(v)]: the elements of a list, the keys of a dict, the
    characters of a string. *)
Definition iterate (v : json) : result (list json) :=
  match v with
  | JArr items => Ok items
  | JObj fields => Ok (map (fun kv => JStr (fst kv)) fields)
  | JStr s => Ok (chars s)
  | _ => Raise TypeError
  end.

(** [str(v)], as an f-string renders a value. *)
Definition py_str `{JsonLib} (v : json) : string :=
  match v with
  | JStr s => s
  | JNull => "None"
  | JBool true => "True"
  | JBool false => "False"
  | JInt n => PyNum.string_of_Z n
  | _ => py_repr v
  end.

(** [v == k] for an integer constant [k]. *)
Definition eq_int (v : json) (k : Z) : bool :=
  match v with
  | JInt n => n =? k
  | JBool b => (if b then 1 else 0) =? k
  | JFloat x => SFeqb x (binary_normalize PyNum.prec PyNum.emax k 0 false)
  | _ => false
  end.

End Json.

(** ** Calendar dates: [datetime.strptime], [timedelta], [strftime] *)

Module Dates.
Import PyStr.

Record date : Type := { year : Z; month : Z; day : Z }.

Definition is_leap (y : Z) : bool :=
  ((y mod 4 =? 0) && (negb (y mod 100 =? 0) || (y mod 400 =? 0)))%bool.

Definition days_in_month (y m : Z) : Z :=
  if m =? 2 then (if is_leap y then 29 else 28)
  else if ((m =? 4) || (m =? 6) || (m =? 9) || (m =? 11))%bool then 30
  else 31.

(** Days in the year before the first of month [m]. *)
Definition days_before_month (y m : Z) : Z :=
  nth (Z.to_nat m) [0; 0; 31; 59; 90; 120; 151; 181; 212; 243; 273; 304; 334] 0
  + (if ((2 <? m) && is_leap y)%bool then 1 else 0).

Definition days_before_year (y : Z) : Z :=
  let y1 := y - 1 in y1 * 365 + y1 / 4 - y1 / 100 + y1 / 400.

(** [d.toordinal()]: 0001-01-01 is day 1. *)
Definition toordinal (d : date) : Z :=
  days_before_year (year d) + days_before_month (year d) (month d) + day d.

Definition max_ordinal : Z := 3652059.

(** [date.fromordinal(n)], following the library's own arithmetic. *)
Definition fromordinal (n : Z) : date :=
  let n := n - 1 in
  let n400 := n / 146097 in
  let n := n mod 146097 in
  let n100 := n / 36524 in
  let n := n mod 36524 in
  let n4 := n / 1461 in
  let n := n mod 1461 in
  let n1 := n / 365 in
  let n := n mod 365 in
  let y := n400 * 400 + 1 + n100 * 100 + n4 * 4 + n1 in
  if ((n1 =? 4) || (n100 =? 4))%bool then
    {| year := y - 1; month := 12; day := 31 |}
  else
    let leap := ((n1 =? 3) && (negb (n4 =? 24) || (n100 =? 3)))%bool in
    let m := Z.shiftr (n + 50) 5 in
    let preceding :=
      nth (Z.to_nat m) [0; 0; 31; 59; 90; 120; 151; 181; 212; 243; 273; 304; 334] 0
      + (if ((2 <? m) && leap)%bool then 1 else 0) in
    if n <? preceding then
      let m' := m - 1 in
      let dim :=
        nth (Z.to_nat m') [0; 31; 28; 31; 30; 31; 30; 31; 31; 30; 31; 30; 31] 0
        + (if ((m' =? 2) && leap)%bool then 1 else 0) in
      {| year := y; month := m'; day := n - (preceding - dim) + 1 |}
    else
      {| year := y; month := m; day := n - preceding + 1 |}.

(** [d + timedelta(days=k)]; [None] stands for [OverflowError]. *)
Definition add_days (d : date) (k : Z) : option date :=
  let n := toordinal d + k in
  if ((1 <=? n) && (n <=? max_ordinal))%bool then Some (fromordinal n) else None.

(** [(b - a).days] *)
Definition days_between (a b : date) : Z := toordinal b - toordinal a.

Definition dv (c : ascii) : Z := Z.of_nat (code c) - 48.

(** The month field of the format: [1[0-2]|0[1-9]|[1-9]], followed by
    the rest of the text. *)
Definition read_month (s : string) : option (Z * string) :=
  match s with
  | String a (String b rest) =>
      if (Ascii.eqb a "1" && is_digit b && (dv b <=? 2))%bool then Some (10 + dv b, rest)
      else if (Ascii.eqb a "0" && is_digit b && (1 <=? dv b))%bool then Some (dv b, rest)
      else if (is_digit a && (1 <=? dv a))%bool then Some (dv a, String b rest)
      else None
  | String a EmptyString =>
      if (is_digit a && (1 <=? dv a))%bool then Some (dv a, EmptyString) else None
  | EmptyString => None
  end.

(** The day field, [3[01]|[12]\d|0[1-9]|[1-9]| [1-9]], which must end
    the text. *)
Definition read_day (s : string) : option Z :=
  match s with
  | String a EmptyString =>
      if (is_digit a && (1 <=? dv a))%bool then Some (dv a) else None
  | String a (String b EmptyString) =>
      if (Ascii.eqb a "3" && is_digit b && (dv b <=? 1))%bool then Some (30 + dv b)
      else if (is_digit a && (1 <=? dv a) && (dv a <=? 2) && is_digit b)%bool
           then Some (10 * dv a + dv b)
      else if (Ascii.eqb a "0" && is_digit b && (1 <=? dv b))%bool then Some (dv b)
      else if (Ascii.eqb a " " && is_digit b && (1 <=? dv b))%bool then Some (dv b)
      else None
  | _ => None
  end.

(** [datetime.strptime(s, "%Y-%m-%d")]; [None] stands for [ValueError]. *)
Definition strptime (s : string) : option date :=
  match s with
  | String y1 (String y2 (String y3 (String y4 (String "-" rest)))) =>
      if (is_digit y1 && is_digit y2 && is_digit y3 && is_digit y4)%bool then
        let y := 1000 * dv y1 + 100 * dv y2 + 10 * dv y3 + dv y4 in
        match read_month rest with
        | Some (m, String "-" rest') =>
            match read_day rest' with
            | Some dd =>
                if ((1 <=? y) && (dd <=? days_in_month y m))%bool
                then Some {| year := y; month := m; day := dd |}
                else None
            | None => None
            end
        | _ => None
        end
      else None
  | _ => None
  end.

Definition pad2 (n : Z) : string :=
  if n <? 10 then String "0" (PyNum.string_of_Z n) else PyNum.string_of_Z n.

Definition pad4 (n : Z) : string :=
  if n <? 10 then "000" +:+ PyNum.string_of_Z n
  else if n <? 100 then "00" +:+ PyNum.string_of_Z n
  else if n <? 1000 then "0" +:+ PyNum.string_of_Z n
  else PyNum.string_of_Z n.

(** [d.strftime("%Y-%m-%d")], the year written with four digits. *)
Definition strftime (d : date) : string :=
  pad4 (year d) +:+ "-" +:+ pad2 (month d) +:+ "-" +:+ pad2 (day d).

End Dates.

(** ** City resolver (main.py, lines 40-69) *)

Module CityResolver.
Import PyStr.

(** One row of [csv.DictReader]: the four columns the loader looks at;
    [None] when the column is missing from the file or the row. *)
Record CsvRow : Type := {
  col_city_id : option string;
  col_cityId : option string;
  col_city : option string;
  col_city_name : option string
}.

(** [a or b] on optional strings, as Python evaluates it on
    [row.get(...)] results: the first truthy operand, else the last. *)
Definition or_str (a b : option string) : option string :=
  match a with
  | Some s => if truthy s then a else b
  | None => b
  end.

Definition _normalize_city_name (name : string) : string :=
  casefold (strip name).

(** The body of the [for row in reader] loop. *)
Definition load_row (mapping : gmap string Z) (row : CsvRow) : gmap string Z :=
  let id_field := or_str (col_city_id row) (col_cityId row) in
  let parsed :=
    match id_field with
    | Some s => if truthy s then PyNum.int_of_string s else Some 0
    | None => Some 0
    end in
  match parsed with
  | None => mapping                      (* except Exception: continue *)
  | Some city_id =>
      let city_name :=
        match or_str (col_city row) (col_city_name row) with
        | Some s => s
        | None => EmptyString
        end in
      if negb (city_id =? 0) && truthy city_name
      then <[_normalize_city_name city_name := city_id]> mapping
      else mapping
  end.

(** [load_city_mapping]: the first component is the new value of the
    module-level cache [_CITY_NAME_TO_ID], the second the returned
    mapping.  [csv] is the content of city_mapping.csv, [None] when the
    file does not exist. *)
Definition load_city_mapping (cache : gmap string Z) (csv : option (list CsvRow))
  : gmap string Z * gmap string Z :=
  if bool_decide (cache = ∅) then
    let mapping :=
      match csv with
      | Some rows => foldl load_row ∅ rows
      | None => ∅
      end in
    (mapping, mapping)
  else (cache, cache).

Definition map_city_to_id (cache : gmap string Z) (csv : option (list CsvRow))
    (city_name : string) : gmap string Z * option Z :=
  let '(cache', mapping) := load_city_mapping cache csv in
  (cache', mapping !! _normalize_city_name city_name).

(** The table a lookup consults. *)
Definition mapping_of (cache : gmap string Z) (csv : option (list CsvRow))
  : gmap string Z := snd (load_city_mapping cache csv).

Definition sample_csv : option (list CsvRow) :=
  Some [ {| col_city_id := Some "9395"; col_cityId := None;
            col_city := Some "Paris"; col_city_name := None |};
         {| col_city_id := None; col_cityId := Some " 4_064 ";
            col_city := None; col_city_name := Some "  New York" |};
         {| col_city_id := Some "x1"; col_cityId := None;
            col_city := Some "Nowhere"; col_city_name := None |} ].

End CityResolver.

(** ** Itinerary store (storage.py) *)

Module Storage.
Import Json.

(** The two backends.  [db_url] is what [get_db_url()] returns; [files]
    is the content of the itineraries folder by path, a path naming one
    file; [table] is the [itineraries] table, conversation id to the
    text of its jsonb column.  Opening a connection or a file is taken
    to succeed. *)
Record Store : Type := {
  db_url : option string;
  files : gmap string string;
  table : gmap string string
}.

(** What PostgreSQL gives back as [itinerary_json::text] for a document
    inserted as [%s::jsonb]. *)
Class Database : Type := {
  jsonb_text : string -> string
}.

Definition ITINERARY_FOLDER : string := "itineraries".

(** [bool(get_db_url())] *)
Definition use_db (st : Store) : bool :=
  match db_url st with
  | Some url => PyStr.truthy url
  | None => false
  end.

(** [os.path.join(ITINERARY_FOLDER, f"itinerary_{conversation_id}.json")] *)
Definition _file_path (conversation_id : string) : string :=
  ITINERARY_FOLDER +:+ "/" +:+ "itinerary_" +:+ conversation_id +:+ ".json".

Definition not_found (conversation_id : string) : exn :=
  ValueError ("No itinerary found for conversation ID: " +:+ conversation_id).

Definition read_itinerary_json (st : Store) (conversation_id : string)
  : result string :=
  if use_db st then
    match table st !! conversation_id with
    | None => Raise (not_found conversation_id)
    | Some row => Ok row
    end
  else
    match files st !! _file_path conversation_id with
    | None => Raise (not_found conversation_id)
    | Some content => Ok content
    end.

Definition write_itinerary_json `{JsonLib} `{Database}
    (st : Store) (conversation_id itinerary_json : string)
  : Store * result string :=
  match json_loads itinerary_json with
  | None => (st, Raise JSONDecodeError)
  | Some _ =>
      if use_db st then
        ({| db_url := db_url st;
            files := files st;
            table := <[conversation_id := jsonb_text itinerary_json]> (table st) |},
         Ok itinerary_json)
      else
        ({| db_url := db_url st;
            files := <[_file_path conversation_id := itinerary_json]> (files st);
            table := table st |},
         Ok itinerary_json)
  end.

(** The document the active backend holds for a conversation id. *)
Definition document_of (st : Store) (conversation_id : string) : option string :=
  if use_db st then table st !! conversation_id
  else files st !! _file_path conversation_id.

(** The text a backend keeps for a written document. *)
Definition persisted `{Database} (st : Store) (itinerary_json : string) : string :=
  if use_db st then jsonb_text itinerary_json else itinerary_json.

End Storage.

(** ** Nightly price band (main.py, lines 71-87 and 284-302) *)

Module Budget.
Import PyStr PyNum Json.

Definition low_labels : gset string := {[ "budget"; "cheap"; "low" ]}.
Definition mid_labels : gset string := {[ "mid"; "mid-range"; "medium" ]}.
Definition high_labels : gset string := {[ "luxury"; "high"; "premium" ]}.

Definition float_exn (s : string) : result spec_float :=
  match float_of_string s with
  | Some x => Ok x
  | None => Raise (ValueError "could not convert string to float")
  end.

(** The [try] block of [infer_rate_range]. *)
Definition numeric_band (b : string) : result (Z * Z) :=
  x ← float_exn b;
  val ← int_of_float x;
  fv ← float_of_int val;
  lo ← int_of_float (fmul fv f0_5);
  hi ← int_of_float (fmul fv f1_25);
  Ok (Z.max 20 lo, Z.max 40 hi).

Definition infer_rate_range (budget : option string) : Z * Z :=
  match budget with
  | None => (20, 500)
  | Some s =>
      if negb (PyStr.truthy s) then (20, 500)
      else
        let b := lower (strip s) in
        if bool_decide (b ∈ low_labels) then (20, 80)
        else if bool_decide (b ∈ mid_labels) then (80, 200)
        else if bool_decide (b ∈ high_labels) then (200, 800)
        else match numeric_band b with
             | Ok band => band
             | Raise _ => (20, 500)
             end
  end.

(** [len(v)] where the absence of [__len__] is a [TypeError]. *)
Definition len_exn (v : json) : result Z :=
  match len v with
  | Some n => Ok (Z.of_nat n)
  | None => Raise TypeError
  end.

(** The band around the nightly average of a total budget [x] spread
    over [n] itinerary days (lines 291-295). *)
Definition band_around (x : spec_float) (n : Z) : result (Z * Z) :=
  fn ← float_of_int (Z.max 1 n);
  let nightly_base := fdiv x fn in
  lo ← int_of_float (fmul nightly_base f0_5);
  let min_rate := Z.max 20 lo in
  hi ← int_of_float (fmul nightly_base f1_5);
  Ok (min_rate, Z.max (min_rate + 20) hi).

(** The band the enrichment searches with: [infer_rate_range], replaced
    by a band around the nightly average when the budget reads as a
    number above 500. *)
Definition nightly_range (budget : option string) (itinerary : json)
  : result (Z * Z) :=
  let '(min_rate, max_rate) := infer_rate_range budget in
  let budget_val :=
    match budget with
    | Some s => float_of_string s
    | None => None
    end in
  match budget_val with
  | Some x =>
      if float_truthy x && float_gt x f500 then
        days ← get_default itinerary "itinerary" (JArr []);
        n ← len_exn days;
        band_around x n
      else Ok (min_rate, max_rate)
  | None => Ok (min_rate, max_rate)
  end.

(** An itinerary document with [n] empty day objects, for the examples. *)
Definition doc_with_days (n : nat) : json :=
  JObj [("itinerary", JArr (replicate n (JObj [])))].

(** Checkers for the whole-number budgets of a bounded range: the
    binary64 computation against exact integer arithmetic. *)
Definition small_budget_ok (v : Z) : bool :=
  match float_of_string (string_of_Z v) with
  | Some x =>
      negb (float_truthy x && float_gt x f500)
      && bool_decide (infer_rate_range (Some (string_of_Z v))
                      = (Z.max 20 (v / 2), Z.max 40 (5 * v / 4)))
  | None => false
  end.

Definition exact_band_around (v n : Z) : Z * Z :=
  let nights := Z.max 1 n in
  let lo := Z.max 20 (v / (2 * nights)) in
  (lo, Z.max (lo + 20) (3 * v / (2 * nights))).

Definition total_budget_ok (v : Z) : bool :=
  match float_of_string (string_of_Z v) with
  | Some x =>
      float_truthy x && float_gt x f500
      && forallb (fun n =>
                    match band_around x n with
                    | Ok band => bool_decide (band = exact_band_around v n)
                    | Raise _ => false
                    end)
           (seqZ 0 32)
  | None => false
  end.

End Budget.

(** ** Rendering an itinerary as text (main.py, lines 519-543) *)

Module Display.
Import Json.

Section WithJson.
Context `{JsonLib}.

Definition nl : string := String (ascii_of_nat 10) EmptyString.

Definition loads_exn (text : string) : result json :=
  match json_loads text with
  | Some v => Ok v
  | None => Raise JSONDecodeError
  end.

Definition as_str (v : json) : result string :=
  match v with
  | JStr s => Ok s
  | _ => Raise TypeError
  end.

(** [', '.join(v)]: every element the iteration yields must be a string. *)
Definition join_value (v : json) : result string :=
  items ← iterate v;
  parts ← mapM as_str items;
  Ok (PyStr.join ", " parts).

Definition all_str (items : list json) : bool :=
  forallb (fun v => match v with JStr _ => true | _ => false end) items.

(** [acc.get('results') or acc.get('hotels') or acc.get('properties') or []]
    on a dict. *)
Definition result_items (fields : list (string * json)) : json :=
  or_ (or_ (or_ (default JNull (dict_get fields "results"))
                (default JNull (dict_get fields "hotels")))
           (default JNull (dict_get fields "properties")))
      (JArr []).

(** [len(items) if hasattr(items, '__len__') else 'unknown'], rendered. *)
Definition count_str (items : json) : string :=
  match len items with
  | Some n => PyNum.string_of_Z (Z.of_nat n)
  | None => "unknown"
  end.

Definition accommodation_str (acc : json) : string :=
  match acc with
  | JArr items =>
      if all_str items
      then PyStr.join ", " (omap (fun v => match v with JStr s => Some s | _ => None end) items)
      else "Agoda response list with " +:+ PyNum.string_of_Z (Z.of_nat (length items))
           +:+ " entries"
  | JObj fields =>
      "Agoda response with " +:+ count_str (result_items fields) +:+ " items"
  | JNull => "None"
  | _ => py_str acc
  end.

Definition format_day (day : json) : result string :=
  day_number ← getitem day "day_number";
  date ← getitem day "date";
  location ← getitem day "location";
  activities ← getitem day "activities";
  joined ← join_value activities;
  transportation ← getitem day "transportation";
  acc ← get day "accommodation";
  notes ← getitem day "notes";
  Ok ("Day " +:+ py_str day_number +:+ " (" +:+ py_str date +:+ "):" +:+ nl
      +:+ "  Location: " +:+ py_str location +:+ nl
      +:+ "  Activities: " +:+ joined +:+ nl
      +:+ "  Transportation: " +:+ py_str transportation +:+ nl
      +:+ "  Accommodation: " +:+ accommodation_str acc +:+ nl
      +:+ "  Notes: " +:+ py_str notes +:+ nl +:+ nl).

Fixpoint format_days (days : list json) : result string :=
  match days with
  | [] => Ok EmptyString
  | day :: rest =>
      first ← format_day day;
      others ← format_days rest;
      Ok (first +:+ others)
  end.

Definition format_itinerary_for_display (itinerary_json : string) : result string :=
  itinerary ← loads_exn itinerary_json;
  destination ← getitem itinerary "destination";
  description ← getitem itinerary "description";
  start_date ← getitem itinerary "start_date";
  end_date ← getitem itinerary "end_date";
  duration_days ← getitem itinerary "duration_days";
  days_value ← getitem itinerary "itinerary";
  days ← iterate days_value;
  body ← format_days days;
  Ok ("Trip to " +:+ py_str destination +:+ nl
      +:+ "Description: " +:+ py_str description +:+ nl
      +:+ "Dates: " +:+ py_str start_date +:+ " to " +:+ py_str end_date
      +:+ " (" +:+ py_str duration_days +:+ " days)" +:+ nl +:+ nl
      +:+ "Itinerary:" +:+ nl
      +:+ body).

End WithJson.
End Display.

(** ** Agents, trip context and run items (main.py, agents SDK boundary) *)

Module Agents.

(** The five agents of main.py, lines 546-616. *)
Inductive Agent : Type :=
| user_preferences_agent
| destination_research_agent
| itinerary_agent
| booking_agent
| summary_agent.

#[global] Instance Agent_eq_dec : EqDecision Agent.
Proof. solve_decision. Defined.

Definition name (a : Agent) : string :=
  match a with
  | user_preferences_agent => "user_preferences_agent"
  | destination_research_agent => "destination_research_agent"
  | itinerary_agent => "itinerary_agent"
  | booking_agent => "booking_agent"
  | summary_agent => "summary_agent"
  end.

(** The native handoff graph wired at lines 619-623. *)
Definition handoffs (a : Agent) : list Agent :=
  match a with
  | user_preferences_agent => [destination_research_agent]
  | destination_research_agent => [itinerary_agent]
  | itinerary_agent => [booking_agent; summary_agent]
  | booking_agent => [summary_agent]
  | summary_agent => []
  end.

(** The routing table of the text protocol. *)
Definition agent_by_key : gmap string Agent :=
  {[ "user_preferences" := user_preferences_agent;
     "destination_research" := destination_research_agent;
     "itinerary" := itinerary_agent;
     "booking" := booking_agent;
     "summary" := summary_agent ]}.

Record TripPlannerContext : Type := {
  destination : option string;
  start_date : option string;
  end_date : option string;
  budget : option string;
  travel_style : option string;
  number_of_people : option Z;
  conversation_id : option string
}.

Definition empty_context : TripPlannerContext :=
  {| destination := None; start_date := None; end_date := None; budget := None;
     travel_style := None; number_of_people := None; conversation_id := None |}.

Definition with_conversation_id (ctx : TripPlannerContext) (cid : option string)
  : TripPlannerContext :=
  {| destination := destination ctx; start_date := start_date ctx;
     end_date := end_date ctx; budget := budget ctx;
     travel_style := travel_style ctx; number_of_people := number_of_people ctx;
     conversation_id := cid |}.

(** [x if x is not None else old] *)
Definition overwrite {A} (new old : option A) : option A :=
  match new with
  | Some _ => new
  | None => old
  end.

(** [update_context_tool]: a field that is given overwrites, a field
    that is absent is kept. *)
Definition update_context_tool (ctx : TripPlannerContext)
    (destination' start_date' end_date' budget' travel_style' : option string)
    (number_of_people' : option Z) (conversation_id' : option string)
  : TripPlannerContext :=
  {| destination := overwrite destination' (destination ctx);
     start_date := overwrite start_date' (start_date ctx);
     end_date := overwrite end_date' (end_date ctx);
     budget := overwrite budget' (budget ctx);
     travel_style := overwrite travel_style' (travel_style ctx);
     number_of_people := overwrite number_of_people' (number_of_people ctx);
     conversation_id := overwrite conversation_id' (conversation_id ctx) |}.

(** Truth value of an optional string ([None] and the empty string are
    false), and [a or b] on such values. *)
Definition opt_truthy (s : option string) : bool :=
  match s with
  | Some t => PyStr.truthy t
  | None => false
  end.

Definition opt_or (a b : option string) : option string :=
  if opt_truthy a then a else b.

(** The items a run produces.  A message item carries the text
    [ItemHelpers.text_message_output] extracts from it. *)
Inductive RunItem : Type :=
| MessageOutputItem (agent : Agent) (text : string)
| HandoffOutputItem (source_agent target_agent : Agent)
| ToolCallItem (agent : Agent)
| ToolCallOutputItem (agent : Agent) (output : string)
| OtherItem.

(** An entry of the transcript handed to the runner. *)
Inductive InputItem : Type :=
| Message (content role : string)
| FromRun (item : RunItem).

(** What [Runner.run] returns.  [to_input_list] belongs to the runtime;
    it is given the content, at the time of the call, of the list object
    the run was started with, which the result may hold by reference. *)
Record RunResult : Type := {
  new_items : list RunItem;
  to_input_list : list InputItem -> list InputItem
}.

Inductive RunOutcome : Type :=
| RunRaises (e : exn)
| RunReturns (response : RunResult).

(** [Runner.run(agent, items, context=context)]: the context as the
    tools of the run left it, and the outcome. *)
Class Runtime : Type := {
  Runner_run : Agent -> list InputItem -> TripPlannerContext
               -> TripPlannerContext * RunOutcome
}.

End Agents.

(** ** The text protocol and the turn loops (api.py, main.py) *)

Module Orchestrator.
Import PyStr Json Agents Display.

(** [stripped.split(":", 1)[1].strip().lower()] looked up in
    [agent_by_key], for text whose stripped upper-case form starts with
    the marker.  The index is in range whenever the marker matched. *)
Definition handoff_target (text : string) : option Agent :=
  let stripped := strip text in
  if startswith (upper stripped) "HANDOFF:" then
    match split_once ":" stripped !! 1%nat with
    | Some rest => agent_by_key !! lower (strip rest)
    | None => None
    end
  else None.

(** The pointer an item asks for, if it asks for one. *)
Definition signal (item : RunItem) : option Agent :=
  match item with
  | HandoffOutputItem _ target => Some target
  | MessageOutputItem _ text => handoff_target text
  | _ => None
  end.

Definition is_marker (item : RunItem) : bool :=
  match item with
  | MessageOutputItem _ text => bool_decide (is_Some (handoff_target text))
  | _ => false
  end.

Definition system_entry (conversation_id : string) : InputItem :=
  Message ("Conversation ID: " +:+ conversation_id) "system".

Definition user_entry (msg : string) : InputItem := Message msg "user".

Section WithLibraries.
Context `{JsonLib} `{Runtime}.

Definition itinerary_keys : list string :=
  ["destination"; "start_date"; "end_date"; "itinerary"].

(** [isinstance(parsed, dict) and {...}.issubset(parsed.keys())] *)
Definition has_itinerary_keys (parsed : option json) : bool :=
  match parsed with
  | Some (JObj fields) =>
      forallb (fun k => bool_decide (is_Some (dict_get fields k))) itinerary_keys
  | _ => false
  end.

(** api.py, [_format_message]. *)
Definition _format_message (item : RunItem) : string :=
  match item with
  | MessageOutputItem _ text =>
      if negb (PyStr.truthy text) then EmptyString
      else
        let parsed := json_loads text in
        match parsed with
        | Some v =>
            if has_itinerary_keys parsed then
              match format_itinerary_for_display (json_dumps v) with
              | Ok shown => shown
              | Raise _ => "Itinerary updated."
              end
            else text
        | None => text
        end
  | HandoffOutputItem source target =>
      "Handed off from " +:+ name source +:+ " to " +:+ name target
  | ToolCallItem agent => name agent +:+ ": Calling a tool"
  | ToolCallOutputItem agent output =>
      let parsed := json_loads output in
      match parsed with
      | Some v =>
          if has_itinerary_keys parsed then
            match format_itinerary_for_display (json_dumps v) with
            | Ok shown => shown
            | Raise _ => name agent +:+ ": Itinerary updated."
            end
          else name agent +:+ ": Tool completed."
      | None => name agent +:+ ": Tool completed."
      end
  | OtherItem => EmptyString
  end.

(** *** api.py: sessions and [chat]

    [session_id], [request_id] and [response_id] are the attributes the
    source calls [conversation_id]; [response_agent] is the field
    [current_agent] of [ChatResponse].  The lock of a session is left
    out: a turn is one function call. *)

Record _Session : Type := {
  session_id : string;
  current_agent : Agent;
  items : list InputItem;
  context : TripPlannerContext
}.

Definition new_session (conversation_id : string) : _Session :=
  {| session_id := conversation_id;
     current_agent := user_preferences_agent;
     items := [];
     context := with_conversation_id empty_context (Some conversation_id) |}.

(** [_get_or_create_session]; [fresh] is the id [uuid4] would give. *)
Definition _get_or_create_session (sessions : gmap string _Session)
    (fresh : string) (conversation_id : option string)
  : gmap string _Session * string * _Session :=
  let conv_id := if opt_truthy conversation_id then default fresh conversation_id
                 else fresh in
  match sessions !! conv_id with
  | Some s => (sessions, conv_id, s)
  | None => (<[conv_id := new_session conv_id]> sessions, conv_id, new_session conv_id)
  end.

Record ChatRequest : Type := {
  message : string;
  request_id : option string
}.

Record ChatResponse : Type := {
  response_id : string;
  reply : string;
  response_agent : string
}.

(** The state the loop over [response.new_items] carries. *)
Record Loop : Type := {
  bot_response : list string;
  new_current_agent : Agent;
  loop_items : list InputItem
}.

(** One iteration of the loop of [chat] (lines 156-169). *)
Definition chat_step (conversation_id : string) (st : Loop) (item : RunItem) : Loop :=
  let formatted := _format_message item in
  let shown :=
    if PyStr.truthy formatted then bot_response st ++ [formatted]
    else bot_response st in
  match item with
  | HandoffOutputItem _ target =>
      {| bot_response := shown; new_current_agent := target;
         loop_items := loop_items st |}
  | MessageOutputItem _ text =>
      match handoff_target text with
      | Some target =>
          {| bot_response := shown; new_current_agent := target;
             loop_items := loop_items st ++ [system_entry conversation_id] |}
      | None =>
          {| bot_response := shown; new_current_agent := new_current_agent st;
             loop_items := loop_items st |}
      end
  | _ =>
      {| bot_response := shown; new_current_agent := new_current_agent st;
         loop_items := loop_items st |}
  end.

Definition chat_loop (conversation_id : string) (st : Loop) (new : list RunItem)
  : Loop := foldl (chat_step conversation_id) st new.

(** The context [chat] hands to the runner: the session's, with the
    conversation id filled in when it is missing. *)
Definition chat_context (session : _Session) : TripPlannerContext :=
  if opt_truthy (conversation_id (context session)) then context session
  else with_conversation_id (context session) (Some (session_id session)).

(** The call [Runner.run(session.current_agent, session.items, ...)] of
    a turn, made after the user's message was appended. *)
Definition chat_run (session : _Session) (msg : string)
  : TripPlannerContext * RunOutcome :=
  Runner_run (current_agent session) (items session ++ [user_entry msg])
    (chat_context session).

(** The lock-protected body of [chat], on one session: the session as
    the turn leaves it, and the response or the exception. *)
Definition chat_turn (session : _Session) (msg : string)
  : _Session * result ChatResponse :=
  let items1 := items session ++ [user_entry msg] in
  let '(ctx1, outcome) := chat_run session msg in
  match outcome with
  | RunRaises e =>
      ({| session_id := session_id session;
          current_agent := current_agent session;
          items := items1;
          context := ctx1 |},
       Raise e)
  | RunReturns response =>
      let st :=
        chat_loop (session_id session)
          {| bot_response := []; new_current_agent := current_agent session;
             loop_items := items1 |}
          (new_items response) in
      let reply_text :=
        match strip (PyStr.join Display.nl (bot_response st)) with
        | EmptyString => "Noted."
        | shown => shown
        end in
      ({| session_id := session_id session;
          current_agent := new_current_agent st;
          items := to_input_list response (loop_items st);
          context := ctx1 |},
       Ok {| response_id := session_id session;
             reply := reply_text;
             response_agent := name (new_current_agent st) |})
  end.

(** [chat]: the registry after the call and what the endpoint returns. *)
Definition chat (sessions : gmap string _Session) (fresh : string) (req : ChatRequest)
  : gmap string _Session * result ChatResponse :=
  let '(sessions1, conv_id, session) :=
    _get_or_create_session sessions fresh (request_id req) in
  let '(session', r) := chat_turn session (message req) in
  (<[conv_id := session']> sessions1, r).

(** *** main.py: the loop of [main] *)

Record MainState : Type := {
  main_agent : Agent;
  input_items : list InputItem;
  main_context : TripPlannerContext;
  printed : list string
}.

Definition say (st : MainState) (lines : list string) : MainState :=
  {| main_agent := main_agent st; input_items := input_items st;
     main_context := main_context st; printed := printed st ++ lines |}.

Definition hand_to (st : MainState) (conversation_id : string) (target : Agent)
    (line : string) : MainState :=
  {| main_agent := target;
     input_items := input_items st ++ [system_entry conversation_id];
     main_context := main_context st;
     printed := printed st ++ [line] |}.

(** The loop over [response.new_items] (lines 656-690).  A recognised
    marker ends the loop; an exception of the renderer other than
    [JSONDecodeError] is not caught and ends the program. *)
Fixpoint main_loop (conversation_id : string) (st : MainState) (new : list RunItem)
  : result MainState :=
  match new with
  | [] => Ok st
  | item :: rest =>
      match item with
      | MessageOutputItem _ text =>
          if PyStr.truthy text then
            match handoff_target text with
            | Some target =>
                Ok (hand_to st conversation_id target
                      (nl +:+ ">>> HANDOFF (custom) to " +:+ name target +:+ nl))
            | None =>
                match json_loads text with
                | Some _ =>
                    shown ← format_itinerary_for_display text;
                    main_loop conversation_id (say st ["Updated Itinerary:"; shown]) rest
                | None => main_loop conversation_id (say st [text]) rest
                end
            end
          else main_loop conversation_id st rest
      | HandoffOutputItem _ target =>
          main_loop conversation_id
            (hand_to st conversation_id target
               (nl +:+ ">>> Handed off to " +:+ name target +:+ nl))
            rest
      | ToolCallItem agent =>
          main_loop conversation_id (say st [name agent +:+ ": Calling a tool..."]) rest
      | ToolCallOutputItem agent output =>
          let st1 := say st [name agent +:+ ": Tool call output"] in
          match json_loads output with
          | Some _ =>
              shown ← format_itinerary_for_display output;
              main_loop conversation_id (say st1 ["Itinerary Updated:"; shown]) rest
          | None => main_loop conversation_id st1 rest
          end
      | OtherItem => main_loop conversation_id st rest
      end
  end.

(** The call [Runner.run(current_agent, input_items, context=context)]
    of a pass, made after the message read was appended. *)
Definition main_run (st : MainState) (msg : string)
  : TripPlannerContext * RunOutcome :=
  Runner_run (main_agent st) (input_items st ++ [user_entry msg]) (main_context st).

(** One pass of the [while True] body for the message read. *)
Definition main_turn (conversation_id : string) (st : MainState) (msg : string)
  : result MainState :=
  let items1 := input_items st ++ [user_entry msg] in
  let st1 :=
    {| main_agent := main_agent st; input_items := items1;
       main_context := main_context st;
       printed := printed st
                  ++ [nl +:+ ">>> Currently active agent: " +:+ name (main_agent st) +:+ nl] |} in
  let '(ctx1, outcome) := main_run st msg in
  let st2 :=
    {| main_agent := main_agent st1; input_items := input_items st1;
       main_context := ctx1; printed := printed st1 |} in
  match outcome with
  | RunRaises e =>
      Ok (say st2 ["Error running " +:+ name (main_agent st) +:+ ": " +:+ exn_str e])
  | RunReturns response =>
      st3 ← main_loop conversation_id st2 (new_items response);
      Ok {| main_agent := main_agent st3;
            input_items := to_input_list response (input_items st3);
            main_context := main_context st3;
            printed := printed st3 |}
  end.

End WithLibraries.
End Orchestrator.

(** ** The chat front end's rendering (app.py, lines 29-98) *)

Module App.
Import PyStr Json Agents Display.

Definition fence : string := String "`" (String "`" (String "`" EmptyString)).

(** The tail of the pattern, [\s*] then the closing fence, tried at the
    head of [s]: the number of characters it takes. *)
Definition closes_here (s : string) : option nat :=
  let t := lstrip s in
  if startswith t fence then Some (String.length s - String.length t + 3)%nat
  else None.

(** The lazy group [(.*?)]: the least number of characters after which
    the tail of the pattern matches, and the length through the closing
    fence. *)
Fixpoint find_close (s : string) : option (nat * nat) :=
  match closes_here s with
  | Some n => Some (O, n)
  | None =>
      match s with
      | EmptyString => None
      | String _ s' =>
          match find_close s' with
          | Some (k, n) => Some (S k, S n)
          | None => None
          end
      end
  end.

(** The pattern, an opening fence, an optional [json] in any case,
    white space, the lazy group, white space and a closing fence, with
    the flags DOTALL and IGNORECASE, matched at the head of [s]: group 1
    and the length of the match. *)
Definition match_at (s : string) : option (string * nat) :=
  if startswith s fence then
    let r0 := drop 3 s in
    let tagged := startswith (lower (take 4 r0)) "json" in
    let r1 := if tagged then drop 4 r0 else r0 in
    let r2 := lstrip r1 in
    match find_close r2 with
    | Some (k, n) =>
        Some (take k r2,
              (3 + (if tagged then 4 else 0)
               + (String.length r1 - String.length r2) + n)%nat)
    | None => None
    end
  else None.

(** [re.search(pattern, text)]: group 1 of the leftmost match. *)
Fixpoint fence_search (s : string) : option string :=
  match match_at s with
  | Some (group, _) => Some group
  | None =>
      match s with
      | EmptyString => None
      | String _ s' => fence_search s'
      end
  end.

(** [re.sub(pattern, "", text)], with [skip] characters of a match
    still to drop. *)
Fixpoint fence_sub_from (skip : nat) (s : string) : string :=
  match s with
  | EmptyString => EmptyString
  | String c s' =>
      match skip with
      | S n => fence_sub_from n s'
      | O =>
          match match_at s with
          | Some (_, S n) => fence_sub_from n s'
          | _ => String c (fence_sub_from O s')
          end
      end
  end.

Definition fence_sub (s : string) : string := fence_sub_from O s.

Section WithJson.
Context `{JsonLib}.

(** [_try_extract_json]: the parsed value, or [None]. A parsed [null]
    is Python's [None] too. *)
Definition _try_extract_json (text : string) : option json :=
  if negb (PyStr.truthy text) then None
  else
    let candidate :=
      match fence_search text with
      | Some group => strip group
      | None =>
          let stripped := strip text in
          if startswith stripped "{" || startswith stripped "[" then stripped
          else EmptyString
      end in
    if negb (PyStr.truthy candidate) then None
    else match json_loads candidate with
         | Some JNull => None
         | parsed => parsed
         end.

(** [_is_itinerary_like] *)
Definition _is_itinerary_like (obj : json) : bool :=
  match obj with
  | JObj fields =>
      forallb (fun k => bool_decide (is_Some (dict_get fields k)))
        ["destination"; "start_date"; "end_date"; "itinerary"]
      && is_list (default JNull (dict_get fields "itinerary"))
  | _ => false
  end.

(** [format_message] *)
Definition format_message (item : RunItem) : string :=
  match item with
  | MessageOutputItem _ text =>
      if negb (PyStr.truthy text) then EmptyString
      else
        match _try_extract_json text with
        | Some parsed =>
            if _is_itinerary_like parsed then
              match format_itinerary_for_display (json_dumps parsed) with
              | Ok shown => shown
              | Raise _ => "Itinerary updated."
              end
            else strip (fence_sub text)
        | None => text
        end
  | HandoffOutputItem source target =>
      "Handed off from " +:+ name source +:+ " to " +:+ name target
  | ToolCallItem agent => name agent +:+ ": Calling a tool"
  | ToolCallOutputItem agent output =>
      match json_loads output with
      | Some parsed =>
          if negb (is_none parsed) && _is_itinerary_like parsed then
            match format_itinerary_for_display (json_dumps parsed) with
            | Ok shown => shown
            | Raise _ => name agent +:+ ": Itinerary updated."
            end
          else name agent +:+ ": Tool completed."
      | None => name agent +:+ ": Tool completed."
      end
  | OtherItem => EmptyString
  end.

End WithJson.

(** Text with no backquote in it. *)
Fixpoint no_backquote (s : string) : bool :=
  match s with
  | EmptyString => true
  | String c s' => negb (Ascii.eqb c "`") && no_backquote s'
  end.

End App.

(** ** Itinerary creation (main.py, lines 104-120 and 178-233) *)

Module Itinerary.
Import Json Agents Dates Storage.

Record ItineraryDay : Type := {
  day_date : string;
  day_number : Z;
  location : string;
  activities : list string;
  transportation : string;
  accommodation : json;
  notes : string
}.

Record ItineraryOutput : Type := {
  out_destination : string;
  description : string;
  out_start_date : string;
  out_end_date : string;
  duration_days : Z;
  itinerary : list ItineraryDay
}.

Definition str_list (l : list string) : json := JArr (JStr <$> l).

(** [day.dict()] and [itinerary_output.dict()], fields in declaration
    order. *)
Definition day_to_json (d : ItineraryDay) : json :=
  JObj [("date", JStr (day_date d));
        ("day_number", JInt (day_number d));
        ("location", JStr (location d));
        ("activities", str_list (activities d));
        ("transportation", JStr (transportation d));
        ("accommodation", accommodation d);
        ("notes", JStr (notes d))].

Definition to_json (o : ItineraryOutput) : json :=
  JObj [("destination", JStr (out_destination o));
        ("description", JStr (description o));
        ("start_date", JStr (out_start_date o));
        ("end_date", JStr (out_end_date o));
        ("duration_days", JInt (duration_days o));
        ("itinerary", JArr (day_to_json <$> itinerary o))].

Definition missing_context : exn :=
  ValueError "Missing required context: destination, start_date, or end_date".

Definition strptime_exn (s : string) : result date :=
  match strptime s with
  | Some d => Ok d
  | None => Raise (ValueError "time data does not match format")
  end.

Definition add_days_exn (d : date) (k : Z) : result date :=
  match add_days d k with
  | Some d' => Ok d'
  | None => Raise OverflowError
  end.

(** The arguments the agent passes besides the context. *)
Record DayPlans : Type := {
  activities_per_day : list (list string);
  transportation_per_day : list string;
  accommodations : list (list string);
  notes_per_day : list string
}.

(** The body of the [for i in range(duration_days)] loop. *)
Definition build_day (start : date) (dest : string) (plans : DayPlans) (i : Z)
  : result ItineraryDay :=
  d ← add_days_exn start i;
  Ok {| day_date := strftime d;
        day_number := i + 1;
        location := dest;
        activities := default [] (activities_per_day plans !! Z.to_nat i);
        transportation := default "None" (transportation_per_day plans !! Z.to_nat i);
        accommodation := str_list (default [] (accommodations plans !! Z.to_nat i));
        notes := default "" (notes_per_day plans !! Z.to_nat i) |}.

(** The day the loop builds at index [i]. *)
Definition day_at (start : date) (dest : string) (plans : DayPlans) (i : Z)
  : ItineraryDay :=
  {| day_date := strftime (fromordinal (toordinal start + i));
     day_number := i + 1;
     location := dest;
     activities := default [] (activities_per_day plans !! Z.to_nat i);
     transportation := default "None" (transportation_per_day plans !! Z.to_nat i);
     accommodation := str_list (default [] (accommodations plans !! Z.to_nat i));
     notes := default "" (notes_per_day plans !! Z.to_nat i) |}.

(** Lines 190-224: the document built from the context. *)
Definition build_itinerary (ctx : TripPlannerContext) (plans : DayPlans)
    (description : string) : result ItineraryOutput :=
  if opt_truthy (start_date ctx) && opt_truthy (end_date ctx)
     && opt_truthy (destination ctx)
  then
    start ← strptime_exn (default "" (start_date ctx));
    finish ← strptime_exn (default "" (end_date ctx));
    let duration := days_between start finish + 1 in
    days ← mapM (build_day start (default "" (destination ctx)) plans) (seqZ 0 duration);
    Ok {| out_destination := default "" (destination ctx);
          description := description;
          out_start_date := default "" (start_date ctx);
          out_end_date := default "" (end_date ctx);
          duration_days := duration;
          itinerary := days |}
  else Raise missing_context.

Section WithLibraries.
Context `{JsonLib} `{Database}.

(** [create_itinerary_json_tool]; [fresh] is the id [uuid4] would give.
    The context, the store and the returned text or exception. *)
Definition create_itinerary_json_tool (fresh : string) (ctx : TripPlannerContext)
    (st : Store) (plans : DayPlans) (description : string)
    (conversation_id : option string)
  : TripPlannerContext * Store * result string :=
  match build_itinerary ctx plans description with
  | Raise e => (ctx, st, Raise e)
  | Ok doc =>
      let itinerary_json := json_dumps_indent (to_json doc) in
      let conv_id :=
        default fresh
          (opt_or conversation_id (opt_or (Agents.conversation_id ctx) (Some fresh))) in
      let ctx' := with_conversation_id ctx (Some conv_id) in
      let '(st', r) := write_itinerary_json st conv_id itinerary_json in
      (ctx', st', r)
  end.

End WithLibraries.
End Itinerary.

(** ** Accommodation enrichment (main.py, lines 257-517) *)

Module Enrichment.
Import PyStr Json Agents Dates Storage CityResolver Budget.

(** The configuration read from the environment (lines 30-36). *)
Class AgodaConfig : Type := {
  AGODA_BASE_URL : string;
  AGODA_API_KEY : string;
  AGODA_SEARCH_PATH : string
}.

Record Request : Type := {
  url : string;
  headers : list (string * string);
  body : json
}.

(** What [client.post] does: it raises, or it returns a response with a
    status code and a body. *)
Inductive HttpOutcome : Type :=
| HttpError
| HttpResponse (status_code : Z) (text : string).

(** The search service: the outcome of a request, given the number of
    requests made before it. *)
Class HttpClient : Type := {
  post : nat -> Request -> HttpOutcome
}.

(** The state the tool reads and writes: the itinerary store, the city
    cache and the content of city_mapping.csv, and the number of requests
    made so far.  Waiting (the rate limiter, the back-off) changes none
    of it and is left out. *)
Record Env : Type := {
  store : Store;
  city_cache : gmap string Z;
  city_csv : option (list CsvRow);
  requests : nat
}.

(** State and exceptions. *)
Definition M (A : Type) : Type := Env -> Env * result A.

#[global] Instance M_ret : MRet M := fun A a s => (s, Ok a).

#[global] Instance M_bind : MBind M := fun A B k m s =>
  match m s with
  | (s', Ok a) => k a s'
  | (s', Raise e) => (s', Raise e)
  end.

Definition lift {A} (r : result A) : M A := fun s => (s, r).

Definition MAX_RETRIES : nat := 3.

Section WithLibraries.
Context `{JsonLib} `{Database} `{AgodaConfig} `{HttpClient}.

Definition http_post (req : Request) : M HttpOutcome := fun s =>
  ({| store := store s; city_cache := city_cache s; city_csv := city_csv s;
      requests := S (requests s) |},
   Ok (post (requests s) req)).

Definition resolve_city (name : string) : M (option Z) := fun s =>
  let '(cache', found) := map_city_to_id (city_cache s) (city_csv s) name in
  ({| store := store s; city_cache := cache'; city_csv := city_csv s;
      requests := requests s |},
   Ok found).

Definition read_store (conv_id : string) : M string := fun s =>
  (s, read_itinerary_json (store s) conv_id).

Definition write_store (conv_id text : string) : M string := fun s =>
  let '(st', r) := write_itinerary_json (store s) conv_id text in
  ({| store := st'; city_cache := city_cache s; city_csv := city_csv s;
      requests := requests s |},
   r).

(** Lines 330-354. *)
Definition additional (min_rate max_rate adults : Z) : list (string * json) :=
  [("currency", JStr "USD");
   ("dailyRate", JObj [("maximum", JInt max_rate); ("minimum", JInt min_rate)]);
   ("discountOnly", JBool false);
   ("language", JStr "en-us");
   ("maxResult", JInt 3);
   ("minimumReviewScore", JInt 0);
   ("minimumStarRating", JInt 0);
   ("occupancy", JObj [("numberOfAdult", JInt adults);
                       ("numberOfChildren", JInt 0);
                       ("childrenAges", JArr [])]);
   ("sortBy", JStr "PriceAsc")].

Definition payload (min_rate max_rate adults : Z) (check_in check_out : json)
    (city_id : Z) : json :=
  JObj [("criteria",
         JObj [("additional", JObj (additional min_rate max_rate adults));
               ("checkInDate", check_in);
               ("checkOutDate", check_out);
               ("cityId", JInt city_id)])].

(** Lines 430-435 on a deep copy of the payload: the price filter is
    dropped, the cap and the order changed; an exception on the way
    leaves the copy as it is. *)
Definition relax (copy : json) : json :=
  match copy with
  | JObj top =>
      match dict_get top "criteria" with
      | Some (JObj criteria) =>
          match dict_get criteria "additional" with
          | Some (JObj add) =>
              let add' :=
                dict_set (dict_set (dict_pop add "dailyRate") "maxResult" (JInt 10))
                  "sortBy" (JStr "Popularity") in
              JObj (dict_set top "criteria"
                      (JObj (dict_set criteria "additional" (JObj add'))))
          | _ => copy
          end
      | _ => copy
      end
  | _ => copy
  end.

(** Lines 452-458. *)
Definition minimal_payload (check_in check_out : json) (city_id : Z) : json :=
  JObj [("criteria",
         JObj [("checkInDate", check_in);
               ("checkOutDate", check_out);
               ("cityId", JInt city_id)])].

Definition request_headers : list (string * string) :=
  [("Content-Type", "application/json");
   ("Accept", "application/json");
   ("Accept-Encoding", "gzip,deflate");
   ("Authorization", AGODA_API_KEY);
   ("apiKey", AGODA_API_KEY);
   ("ApiKey", AGODA_API_KEY)].

Definition request_to (path : string) (content : json) : Request :=
  {| url := AGODA_BASE_URL +:+ path; headers := request_headers; body := content |}.

(** Lines 368-376. *)
Definition candidate_paths : list string :=
  if PyStr.truthy AGODA_SEARCH_PATH then
    let p := if startswith AGODA_SEARCH_PATH "/" then AGODA_SEARCH_PATH
             else "/" +:+ AGODA_SEARCH_PATH in
    foldl (fun paths fb => if bool_decide (fb ∈ paths) then paths else paths ++ [fb])
      [p] ["/hotels/search"; "/search"]
  else [EmptyString].

(** Lines 408-416: the error recorded for a response that is not 200. *)
Definition error_body (text : string) : json :=
  match json_loads text with
  | Some (JObj fields) => JObj fields
  | Some (JArr items) => JArr items
  | Some v => JStr (PyStr.take 2000 (py_str v))
  | None => JStr (PyStr.take 2000 text)
  end.

Definition error_object (status : Z) (text path : string) : json :=
  JObj [("status", JInt status); ("body", error_body text); ("path", JStr path)].

(** The [for attempt in range(1, MAX_RETRIES + 1)] loop, with [k]
    attempts left: the values of [resp_json] and [resp_error] after it.
    [JNull] is Python's [None]. *)
Fixpoint attempts (k : nat) (req : Request) (path : string)
    (resp_json : json) (resp_error : option json) : M (json * option json) :=
  match k with
  | O => mret (resp_json, resp_error)
  | S k' =>
      out ← http_post req;
      match out with
      | HttpError => attempts k' req path resp_json resp_error
      | HttpResponse status text =>
          if status =? 200 then
            match json_loads text with
            | Some v => mret (v, resp_error)
            | None => attempts k' req path resp_json resp_error
            end
          else attempts k' req path resp_json (Some (error_object status text path))
      end
  end.

(** Lines 422-426: a dict with no items, or with error id 911. *)
Definition wants_fallback (resp_json : json) : bool :=
  match resp_json with
  | JObj fields =>
      let items := Display.result_items fields in
      let no_items := match len items with Some O => true | _ => false end in
      let explicit_no_result :=
        match dict_get fields "error" with
        | Some (JObj error) => eq_int (default JNull (dict_get error "id")) 911
        | _ => false
        end in
      no_items || explicit_no_result
  | _ => false
  end.

(** Lines 446-468: the minimal query. *)
Definition second_fallback (path : string) (check_in check_out : json) (city_id : Z)
    (resp_json : json) : M json :=
  if wants_fallback resp_json then
    out ← http_post (request_to path (minimal_payload check_in check_out city_id));
    match out with
    | HttpError => mret resp_json
    | HttpResponse status text =>
        if status =? 200 then mret (default resp_json (json_loads text))
        else mret resp_json
    end
  else mret resp_json.

(** Lines 427-470: the query without price filters, then the minimal
    one; an exception inside ends the block with [resp_json] as it is. *)
Definition fallbacks (path : string) (content check_in check_out : json) (city_id : Z)
    (resp_json : json) : M json :=
  if wants_fallback resp_json then
    match json_loads (json_dumps content) with
    | None => mret resp_json
    | Some copy =>
        out ← http_post (request_to path (relax copy));
        match out with
        | HttpError => mret resp_json
        | HttpResponse status text =>
            if status =? 200 then
              match json_loads text with
              | Some v => second_fallback path check_in check_out city_id v
              | None => mret resp_json
              end
            else second_fallback path check_in check_out city_id resp_json
        end
    end
  else mret resp_json.

(** The [for path in candidate_paths] loop. *)
Fixpoint try_paths (paths : list string) (content check_in check_out : json)
    (city_id : Z) (resp_json : json) (resp_error : option json)
  : M (json * option json) :=
  match paths with
  | [] => mret (resp_json, resp_error)
  | path :: rest =>
      '(resp_json1, resp_error1) ←
        attempts MAX_RETRIES (request_to path content) path resp_json resp_error;
      resp_json2 ← fallbacks path content check_in check_out city_id resp_json1;
      if is_none resp_json2
      then try_paths rest content check_in check_out city_id resp_json2 resp_error1
      else mret (resp_json2, resp_error1)
  end.

(** Lines 326-490 for a day whose city resolved: the value of
    [agoda_response]. *)
Definition search_day (min_rate max_rate adults : Z) (check_in check_out : json)
    (city_id : Z) : M (option json) :=
  '(resp_json, resp_error) ←
    try_paths candidate_paths
      (payload min_rate max_rate adults check_in check_out city_id)
      check_in check_out city_id JNull None;
  mret (if is_dict resp_json || is_list resp_json then Some resp_json
        else match resp_error with
             | Some e => Some (JObj [("agoda_error", e)])
             | None => None
             end).

(** Lines 312-322. *)
Definition check_out_of (days : list json) (i : nat) (check_in : json) : result json :=
  match days !! S i with
  | Some next => getitem next "date"
  | None =>
      Ok (match check_in with
          | JStr s =>
              match strptime s ≫= fun d => add_days d 1 with
              | Some d' => JStr (strftime d')
              | None => check_in
              end
          | _ => check_in
          end)
  end.

Definition no_city_marker (city_name : json) : json :=
  JObj [("agoda_error", JObj [("reason", JStr "no_city_id"); ("city", city_name)])].

(** Lines 491-510: what the day's dict is once the search is over. *)
Definition store_result (fields : list (string * json)) (city_id : option Z)
    (city_name : json) (agoda_response : option json) : list (string * json) :=
  let resolved := match city_id with Some c => negb (c =? 0) | None => false end in
  let fields1 :=
    if resolved then fields
    else if truthy (default JNull (dict_get fields "accommodation")) then fields
         else dict_set fields "accommodation" (no_city_marker city_name) in
  match agoda_response with
  | Some response => dict_set fields1 "accommodation" response
  | None => fields1
  end.

(** [dict(day)] for a day that is an object.  Python would also build a
    dict from a sequence of pairs; a stored day of that form is outside
    this model, which raises on it. *)
Definition as_dict (day : json) : result (list (string * json)) :=
  match day with
  | JObj fields => Ok fields
  | _ => Raise TypeError
  end.

(** [_normalize_city_name] needs a string. *)
Definition as_name (v : json) : result string :=
  match v with
  | JStr s => Ok s
  | _ => Raise AttributeError
  end.

(** One iteration of the loop over the days (lines 307-510). *)
Definition enrich_day (itinerary : json) (days : list json)
    (min_rate max_rate adults : Z) (i : nat) (day : json) : M json :=
  fields ← lift (as_dict day);
  destination ← lift (get itinerary "destination");
  let city_name := or_ (default JNull (dict_get fields "location")) destination in
  name ← lift (as_name (or_ city_name (JStr EmptyString)));
  city_id ← resolve_city name;
  let check_in := default JNull (dict_get fields "date") in
  check_out ← lift (check_out_of days i check_in);
  agoda_response ←
    match city_id with
    | Some c =>
        if c =? 0 then mret None
        else search_day min_rate max_rate adults check_in check_out c
    | None => mret None
    end;
  mret (JObj (store_result fields city_id city_name agoda_response)).

Fixpoint enrich_days (itinerary : json) (days : list json)
    (min_rate max_rate adults : Z) (i : nat) (todo : list json) : M (list json) :=
  match todo with
  | [] => mret []
  | day :: rest =>
      day' ← enrich_day itinerary days min_rate max_rate adults i day;
      rest' ← enrich_days itinerary days min_rate max_rate adults (S i) rest;
      mret (day' :: rest')
  end.

Definition no_conversation : exn :=
  ValueError "conversation_id not provided and not set in context".

Definition not_configured : exn :=
  RuntimeError "AGODA_BASE_URL or AGODA_API_KEY not configured in environment".

(** [itinerary["itinerary"] = updated_days] *)
Definition with_days (itinerary : json) (updated : list json) : result json :=
  match itinerary with
  | JObj fields => Ok (JObj (dict_set fields "itinerary" (JArr updated)))
  | _ => Raise TypeError
  end.

(** [populate_accommodations_from_agoda_tool] *)
Definition populate_accommodations_from_agoda_tool (ctx : TripPlannerContext)
    (conversation_id : option string) : M string :=
  let conv := opt_or conversation_id (Agents.conversation_id ctx) in
  conv_id ← lift (if opt_truthy conv then Ok (default EmptyString conv)
                  else Raise no_conversation);
  _ ← lift (if PyStr.truthy AGODA_BASE_URL && PyStr.truthy AGODA_API_KEY
            then Ok tt else Raise not_configured);
  itinerary_json ← read_store conv_id;
  itinerary ← lift (Display.loads_exn itinerary_json);
  let people := match number_of_people ctx with
                | Some n => if n =? 0 then 2 else n
                | None => 2
                end in
  let adults := Z.max 1 people in
  band ← lift (nightly_range (budget ctx) itinerary);
  days_value ← lift (get_default itinerary "itinerary" (JArr []));
  days ← lift (iterate days_value);
  updated ← enrich_days itinerary days (fst band) (snd band) adults 0 days;
  itinerary' ← lift (with_days itinerary updated);
  let updated_json := json_dumps_indent itinerary' in
  _ ← write_store conv_id updated_json;
  mret updated_json.

End WithLibraries.

(** No request gets a response: each one raises. *)
Definition offline `{HttpClient} : Prop := forall n req, post n req = HttpError.

(** A day that is an object with accommodation data in it. *)
Definition has_accommodation (day : json) : Prop :=
  exists f, day = JObj f /\ truthy (default JNull (dict_get f "accommodation")) = true.

(** A computation that leaves the itinerary store as it found it. *)
Definition keeps_store {A} (m : M A) : Prop :=
  forall s, store (fst (m s)) = store s.

(** A day after enrichment against the day before: both objects, equal
    on every key but [accommodation]. *)
Definition same_but_accommodation (day day' : json) : Prop :=
  exists f f',
    day = JObj f /\ day' = JObj f'
    /\ (fst <$> f = fst <$> f' \/ fst <$> f' = (fst <$> f) ++ ["accommodation"])
    /\ forall k, k <> "accommodation" -> dict_get f' k = dict_get f k.

(** The accommodation fields of a document's days, in order. *)
Definition accommodations_of (doc : json) : list json :=
  match doc with
  | JObj fields =>
      match dict_get fields "itinerary" with
      | Some (JArr days) =>
          (fun day => match day with
                      | JObj f => default JNull (dict_get f "accommodation")
                      | _ => JNull
                      end) <$> days
      | _ => []
      end
  | _ => []
  end.

End Enrichment.

(** ** Concrete libraries and runtimes for the worked examples *)

Module Demo.
Import Json Agents.

Definition float_eqb (x y : spec_float) : bool :=
  match x, y with
  | S754_zero a, S754_zero b => Bool.eqb a b
  | S754_infinity a, S754_infinity b => Bool.eqb a b
  | S754_nan, S754_nan => true
  | S754_finite a m e, S754_finite b n f => Bool.eqb a b && (m =? n)%positive && (e =? f)
  | _, _ => false
  end.

(** Structural equality of parsed values. *)
Fixpoint json_eqb (a b : json) : bool :=
  match a, b with
  | JNull, JNull => true
  | JBool x, JBool y => Bool.eqb x y
  | JInt x, JInt y => x =? y
  | JFloat x, JFloat y => float_eqb x y
  | JStr x, JStr y => String.eqb x y
  | JArr xs, JArr ys =>
      (fix go (xs ys : list json) : bool :=
         match xs, ys with
         | [], [] => true
         | x :: xs', y :: ys' => json_eqb x y && go xs' ys'
         | _, _ => false
         end) xs ys
  | JObj xs, JObj ys =>
      (fix go (xs ys : list (string * json)) : bool :=
         match xs, ys with
         | [], [] => true
         | (k, x) :: xs', (l, y) :: ys' => String.eqb k l && json_eqb x y && go xs' ys'
         | _, _ => false
         end) xs ys
  | _, _ => false
  end.

(** A JSON library given by a finite table of texts and their values:
    a text of the table parses to its value, any other text is not
    JSON; a value is written as the first text of the table that holds
    it. *)
Definition table_json (table : list (string * json)) : JsonLib :=
  {| json_loads := fun s =>
       snd <$> List.find (fun e => String.eqb (fst e) s) table;
     json_dumps := fun v =>
       default "?" (fst <$> List.find (fun e => json_eqb (snd e) v) table);
     json_dumps_indent := fun v =>
       default "?" (fst <$> List.find (fun e => json_eqb (snd e) v) table);
     py_repr := fun _ => "?" |}.

(** The library for turns whose texts are plain prose. *)
Definition no_json : JsonLib := table_json [].

(** A runtime whose every run returns [new], and whose
    [to_input_list] is the input list followed by the new items. *)
Definition reply_with (new : list RunItem) : RunResult :=
  {| new_items := new;
     to_input_list := fun input => input ++ (FromRun <$> new) |}.

Definition scripted (new : list RunItem) : Runtime :=
  {| Runner_run := fun _ _ ctx => (ctx, RunReturns (reply_with new)) |}.

(** A runtime whose every run raises. *)
Definition failing : Runtime :=
  {| Runner_run := fun _ _ ctx => (ctx, RunRaises (AgentError "model unavailable")) |}.

Definition identity_db : Storage.Database := {| Storage.jsonb_text := fun s => s |}.

(** The text of a JSON object that is no itinerary: an opening brace, a
    quoted key [a], a colon and the number 1. *)
Definition quote : string := String (ascii_of_nat 34) EmptyString.

Definition plain_object_text : string :=
  "{" +:+ quote +:+ "a" +:+ quote +:+ ": 1}".

Definition plain_object : json := JObj [("a", JInt 1)].

Definition fenced_object_text : string :=
  "Here you go: " +:+ App.fence +:+ "json " +:+ plain_object_text +:+ " "
  +:+ App.fence +:+ " done".

Definition plain_json : JsonLib := table_json [(plain_object_text, plain_object)].

(** *** A stored one-day itinerary and three search services *)

Definition paris_day : list (string * json) :=
  [("date", JStr "2025-06-01");
   ("day_number", JInt 1);
   ("location", JStr "Paris");
   ("activities", JArr [JStr "Louvre"]);
   ("transportation", JStr "Metro");
   ("accommodation", JArr [JStr "Hotel A"]);
   ("notes", JStr "")].

Definition paris_trip : list (string * json) :=
  [("destination", JStr "Paris");
   ("description", JStr "A day in Paris");
   ("start_date", JStr "2025-06-01");
   ("end_date", JStr "2025-06-01");
   ("duration_days", JInt 1);
   ("itinerary", JArr [JObj paris_day])].

(** The trip with the day's accommodation replaced. *)
Definition paris_trip_with (acc : json) : json :=
  JObj (dict_set paris_trip "itinerary"
          (JArr [JObj (dict_set paris_day "accommodation" acc)])).

Definition hotels_found : json :=
  JObj [("results", JArr [JObj [("hotelName", JStr "Hotel B"); ("dailyRate", JInt 90)]])].

Definition server_error : json :=
  JObj [("agoda_error",
         JObj [("status", JInt 500); ("body", JStr "Server Error"); ("path", JStr "")])].

(** The texts this example's JSON library knows. *)
Definition trip_json : JsonLib :=
  table_json [("trip", JObj paris_trip);
              ("hotels", hotels_found);
              ("trip with hotels", paris_trip_with hotels_found);
              ("trip with error", paris_trip_with server_error)].

Definition agoda : Enrichment.AgodaConfig :=
  {| Enrichment.AGODA_BASE_URL := "https://affiliate.example";
     Enrichment.AGODA_API_KEY := "key";
     Enrichment.AGODA_SEARCH_PATH := "" |}.

(** Every request raises. *)
Definition unreachable : Enrichment.HttpClient :=
  {| Enrichment.post := fun _ _ => Enrichment.HttpError |}.

(** Every request is answered 500. *)
Definition always_500 : Enrichment.HttpClient :=
  {| Enrichment.post := fun _ _ => Enrichment.HttpResponse 500 "Server Error" |}.

(** Every request is answered 200 with a list of hotels. *)
Definition fruitful : Enrichment.HttpClient :=
  {| Enrichment.post := fun _ _ => Enrichment.HttpResponse 200 "hotels" |}.

Definition trip_store : Storage.Store :=
  {| Storage.db_url := None;
     Storage.files := {[ Storage._file_path "c1" := "trip" ]};
     Storage.table := ∅ |}.

Definition trip_env : Enrichment.Env :=
  {| Enrichment.store := trip_store;
     Enrichment.city_cache := ∅;
     Enrichment.city_csv := CityResolver.sample_csv;
     Enrichment.requests := 0 |}.

Definition traveller : TripPlannerContext :=
  {| destination := Some "Paris"; start_date := Some "2025-06-01";
     end_date := Some "2025-06-01"; budget := Some "mid"; travel_style := None;
     number_of_people := Some 2; conversation_id := Some "c1" |}.

Definition native_then_marker : list RunItem :=
  [HandoffOutputItem itinerary_agent booking_agent;
   MessageOutputItem booking_agent "HANDOFF: summary"].

Definition marker_then_native : list RunItem :=
  [MessageOutputItem itinerary_agent "HANDOFF: summary";
   HandoffOutputItem itinerary_agent booking_agent].

(** The enrichment of the stored trip against a given service. *)
Definition enrich_trip (client : Enrichment.HttpClient)
  : Enrichment.Env * result string :=
  @Enrichment.populate_accommodations_from_agoda_tool
    trip_json identity_db agoda client traveller None trip_env.

(** A context and plans for a three-day trip across a month's end. *)
Definition three_days : TripPlannerContext :=
  {| destination := Some "Paris"; start_date := Some "2025-06-29";
     end_date := Some "2025-07-01"; budget := Some "600"; travel_style := None;
     number_of_people := Some 2; conversation_id := Some "c1" |}.

Definition three_day_plans : Itinerary.DayPlans :=
  {| Itinerary.activities_per_day := [["Louvre"]; ["Versailles"]];
     Itinerary.transportation_per_day := ["Metro"];
     Itinerary.accommodations := [["Hotel A"]];
     Itinerary.notes_per_day := [] |}.

End Demo.

(** ** Further definitions for the properties of Part II *)

Module Roster.
Import Agents.

(** The position of an agent in the pipeline of main.py. *)
Definition rank (a : Agent) : nat :=
  match a with
  | user_preferences_agent => 0
  | destination_research_agent => 1
  | itinerary_agent => 2
  | booking_agent => 3
  | summary_agent => 4
  end.

(** A chain of native handoffs: each agent is one the previous agent
    may hand off to. *)
Fixpoint native_chain (path : list Agent) : Prop :=
  match path with
  | a :: ((b :: _) as rest) => b ∈ handoffs a /\ native_chain rest
  | _ => True
  end.

(** [update_context_tool] with its seven arguments in a record. *)
Record ContextUpdate : Type := {
  new_destination : option string;
  new_start_date : option string;
  new_end_date : option string;
  new_budget : option string;
  new_travel_style : option string;
  new_number_of_people : option Z;
  new_conversation_id : option string
}.

Definition apply_update (ctx : TripPlannerContext) (u : ContextUpdate)
  : TripPlannerContext :=
  update_context_tool ctx (new_destination u) (new_start_date u) (new_end_date u)
    (new_budget u) (new_travel_style u) (new_number_of_people u)
    (new_conversation_id u).

(** The update that has the effect of [first] followed by [second]. *)
Definition then_update (first second : ContextUpdate) : ContextUpdate :=
  {| new_destination := overwrite (new_destination second) (new_destination first);
     new_start_date := overwrite (new_start_date second) (new_start_date first);
     new_end_date := overwrite (new_end_date second) (new_end_date first);
     new_budget := overwrite (new_budget second) (new_budget first);
     new_travel_style := overwrite (new_travel_style second) (new_travel_style first);
     new_number_of_people :=
       overwrite (new_number_of_people second) (new_number_of_people first);
     new_conversation_id :=
       overwrite (new_conversation_id second) (new_conversation_id first) |}.

Definition no_update : ContextUpdate :=
  {| new_destination := None; new_start_date := None; new_end_date := None;
     new_budget := None; new_travel_style := None; new_number_of_people := None;
     new_conversation_id := None |}.

End Roster.

Module Registry.
Import Agents Orchestrator.

(** [conversation_id or uuid.uuid4().hex[:16]], the key
    [_get_or_create_session] works with. *)
Definition requested_id (fresh : string) (conversation_id : option string) : string :=
  if opt_truthy conversation_id then default fresh conversation_id else fresh.

(** Every session of the registry is stored under its own id. *)
Definition well_keyed (sessions : gmap string _Session) : Prop :=
  forall k s, sessions !! k = Some s -> session_id s = k.

End Registry.

Module CityTable.
Import PyStr CityResolver.

(** What every table the loader builds satisfies: no id is 0 and every
    key is a normalized name. *)
Definition well_formed (mapping : gmap string Z) : Prop :=
  forall k v, mapping !! k = Some v -> v <> 0 /\ _normalize_city_name k = k.

End CityTable.

Module Tools.
Import Json Agents Storage.

Section WithLibraries.
Context `{JsonLib} `{Database}.

(** main.py, lines 132-140; the log lines are left out. *)
Definition _read_itinerary_json (st : Store) (conv_id : string) : result string :=
  read_itinerary_json st conv_id.

Definition _update_itinerary_json (st : Store) (conv_id updated_itinerary : string)
  : Store * result string :=
  let '(st', r) := write_itinerary_json st conv_id updated_itinerary in
  (st', _ ← r; Ok updated_itinerary).

(** [update_itinerary_json_tool] (lines 235-244): the store after the
    call and the returned text or exception. *)
Definition update_itinerary_json_tool (ctx : TripPlannerContext) (st : Store)
    (updated_itinerary : string) (conversation_id : option string)
  : Store * result string :=
  let conv_id := opt_or conversation_id (Agents.conversation_id ctx) in
  if negb (opt_truthy conv_id) then (st, Raise Enrichment.no_conversation)
  else _update_itinerary_json st (default EmptyString conv_id) updated_itinerary.

(** [read_itinerary_json_tool] (lines 246-255). *)
Definition read_itinerary_json_tool (ctx : TripPlannerContext) (st : Store)
    (conversation_id : option string) : result string :=
  let conv_id := opt_or conversation_id (Agents.conversation_id ctx) in
  if negb (opt_truthy conv_id) then Raise Enrichment.no_conversation
  else _read_itinerary_json st (default EmptyString conv_id).

End WithLibraries.
End Tools.

Module Samples.
Import Json Agents Itinerary.

(** The document [create_itinerary_json_tool] builds for the three-day
    trip of [Demo], and a JSON library that knows its text. *)
Definition three_day_doc : json :=
  match build_itinerary Demo.three_days Demo.three_day_plans "Paris in June" with
  | Ok doc => to_json doc
  | Raise _ => JNull
  end.

(** The same document as the tool's record. *)
Definition three_day_output : ItineraryOutput :=
  {| out_destination := "Paris";
     description := "Paris in June";
     out_start_date := "2025-06-29";
     out_end_date := "2025-07-01";
     duration_days := 3;
     itinerary :=
       day_at {| Dates.year := 2025; Dates.month := 6; Dates.day := 29 |}
         "Paris" Demo.three_day_plans <$> seqZ 0 3 |}.

Definition three_day_json : JsonLib :=
  Demo.table_json [("three days", three_day_doc)].

Definition empty_store : Storage.Store :=
  {| Storage.db_url := None; Storage.files := ∅; Storage.table := ∅ |}.

(** A configuration with no API key. *)
Definition no_key : Enrichment.AgodaConfig :=
  {| Enrichment.AGODA_BASE_URL := "https://affiliate.example";
     Enrichment.AGODA_API_KEY := EmptyString;
     Enrichment.AGODA_SEARCH_PATH := EmptyString |}.

(** The environment of [Demo] in a directory with no city_mapping.csv. *)
Definition no_csv_env : Enrichment.Env :=
  {| Enrichment.store := Demo.trip_store;
     Enrichment.city_cache := ∅;
     Enrichment.city_csv := None;
     Enrichment.requests := 0 |}.

End Samples.

(** ** app.py: the handler of the chat window *)

Module Ui.
Import PyStr Json Agents Display Orchestrator App.

Section WithLibraries.
Context `{JsonLib} `{Runtime}.

(** The state the loop over [response.new_items] of [respond] carries. *)
Record UiLoop : Type := {
  ui_response : string;
  ui_agent : Agent;
  ui_items : list InputItem
}.

(** One iteration of the loop of [respond] (lines 121-137). *)
Definition respond_step (conversation_id : string) (st : UiLoop) (item : RunItem)
  : UiLoop :=
  let formatted_message := format_message item in
  let shown :=
    if PyStr.truthy formatted_message
    then ui_response st +:+ (formatted_message +:+ nl)
    else ui_response st in
  match item with
  | HandoffOutputItem _ target =>
      {| ui_response := shown; ui_agent := target; ui_items := ui_items st |}
  | MessageOutputItem _ text =>
      match handoff_target text with
      | Some target =>
          {| ui_response := shown; ui_agent := target;
             ui_items := ui_items st ++ [system_entry conversation_id] |}
      | None =>
          {| ui_response := shown; ui_agent := ui_agent st; ui_items := ui_items st |}
      end
  | _ =>
      {| ui_response := shown; ui_agent := ui_agent st; ui_items := ui_items st |}
  end.

Definition respond_loop (conversation_id : string) (st : UiLoop) (new : list RunItem)
  : UiLoop := foldl (respond_step conversation_id) st new.

(** [respond] (lines 100-144): the updated history, agent, input list
    and context it returns, or the exception of the run, which nothing
    in the handler catches. *)
Definition respond (message : string) (history : list (string * string))
    (current_agent : Agent) (input_items : list InputItem)
    (context : TripPlannerContext) (conversation_id : string)
  : result (list (string * string) * Agent * list InputItem * TripPlannerContext) :=
  let context1 :=
    if opt_truthy (Agents.conversation_id context) then context
    else with_conversation_id context (Some conversation_id) in
  let items1 := input_items ++ [user_entry message] in
  let '(ctx1, outcome) := Runner_run current_agent items1 context1 in
  match outcome with
  | RunRaises e => Raise e
  | RunReturns response =>
      let st :=
        respond_loop conversation_id
          {| ui_response := EmptyString; ui_agent := current_agent; ui_items := items1 |}
          (new_items response) in
      let bot_response :=
        match strip (ui_response st) with
        | EmptyString => "Noted."
        | shown => shown
        end in
      Ok (history ++ [(message, bot_response)], ui_agent st,
          to_input_list response (ui_items st), ctx1)
  end.

End WithLibraries.

(** The texts of a list, each followed by a newline. *)
Definition lines (parts : list string) : string :=
  foldr (fun part rest => part +:+ (nl +:+ rest)) EmptyString parts.

End Ui.

(** ** Predicates on the enrichment's effects *)

Module Laws.
Import Json Storage Enrichment.

(** A computation that leaves the itinerary store as it found it
    whenever it raises. *)
Definition fails_clean {A} (m : M A) : Prop :=
  forall s e, snd (m s) = Raise e -> store (fst (m s)) = store s.

(** A computation that makes at most [n] requests. *)
Definition posts_at_most (n : nat) {A} (m : M A) : Prop :=
  forall s, (requests s <= requests (fst (m s)) <= requests s + n)%nat.

(** The state after one more request. *)
Definition bump (s : Env) : Env :=
  {| store := store s; city_cache := city_cache s; city_csv := city_csv s;
     requests := S (requests s) |}.

(** What the loop makes of a day whose city has no id: the day as
    [store_result] leaves it when nothing was searched. *)
Definition unresolved (destination day : json) : json :=
  match day with
  | JObj fields =>
      JObj (store_result fields None
              (or_ (default JNull (dict_get fields "location")) destination) None)
  | _ => day
  end.

End Laws.

(** ** db.py: the connection string *)

Module Db.
Import PyStr Agents.

(** [s.lstrip(chars)], [s.rstrip(chars)] and [s.strip(chars)], for the
    characters a test accepts. *)
Fixpoint lstrip_by (p : ascii -> bool) (s : string) : string :=
  match s with
  | EmptyString => EmptyString
  | String c s' => if p c then lstrip_by p s' else s
  end.

Fixpoint rstrip_by (p : ascii -> bool) (s : string) : string :=
  match s with
  | EmptyString => EmptyString
  | String c s' =>
      match rstrip_by p s' with
      | EmptyString => if p c then EmptyString else String c EmptyString
      | r => String c r
      end
  end.

Definition strip_by (p : ascii -> bool) (s : string) : string :=
  rstrip_by p (lstrip_by p s).

(** [c in chars] *)
Fixpoint mem (c : ascii) (chars : string) : bool :=
  match chars with
  | EmptyString => false
  | String d rest => Ascii.eqb c d || mem c rest
  end.

Definition strip_chars (chars s : string) : string :=
  strip_by (fun c => mem c chars) s.

Definition double_quote : string := String (ascii_of_nat 34) EmptyString.
Definition single_quote : string := "'".

(** The two variables of the environment, [None] when unset. *)
Record Environ : Type := {
  SUPABASE_DB_URL : option string;
  DATABASE_URL : option string
}.

(** [get_db_url] (lines 19-24). *)
Definition get_db_url (env : Environ) : option string :=
  let url := opt_or (SUPABASE_DB_URL env) (DATABASE_URL env) in
  if opt_truthy url
  then (fun u => strip_chars single_quote (strip_chars double_quote (strip u))) <$> url
  else url.

(** The store of storage.py in an environment: [use_db] asks
    [get_db_url]. *)
Definition store_in (env : Environ) (files table : gmap string string)
  : Storage.Store :=
  {| Storage.db_url := get_db_url env; Storage.files := files; Storage.table := table |}.

(** Text made of characters a test accepts. *)
Fixpoint all_by (p : ascii -> bool) (s : string) : bool :=
  match s with
  | EmptyString => true
  | String c s' => p c && all_by p s'
  end.

Fixpoint last_char (c : ascii) (s : string) : ascii :=
  match s with
  | EmptyString => c
  | String d s' => last_char d s'
  end.

(** Non-empty text whose first and last characters a test rejects. *)
Definition edges_avoid (p : ascii -> bool) (s : string) : bool :=
  match s with
  | EmptyString => false
  | String c s' => negb (p c) && negb (p (last_char c s'))
  end.

Definition quote_or_space (c : ascii) : bool :=
  isspace c || mem c double_quote || mem c single_quote.

End Db.
(** * Part II: properties *)

Lemma bind_ok {A B} (a : A) (k : A -> result B) : (Ok a ≫= k) = k a.
Proof. reflexivity. Qed.

(** ** String facts *)

Section StringFacts.
Import PyStr.

Lemma app_cons c a b : String c a +:+ b = String c (a +:+ b).
Proof. reflexivity. Qed.

Lemma app_empty b : EmptyString +:+ b = b.
Proof. reflexivity. Qed.

Lemma isspace_lower_char c : isspace (lower_char c) = isspace c.
Proof.
  unfold lower_char. destruct (is_upper c) eqn:E; [|reflexivity].
  unfold is_upper in E. apply andb_true_iff in E as [E1 E2].
  apply Nat.leb_le in E1. apply Nat.leb_le in E2.
  unfold isspace, code in *.
  rewrite nat_ascii_embedding by lia.
  repeat match goal with
         | |- context [(?a <=? ?b)%nat] =>
             destruct (Nat.leb_spec a b); try lia
         end; reflexivity.
Qed.

Lemma lower_char_idem c : lower_char (lower_char c) = lower_char c.
Proof.
  unfold lower_char at 2. destruct (is_upper c) eqn:E.
  - unfold is_upper in E. apply andb_true_iff in E as [E1 E2].
    apply Nat.leb_le in E1. apply Nat.leb_le in E2.
    unfold lower_char, is_upper, code in *.
    rewrite nat_ascii_embedding by lia.
    repeat match goal with
           | |- context [(?a <=? ?b)%nat] =>
               destruct (Nat.leb_spec a b); try lia
           end; reflexivity.
  - unfold lower_char. rewrite E. reflexivity.
Qed.

Lemma lower_upper_char c : lower_char (upper_char c) = lower_char c.
Proof.
  unfold upper_char. destruct (is_lower c) eqn:E; [|reflexivity].
  unfold is_lower in E. apply andb_true_iff in E as [E1 E2].
  apply Nat.leb_le in E1. apply Nat.leb_le in E2.
  unfold lower_char, is_upper, code in *.
  rewrite nat_ascii_embedding by lia.
  repeat match goal with
         | |- context [(?a <=? ?b)%nat] =>
             destruct (Nat.leb_spec a b); try lia
         end.
  replace (nat_of_ascii c - 32 + 32)%nat with (nat_of_ascii c) by lia.
  apply ascii_nat_embedding.
Qed.

Lemma lower_idem s : lower (lower s) = lower s.
Proof.
  unfold lower. induction s as [|c s IH]; [reflexivity|].
  cbn. rewrite lower_char_idem. f_equal. exact IH.
Qed.

Lemma lower_upper s : lower (upper s) = lower s.
Proof.
  unfold lower, upper. induction s as [|c s IH]; [reflexivity|].
  cbn. rewrite lower_upper_char. f_equal. exact IH.
Qed.

Lemma lower_app a b : lower (a +:+ b) = lower a +:+ lower b.
Proof.
  unfold lower. induction a as [|c a IH]; [reflexivity|].
  rewrite app_cons. cbn. rewrite app_cons. f_equal. exact IH.
Qed.

Lemma lstrip_lower s : lstrip (lower s) = lower (lstrip s).
Proof.
  unfold lower. induction s as [|c s IH]; [reflexivity|].
  cbn. rewrite isspace_lower_char.
  destruct (isspace c); [exact IH | reflexivity].
Qed.

Lemma rstrip_lower s : rstrip (lower s) = lower (rstrip s).
Proof.
  unfold lower. induction s as [|c s IH]; [reflexivity|].
  cbn. rewrite IH, isspace_lower_char.
  destruct (rstrip s); cbn; [destruct (isspace c)|]; reflexivity.
Qed.

Lemma strip_lower s : strip (lower s) = lower (strip s).
Proof. unfold strip. rewrite lstrip_lower. apply rstrip_lower. Qed.

Lemma lstrip_pad pad s : all_space pad = true -> lstrip (pad +:+ s) = lstrip s.
Proof.
  induction pad as [|c pad IH]; [reflexivity|].
  rewrite app_cons. cbn. intros H. apply andb_true_iff in H as [Hc Hp].
  rewrite Hc. auto.
Qed.

Lemma rstrip_all_space pad : all_space pad = true -> rstrip pad = EmptyString.
Proof.
  induction pad as [|c pad IH]; [reflexivity|].
  cbn. intros H. apply andb_true_iff in H as [Hc Hp].
  rewrite (IH Hp), Hc. reflexivity.
Qed.

Lemma rstrip_pad pad s : all_space pad = true -> rstrip (s +:+ pad) = rstrip s.
Proof.
  intros H. induction s as [|c s IH].
  - rewrite app_empty. rewrite (rstrip_all_space _ H). reflexivity.
  - rewrite app_cons. cbn. rewrite IH. reflexivity.
Qed.

Lemma lstrip_app_nonspace s t :
  lstrip s <> EmptyString -> lstrip (s +:+ t) = lstrip s +:+ t.
Proof.
  induction s as [|c s IH]; [intros H; contradiction H; reflexivity|].
  rewrite app_cons. cbn. destruct (isspace c); [exact IH | reflexivity].
Qed.

Lemma lstrip_all_space s : lstrip s = EmptyString -> all_space s = true.
Proof.
  induction s as [|c s IH]; [reflexivity|].
  cbn. destruct (isspace c); [exact IH | discriminate].
Qed.

(** Padding with white space on both sides is invisible to [strip]. *)
Lemma strip_pad pre post s :
  all_space pre = true -> all_space post = true ->
  strip (pre +:+ s +:+ post) = strip s.
Proof.
  intros Hpre Hpost. unfold strip. rewrite (lstrip_pad _ _ Hpre).
  destruct (lstrip s) eqn:E.
  - pose proof (lstrip_all_space _ E) as Hs.
    assert (Hall : all_space (s +:+ post) = true).
    { clear E. induction s as [|c s IH]; [exact Hpost|].
      rewrite app_cons. cbn in *. apply andb_true_iff in Hs as [Hc Hs].
      rewrite Hc. cbn. auto. }
    rewrite (rstrip_all_space (lstrip (s +:+ post))); [reflexivity|].
    clear - Hall. induction (s +:+ post) as [|c u IH]; [reflexivity|].
    cbn in *. apply andb_true_iff in Hall as [Hc Hu]. rewrite Hc. auto.
  - rewrite lstrip_app_nonspace by (rewrite E; discriminate).
    rewrite E. apply rstrip_pad, Hpost.
Qed.

Lemma rstrip_idem s : rstrip (rstrip s) = rstrip s.
Proof.
  induction s as [|c s IH]; [reflexivity|].
  cbn. destruct (rstrip s) as [|d r] eqn:E.
  - destruct (isspace c) eqn:Hc; [reflexivity|]. cbn. rewrite Hc. reflexivity.
  - cbn -[rstrip]. change (rstrip (String c (String d r))) with
      (match rstrip (String d r) with
       | EmptyString => if isspace c then EmptyString else String c EmptyString
       | String a r' => String c (String a r')
       end).
    rewrite IH. reflexivity.
Qed.

Lemma rstrip_keeps_head c s :
  isspace c = false -> exists r, rstrip (String c s) = String c r.
Proof.
  intros Hc. cbn. destruct (rstrip s); rewrite ?Hc; eauto.
Qed.

Lemma lstrip_head s : lstrip s = EmptyString \/ exists c r, lstrip s = String c r /\ isspace c = false.
Proof.
  induction s as [|c s IH]; [left; reflexivity|].
  cbn. destruct (isspace c) eqn:Hc; [exact IH|]. right. eauto.
Qed.

Lemma strip_idem s : strip (strip s) = strip s.
Proof.
  unfold strip. destruct (lstrip_head s) as [E | (c & r & E & Hc)]; rewrite E.
  - reflexivity.
  - destruct (rstrip_keeps_head c r Hc) as [r' Hr]. rewrite Hr.
    cbn [lstrip]. rewrite Hc. rewrite <- Hr. apply rstrip_idem.
Qed.

(** The normal form [lower (strip s)] is a fixed point of both steps. *)
Lemma lower_strip_idem s : lower (strip (lower (strip s))) = lower (strip s).
Proof. rewrite strip_lower, strip_idem. apply lower_idem. Qed.

End StringFacts.

(** ** City resolver *)

Section CityFacts.
Import PyStr CityResolver.

Lemma normalize_variant name v pre post :
  all_space pre = true -> all_space post = true ->
  lower v = lower name ->
  _normalize_city_name (pre +:+ v +:+ post) = _normalize_city_name name.
Proof.
  intros Hpre Hpost Hcase. unfold _normalize_city_name, casefold.
  rewrite (strip_pad _ _ _ Hpre Hpost).
  rewrite <- !strip_lower. rewrite Hcase. reflexivity.
Qed.

Lemma map_city_to_id_lookup cache csv name :
  snd (map_city_to_id cache csv name)
  = mapping_of cache csv !! _normalize_city_name name.
Proof.
  unfold map_city_to_id, mapping_of.
  destruct (load_city_mapping cache csv); reflexivity.
Qed.

Lemma map_city_to_id_cache cache csv name :
  fst (map_city_to_id cache csv name) = fst (load_city_mapping cache csv).
Proof.
  unfold map_city_to_id.
  destruct (load_city_mapping cache csv); reflexivity.
Qed.

(** Once loaded and non-empty, the cache is what every later call
    consults, whatever the file holds by then. *)
Lemma load_city_mapping_cached cache csv :
  cache <> ∅ -> load_city_mapping cache csv = (cache, cache).
Proof.
  intros H. unfold load_city_mapping.
  rewrite bool_decide_eq_false_2 by exact H. reflexivity.
Qed.


Example resolve_paris :
  snd (map_city_to_id ∅ sample_csv "Paris") = Some 9395
  /\ snd (map_city_to_id ∅ sample_csv " paris ") = Some 9395
  /\ snd (map_city_to_id ∅ sample_csv "NEW YORK") = Some 4064
  /\ snd (map_city_to_id ∅ sample_csv "Nowhere") = None
  /\ snd (map_city_to_id ∅ sample_csv "") = None
  /\ snd (map_city_to_id ∅ None "Paris") = None.
Proof. vm_compute. repeat split; reflexivity. Qed.


End CityFacts.

(** ** Dates and numbers: sanity checks *)

Example float_literals :
  PyNum.float_of_string " 600 " = Some (S754_finite false 5277655813324800 (-43))
  /\ PyNum.float_of_string "1_0.5E1" = PyNum.float_of_string "105"
  /\ PyNum.float_of_string ".25" = Some (S754_finite false 4503599627370496 (-54))
  /\ PyNum.float_of_string "0.1" = Some (S754_finite false 7205759403792794 (-56))
  /\ PyNum.float_of_string "-Infinity" = Some (S754_infinity true)
  /\ PyNum.float_of_string "1e400" = Some (S754_infinity false)
  /\ PyNum.float_of_string "1e-400" = Some (S754_zero false)
  /\ PyNum.float_of_string "NaN" = Some S754_nan
  /\ PyNum.float_of_string "budget" = None
  /\ PyNum.float_of_string "1,000" = None
  /\ PyNum.float_of_string "" = None
  /\ (PyNum.float_of_string "600.9" ≫= fun x =>
        match PyNum.int_of_float x with Ok n => Some n | Raise _ => None end) = Some 600
  /\ PyNum.string_of_Z 2024 = "2024"
  /\ PyNum.string_of_Z (-70) = "-70"
  /\ PyNum.string_of_Z 0 = "0".
Proof. vm_compute. repeat split; reflexivity. Qed.

Example date_arithmetic :
  Dates.strptime "2024-02-28" = Some {| Dates.year := 2024; Dates.month := 2; Dates.day := 28 |}
  /\ (Dates.strftime <$> (Dates.strptime "2024-02-28" ≫= fun d => Dates.add_days d 2)) = Some "2024-03-01"
  /\ (Dates.strftime <$> (Dates.strptime "2023-12-31" ≫= fun d => Dates.add_days d 1)) = Some "2024-01-01"
  /\ (Dates.strftime <$> (Dates.strptime "2024-1-5" ≫= fun d => Dates.add_days d 0)) = Some "2024-01-05"
  /\ Dates.strptime "2023-02-29" = None
  /\ Dates.strptime "2024-13-01" = None
  /\ Dates.strptime "2024-01-32" = None
  /\ (Dates.strptime "9999-12-31" ≫= fun d => Dates.add_days d 1) = None
  /\ (Dates.toordinal <$> Dates.strptime "9999-12-31") = Some Dates.max_ordinal
  /\ (Dates.toordinal <$> Dates.strptime "0001-01-01") = Some 1.
Proof. vm_compute. repeat split; reflexivity. Qed.

(** ** Itinerary store *)

Section StorageFacts.
Import Json Storage.
Context `{JsonLib} `{Database}.

Lemma length_app (a b : string) :
  String.length (a +:+ b) = (String.length a + String.length b)%nat.
Proof.
  induction a as [|c a IH]; [reflexivity|].
  rewrite app_cons. cbn. rewrite IH. reflexivity.
Qed.

Lemma append_inj_l (p a b : string) : p +:+ a = p +:+ b -> a = b.
Proof.
  induction p as [|c p IH]; [auto|].
  rewrite !app_cons. intros E. injection E as E. auto.
Qed.

Lemma append_inj_r (a b s : string) : a +:+ s = b +:+ s -> a = b.
Proof.
  intros E.
  assert (Hlen : String.length a = String.length b).
  { apply (f_equal String.length) in E. rewrite !length_app in E. lia. }
  revert b E Hlen. induction a as [|c a IH]; intros [|c' b] E Hlen;
    try discriminate; [reflexivity|].
  rewrite !app_cons in E. injection E as -> E.
  f_equal. apply IH; [exact E | simpl in Hlen; lia].
Qed.

Lemma _file_path_inj a b : _file_path a = _file_path b -> a = b.
Proof.
  unfold _file_path. intros E.
  do 3 apply append_inj_l in E. apply append_inj_r in E. exact E.
Qed.

Lemma read_document_of st cid :
  read_itinerary_json st cid
  = match document_of st cid with
    | Some text => Ok text
    | None => Raise (not_found cid)
    end.
Proof.
  unfold read_itinerary_json, document_of.
  destruct (use_db st); [destruct (table st !! cid) | destruct (files st !! _file_path cid)];
    reflexivity.
Qed.

Lemma write_rejects st cid text :
  json_loads text = None ->
  write_itinerary_json st cid text = (st, Raise JSONDecodeError).
Proof. intros E. unfold write_itinerary_json. rewrite E. reflexivity. Qed.

Lemma write_accepts st cid text :
  is_Some (json_loads text) ->
  let st' := fst (write_itinerary_json st cid text) in
  snd (write_itinerary_json st cid text) = Ok text
  /\ use_db st' = use_db st
  /\ document_of st' cid = Some (persisted st text)
  /\ forall cid', cid' <> cid -> document_of st' cid' = document_of st cid'.
Proof.
  intros [j E]. unfold write_itinerary_json, document_of, persisted, use_db.
  rewrite E. destruct (db_url st) as [url|] eqn:U; [destruct (PyStr.truthy url) eqn:T|];
    cbn; rewrite ?U, ?T; cbn.
  - repeat split; [apply lookup_insert_eq|].
    intros cid' Hne. apply lookup_insert_ne. congruence.
  - repeat split; [apply lookup_insert_eq|].
    intros cid' Hne. apply lookup_insert_ne.
    intros E'. apply _file_path_inj in E'. congruence.
  - repeat split; [apply lookup_insert_eq|].
    intros cid' Hne. apply lookup_insert_ne.
    intros E'. apply _file_path_inj in E'. congruence.
Qed.

Lemma write_ok_inv st cid text st' r :
  write_itinerary_json st cid text = (st', Ok r) ->
  r = text /\ is_Some (json_loads text).
Proof.
  unfold write_itinerary_json. destruct (json_loads text) eqn:E; [|discriminate].
  destruct (use_db st); intros W; injection W as _ <-; eauto.
Qed.


End StorageFacts.

Section StorageExamples.
Import Json Storage.


End StorageExamples.

(** ** Nightly price band *)

Section BudgetFacts.
Import PyStr PyNum Json Budget.

Example band_examples :
  infer_rate_range (Some "Luxury ") = (200, 800)
  /\ infer_rate_range (Some "150") = (75, 187)
  /\ infer_rate_range (Some "150.9") = (75, 187)
  /\ infer_rate_range (Some "10") = (20, 40)
  /\ infer_rate_range (Some "$600") = (20, 500)
  /\ infer_rate_range (Some "inf") = (20, 500)
  /\ nightly_range (Some "600") (doc_with_days 3) = Ok (100, 300)
  /\ nightly_range (Some "1000") (doc_with_days 3) = Ok (166, 500)
  /\ nightly_range (Some "600") (doc_with_days 0) = Ok (300, 900)
  /\ nightly_range (Some "nan") (doc_with_days 3) = Ok (20, 500)
  /\ nightly_range (Some "inf") (doc_with_days 3) = Raise OverflowError.
Proof. vm_compute. repeat split; reflexivity. Qed.

Lemma float_of_string_normal s :
  float_of_string (lower (strip s)) = float_of_string s.
Proof. unfold float_of_string. rewrite lower_strip_idem. reflexivity. Qed.

Lemma float_of_string_truthy s x : float_of_string s = Some x -> PyStr.truthy s = true.
Proof. destruct s; [discriminate | reflexivity]. Qed.

(** A label of [infer_rate_range] does not read as a number. *)
Lemma label_not_numeric b :
  b ∈ low_labels ∪ mid_labels ∪ high_labels -> read_float b = None.
Proof.
  unfold low_labels, mid_labels, high_labels. intros Hb.
  repeat (apply elem_of_union in Hb as [Hb | Hb]);
    repeat (apply elem_of_union in Hb as [Hb | Hb]);
    apply elem_of_singleton in Hb; subst b; reflexivity.
Qed.

Lemma numeric_not_label s x :
  float_of_string s = Some x ->
  (lower (strip s) ∉ low_labels)
  /\ (lower (strip s) ∉ mid_labels)
  /\ (lower (strip s) ∉ high_labels).
Proof.
  intros Hx. unfold float_of_string in Hx.
  assert (Hn : lower (strip s) ∉ low_labels ∪ mid_labels ∪ high_labels).
  { intros Hin. apply label_not_numeric in Hin. congruence. }
  set_solver.
Qed.

(** On text that reads as a float, [infer_rate_range] is its numeric
    branch. *)
Lemma infer_rate_range_numeric s x :
  float_of_string s = Some x ->
  infer_rate_range (Some s)
  = match numeric_band (lower (strip s)) with
    | Ok band => band
    | Raise _ => (20, 500)
    end.
Proof.
  intros Hx. unfold infer_rate_range.
  rewrite (float_of_string_truthy s x Hx). cbn [negb].
  destruct (numeric_not_label s x Hx) as (Hl & Hm & Hh).
  rewrite !bool_decide_eq_false_2 by assumption. reflexivity.
Qed.

Lemma infer_rate_range_unparseable s :
  float_of_string s = None ->
  lower (strip s) ∉ low_labels ∪ mid_labels ∪ high_labels ->
  infer_rate_range (Some s) = (20, 500).
Proof.
  intros Hx Hn. unfold infer_rate_range.
  destruct (PyStr.truthy s); [|reflexivity]. cbn [negb].
  rewrite !bool_decide_eq_false_2 by set_solver.
  unfold numeric_band, float_exn. rewrite float_of_string_normal, Hx. reflexivity.
Qed.

(** Unless the budget reads as a number above 500, the band is that of
    [infer_rate_range] and the itinerary is not looked at. *)
Lemma nightly_range_plain budget doc :
  match budget ≫= float_of_string with
  | Some x => float_truthy x && float_gt x f500 = false
  | None => True
  end ->
  nightly_range budget doc = Ok (infer_rate_range budget).
Proof.
  unfold nightly_range. destruct (infer_rate_range budget) as [lo hi].
  destruct budget as [s|]; cbn; [|reflexivity].
  destruct (float_of_string s) as [x|]; [|reflexivity].
  intros ->. reflexivity.
Qed.

Lemma small_budgets_checked : forallb small_budget_ok (seqZ 0 501) = true.
Proof. vm_compute. reflexivity. Qed.

(** A whole number of at most 500, written in decimal, is banded from
    half of it to one and a quarter of it, not below 20 and 40. *)
Lemma nightly_range_small v doc :
  0 <= v <= 500 ->
  nightly_range (Some (string_of_Z v)) doc
  = Ok (Z.max 20 (v / 2), Z.max 40 (5 * v / 4)).
Proof.
  intros Hv.
  assert (Hin : In v (seqZ 0 501)).
  { apply list_elem_of_In, elem_of_seqZ. lia. }
  pose proof (proj1 (forallb_forall _ _) small_budgets_checked v Hin) as Hok.
  unfold small_budget_ok in Hok.
  destruct (float_of_string (string_of_Z v)) as [x|] eqn:Hx; [|discriminate].
  apply andb_true_iff in Hok as [Hsmall Hband].
  apply bool_decide_eq_true in Hband. apply negb_true_iff in Hsmall.
  rewrite nightly_range_plain; [rewrite Hband; reflexivity|].
  cbn. rewrite Hx. exact Hsmall.
Qed.

(** When the budget reads as a number above 500, the band is the one
    around the nightly average. *)
Lemma nightly_range_total s x doc days n :
  float_of_string s = Some x ->
  float_truthy x && float_gt x f500 = true ->
  get_default doc "itinerary" (JArr []) = Ok days ->
  len_exn days = Ok n ->
  nightly_range (Some s) doc = band_around x n.
Proof.
  intros Hx Hbig Hdays Hn. unfold nightly_range.
  destruct (infer_rate_range (Some s)) as [lo hi].
  rewrite Hx, Hbig, Hdays. cbn. rewrite Hn. reflexivity.
Qed.

Lemma total_budgets_checked : forallb total_budget_ok (seqZ 501 500) = true.
Proof. vm_compute. reflexivity. Qed.

(** A whole number between 501 and 1000, written in decimal, is a total
    budget: for an itinerary of up to 31 days the band is the one of
    exact integer arithmetic around total / days. *)
Lemma nightly_range_total_exact v n doc days :
  500 < v <= 1000 -> 0 <= n <= 31 ->
  get_default doc "itinerary" (JArr []) = Ok days ->
  len_exn days = Ok n ->
  nightly_range (Some (string_of_Z v)) doc = Ok (exact_band_around v n).
Proof.
  intros Hv Hn Hdays Hlen.
  assert (Hin : In v (seqZ 501 500)).
  { apply list_elem_of_In, elem_of_seqZ. lia. }
  pose proof (proj1 (forallb_forall _ _) total_budgets_checked v Hin) as Hok.
  unfold total_budget_ok in Hok.
  destruct (float_of_string (string_of_Z v)) as [x|] eqn:Hx; [|discriminate].
  apply andb_true_iff in Hok as [Hbig Hall].
  rewrite (nightly_range_total _ x doc days n Hx Hbig Hdays Hlen).
  assert (Hin' : In n (seqZ 0 32)).
  { apply list_elem_of_In, elem_of_seqZ. lia. }
  pose proof (proj1 (forallb_forall _ _) Hall n Hin') as Hband.
  cbn beta in Hband. destruct (band_around x n) as [band|]; [|discriminate].
  apply bool_decide_eq_true in Hband. rewrite Hband. reflexivity.
Qed.



End BudgetFacts.

(** ** Handoff: the text protocol and the native event *)

Section HandoffFacts.
Import PyStr Json Agents Display Orchestrator.
Context `{JsonLib} `{Runtime}.

Example handoff_targets :
  handoff_target "HANDOFF: booking" = Some booking_agent
  /\ handoff_target "  handoff:  Summary " = Some summary_agent
  /\ handoff_target "HANDOFF:itinerary" = Some itinerary_agent
  /\ handoff_target "HANDOFF: unknown_key" = None
  /\ handoff_target "HANDOFF booking" = None
  /\ handoff_target "Please HANDOFF: booking" = None
  /\ handoff_target "" = None.
Proof. vm_compute. repeat split; reflexivity. Qed.

Lemma upper_char_colon c : upper_char c = ":"%char -> c = ":"%char.
Proof.
  unfold upper_char. destruct (is_lower c) eqn:E; [|auto].
  unfold is_lower in E. apply andb_true_iff in E as [E1 E2].
  apply Nat.leb_le in E1. apply Nat.leb_le in E2. unfold code in *.
  intros Hc. apply (f_equal nat_of_ascii) in Hc.
  rewrite nat_ascii_embedding in Hc by lia.
  change (nat_of_ascii ":") with 58%nat in Hc. exfalso. lia.
Qed.

Lemma upper_char_letter c (l : ascii) :
  upper_char c = l -> is_upper l = true -> c <> ":"%char.
Proof. intros <- Hl ->. discriminate Hl. Qed.

Lemma startswith_cons s a p :
  startswith s (String a p) = true ->
  exists s', s = String a s' /\ startswith s' p = true.
Proof.
  destruct s as [|b s]; [discriminate|]. cbn.
  destruct (Ascii.eqb_spec a b) as [->|]; [eauto | discriminate].
Qed.

Lemma map_chars_cons f s a t :
  map_chars f s = String a t ->
  exists c s0, s = String c s0 /\ f c = a /\ map_chars f s0 = t.
Proof.
  destruct s as [|c s0]; [discriminate|]. cbn. intros E.
  injection E as E1 E2. eauto.
Qed.

(** Whenever the marker matches, [split(":", 1)] has its second part:
    the index [1] of the source is in range. *)
Lemma marker_split (s : string) :
  startswith (upper s) "HANDOFF:" = true ->
  exists head rest, split_once ":" s = [head; rest].
Proof.
  unfold upper. intros Hs.
  do 8 (apply startswith_cons in Hs as (? & E & Hs);
        apply map_chars_cons in E as (? & ? & -> & ? & <-)).
  repeat match goal with
         | E : upper_char ?c = ":"%char |- _ => apply upper_char_colon in E; subst c
         | E : upper_char ?c = _ |- _ =>
             apply upper_char_letter in E; [|reflexivity]
         end.
  cbn [split_once].
  repeat match goal with
         | E : ?c <> ":"%char |- context [Ascii.eqb ?c ":"] =>
             destruct (Ascii.eqb_spec c ":"); [contradiction|]; clear E
         end.
  cbn. eauto.
Qed.

Lemma handoff_target_truthy text a :
  handoff_target text = Some a -> PyStr.truthy text = true.
Proof. destruct text; [discriminate | reflexivity]. Qed.

(** *** The loop of [chat] *)

Lemma chat_step_agent cid st item :
  new_current_agent (chat_step cid st item)
  = default (new_current_agent st) (signal item).
Proof.
  destruct item; cbn; try reflexivity.
  destruct (handoff_target text); reflexivity.
Qed.

Lemma chat_step_items cid st item :
  loop_items (chat_step cid st item)
  = loop_items st ++ (if is_marker item then [system_entry cid] else []).
Proof.
  destruct item; cbn; rewrite ?app_nil_r; try reflexivity.
  destruct (handoff_target text) eqn:E.
  - rewrite bool_decide_eq_true_2 by eauto. reflexivity.
  - rewrite bool_decide_eq_false_2 by (intros [? ?]; discriminate).
    rewrite app_nil_r. reflexivity.
Qed.

Lemma last_cons_default {A} (x a : A) (l : list A) :
  default x (last (a :: l)) = default a (last l).
Proof. rewrite last_cons. destruct (last l); reflexivity. Qed.

Lemma omap_signal_cons item rest :
  omap signal (item :: rest)
  = match signal item with
    | Some a => a :: omap signal rest
    | None => omap signal rest
    end.
Proof. reflexivity. Qed.

(** After the loop the pointer is the one the last signal asked for. *)
Lemma chat_loop_agent cid new : forall st,
  new_current_agent (chat_loop cid st new)
  = default (new_current_agent st) (last (omap signal new)).
Proof.
  unfold chat_loop. induction new as [|item rest IH]; intros st; [reflexivity|].
  cbn [foldl]. rewrite IH, chat_step_agent, omap_signal_cons.
  destruct (signal item) as [a|]; cbn [default]; [|reflexivity].
  rewrite last_cons_default. reflexivity.
Qed.

(** The loop appends one system entry per recognised marker. *)
Lemma chat_loop_items cid new : forall st,
  loop_items (chat_loop cid st new)
  = loop_items st ++ ((fun _ => system_entry cid) <$> filter (fun i => is_marker i = true) new).
Proof.
  unfold chat_loop. induction new as [|item rest IH]; intros st.
  - cbn. rewrite app_nil_r. reflexivity.
  - cbn [foldl]. rewrite IH, chat_step_items, filter_cons.
    destruct (is_marker item); cbn.
    + rewrite <- app_assoc. reflexivity.
    + rewrite app_nil_r. reflexivity.
Qed.

Lemma chat_turn_returns session msg ctx1 response :
  chat_run session msg = (ctx1, RunReturns response) ->
  let st := chat_loop (session_id session)
              {| bot_response := []; new_current_agent := current_agent session;
                 loop_items := items session ++ [user_entry msg] |}
              (new_items response) in
  current_agent (fst (chat_turn session msg)) = new_current_agent st
  /\ items (fst (chat_turn session msg)) = to_input_list response (loop_items st)
  /\ context (fst (chat_turn session msg)) = ctx1
  /\ exists r, snd (chat_turn session msg) = Ok r
       /\ response_agent r = name (new_current_agent st).
Proof.
  intros Hrun. unfold chat_turn. rewrite Hrun. cbn. eauto 10.
Qed.

Lemma chat_turn_agent session msg ctx1 response :
  chat_run session msg = (ctx1, RunReturns response) ->
  current_agent (fst (chat_turn session msg))
  = default (current_agent session) (last (omap signal (new_items response))).
Proof.
  intros Hrun. destruct (chat_turn_returns _ _ _ _ Hrun) as (-> & _).
  rewrite chat_loop_agent. reflexivity.
Qed.

Lemma omap_signal_app (a b : list RunItem) :
  omap signal (a ++ b) = omap signal a ++ omap signal b.
Proof. apply omap_app. Qed.

Lemma last_app_cons {A} (l1 l2 : list A) (x : A) :
  last (l1 ++ x :: l2) = last (x :: l2).
Proof.
  induction l1 as [|a l1 IH]; [reflexivity|].
  cbn [app]. rewrite last_cons, IH. rewrite (last_cons x l2).
  destruct (last l2); reflexivity.
Qed.

Lemma no_signal_omap (l : list RunItem) :
  Forall (fun i => signal i = None) l -> omap signal l = [].
Proof.
  induction 1 as [|i l Hi _ IH]; [reflexivity|].
  rewrite omap_signal_cons, Hi. exact IH.
Qed.

Lemma no_signal_no_marker (l : list RunItem) :
  Forall (fun i => signal i = None) l -> Forall (fun i => is_marker i = false) l.
Proof.
  intros HF. eapply Forall_impl; [exact HF|].
  intros [] Hs; cbn in *; try reflexivity.
  rewrite Hs. apply bool_decide_eq_false_2. intros [? ?]; discriminate.
Qed.

Lemma no_marker_filter (l : list RunItem) :
  Forall (fun i => is_marker i = false) l ->
  filter (fun i => is_marker i = true) l = [].
Proof.
  induction 1 as [|i l Hi _ IH]; [reflexivity|].
  rewrite filter_cons, Hi. destruct (decide (false = true)); [discriminate|]. exact IH.
Qed.

Lemma marker_is_marker a text k :
  handoff_target text = Some k -> is_marker (MessageOutputItem a text) = true.
Proof. intros E. cbn. rewrite E. apply bool_decide_eq_true_2. eauto. Qed.

(** The pointer when a signal is last among the signals of a list. *)
Lemma last_signal_of pre item post k :
  signal item = Some k ->
  Forall (fun i => signal i = None) post ->
  last (omap signal (pre ++ item :: post)) = Some k.
Proof.
  intros Hk Hpost. rewrite omap_signal_app, omap_signal_cons, Hk.
  rewrite (no_signal_omap post Hpost). rewrite last_app_cons. reflexivity.
Qed.

(** *** The loop of [main] *)

(** Items before the first recognised marker are processed in turn. *)
Lemma main_loop_app cid pre : forall st rest,
  Forall (fun i => is_marker i = false) pre ->
  main_loop cid st (pre ++ rest)
  = (st1 ← main_loop cid st pre; main_loop cid st1 rest).
Proof.
  induction pre as [|item pre IH]; intros st rest Hpre; [reflexivity|].
  apply Forall_cons in Hpre as [Hi Hpre].
  cbn [app main_loop]. destruct item; try (apply IH; exact Hpre).
  - destruct (PyStr.truthy text); [|apply IH; exact Hpre].
    cbn in Hi. destruct (handoff_target text) eqn:E.
    + apply bool_decide_eq_false in Hi. contradiction Hi. eauto.
    + destruct (json_loads text); [|apply IH; exact Hpre].
      destruct (format_itinerary_for_display text); cbn; [apply IH; exact Hpre | reflexivity].
  - destruct (json_loads output); [|apply IH; exact Hpre].
    destruct (format_itinerary_for_display output); cbn; [apply IH; exact Hpre | reflexivity].
Qed.

(** A recognised marker ends the loop: what follows it is not read. *)
Lemma main_loop_marker cid st a text k post :
  handoff_target text = Some k ->
  main_loop cid st (MessageOutputItem a text :: post)
  = Ok (hand_to st cid k (nl +:+ ">>> HANDOFF (custom) to " +:+ name k +:+ nl)).
Proof.
  intros E. cbn [main_loop]. rewrite (handoff_target_truthy _ _ E), E. reflexivity.
Qed.

Lemma main_turn_returns cid st msg ctx1 response st3 :
  main_run st msg = (ctx1, RunReturns response) ->
  main_loop cid
    {| main_agent := main_agent st;
       input_items := input_items st ++ [user_entry msg];
       main_context := ctx1;
       printed := printed st
                  ++ [nl +:+ ">>> Currently active agent: " +:+ name (main_agent st) +:+ nl] |}
    (new_items response) = Ok st3 ->
  main_turn cid st msg
  = Ok {| main_agent := main_agent st3;
          input_items := to_input_list response (input_items st3);
          main_context := main_context st3;
          printed := printed st3 |}.
Proof.
  intros Hrun Hloop. unfold main_turn. rewrite Hrun. cbn. rewrite Hloop. reflexivity.
Qed.

(** C1, as the code has it. When a turn's items hold both a native
    handoff event and a recognised marker, [chat] leaves the pointer at
    the target of whichever signal stands last in the list: the native
    target when the event follows the marker, the marker's stage when
    the marker follows the event.  In [main] the first recognised marker
    ends the processing of the turn, so the marker's stage is the
    pointer whatever native events stand before or after it. *)
Theorem handoff_last_signal_wins :
  (forall session msg ctx1 response,
     chat_run session msg = (ctx1, RunReturns response) ->
     current_agent (fst (chat_turn session msg))
     = default (current_agent session) (last (omap signal (new_items response))))
  /\ (forall session msg ctx1 response pre a text mid s t post,
       chat_run session msg = (ctx1, RunReturns response) ->
       new_items response
       = pre ++ MessageOutputItem a text :: mid ++ HandoffOutputItem s t :: post ->
       is_Some (handoff_target text) ->
       Forall (fun i => signal i = None) post ->
       current_agent (fst (chat_turn session msg)) = t)
  /\ (forall session msg ctx1 response pre s t mid a text k post,
       chat_run session msg = (ctx1, RunReturns response) ->
       new_items response
       = pre ++ HandoffOutputItem s t :: mid ++ MessageOutputItem a text :: post ->
       handoff_target text = Some k ->
       Forall (fun i => signal i = None) post ->
       current_agent (fst (chat_turn session msg)) = k)
  /\ (forall cid st st1 pre a text k post,
       Forall (fun i => is_marker i = false) pre ->
       main_loop cid st pre = Ok st1 ->
       handoff_target text = Some k ->
       exists st2,
         main_loop cid st (pre ++ MessageOutputItem a text :: post) = Ok st2
         /\ main_agent st2 = k).
Proof.
  repeat apply conj.
  - apply chat_turn_agent.
  - intros session msg ctx1 response pre a text mid s t post Hrun Hnew _ Hpost.
    rewrite (chat_turn_agent _ _ _ _ Hrun), Hnew.
    change (pre ++ MessageOutputItem a text :: mid ++ HandoffOutputItem s t :: post)
      with (pre ++ (MessageOutputItem a text :: mid) ++ HandoffOutputItem s t :: post).
    rewrite app_assoc.
    rewrite (last_signal_of _ (HandoffOutputItem s t) post t eq_refl Hpost).
    reflexivity.
  - intros session msg ctx1 response pre s t mid a text k post Hrun Hnew Hk Hpost.
    rewrite (chat_turn_agent _ _ _ _ Hrun), Hnew.
    change (pre ++ HandoffOutputItem s t :: mid ++ MessageOutputItem a text :: post)
      with (pre ++ (HandoffOutputItem s t :: mid) ++ MessageOutputItem a text :: post).
    rewrite app_assoc.
    rewrite (last_signal_of _ (MessageOutputItem a text) post k Hk Hpost).
    reflexivity.
  - intros cid st st1 pre a text k post Hpre Hloop Hk.
    rewrite (main_loop_app cid pre st _ Hpre), Hloop, bind_ok.
    rewrite (main_loop_marker cid st1 a text k post Hk). eauto.
Qed.


(** C3, as the code has it. When the agent invocation raises, the turn
    leaves the active-agent pointer as it was, the transcript with the
    user's message appended (the append precedes the invocation and is
    not undone), and the context as the runtime left it; [chat] raises
    the error, [main] reports it and goes on. *)
Theorem failed_turn_keeps_pointer :
  (forall session msg ctx1 e,
     chat_run session msg = (ctx1, RunRaises e) ->
     chat_turn session msg
     = ({| session_id := session_id session;
           current_agent := current_agent session;
           items := items session ++ [user_entry msg];
           context := ctx1 |},
        Raise e))
  /\ (forall cid st msg ctx1 e,
       main_run st msg = (ctx1, RunRaises e) ->
       exists st',
         main_turn cid st msg = Ok st'
         /\ main_agent st' = main_agent st
         /\ input_items st' = input_items st ++ [user_entry msg]
         /\ main_context st' = ctx1).
Proof.
  split.
  - intros session msg ctx1 e Hrun. unfold chat_turn. rewrite Hrun. reflexivity.
  - intros cid st msg ctx1 e Hrun. unfold main_turn. rewrite Hrun.
    eexists. split; [reflexivity|]. cbn. repeat split.
Qed.

End HandoffFacts.

(** *** Worked turns *)

Section HandoffExamples.
Import PyStr Json Agents Display Orchestrator.

(** C1 is not what [chat] does: with the native event to [booking]
    first and the marker for [summary] after it, the pointer ends at
    [summary]. *)
Lemma native_handoff_overridden :
  ~ (forall (J : JsonLib) (R : Runtime) session msg ctx1 response s t a text,
       chat_run session msg = (ctx1, RunReturns response) ->
       In (HandoffOutputItem s t) (new_items response) ->
       In (MessageOutputItem a text) (new_items response) ->
       is_Some (handoff_target text) ->
       current_agent (fst (chat_turn session msg)) = t).
Proof.
  intros Hclaim.
  specialize (Hclaim Demo.no_json (Demo.scripted Demo.native_then_marker)
                (new_session "c1") "hello" _ _
                itinerary_agent booking_agent booking_agent "HANDOFF: summary"
                eq_refl).
  assert (Hend : summary_agent = booking_agent).
  { apply Hclaim; [left; reflexivity | right; left; reflexivity |].
    exists summary_agent. reflexivity. }
  discriminate Hend.
Qed.

Lemma handoff_last_signal_wins_witness :
  current_agent
    (fst (@chat_turn Demo.no_json (Demo.scripted Demo.marker_then_native)
            (new_session "c1") "hello")) = booking_agent
  /\ current_agent
       (fst (@chat_turn Demo.no_json (Demo.scripted Demo.native_then_marker)
               (new_session "c1") "hello")) = summary_agent.
Proof.
  destruct (@handoff_last_signal_wins Demo.no_json (Demo.scripted Demo.marker_then_native))
    as (_ & Hnative & _).
  destruct (@handoff_last_signal_wins Demo.no_json (Demo.scripted Demo.native_then_marker))
    as (_ & _ & Hmarker & _).
  split.
  - apply (Hnative (new_session "c1") "hello" _ _ [] itinerary_agent "HANDOFF: summary"
             [] itinerary_agent booking_agent [] eq_refl eq_refl).
    + exists summary_agent. reflexivity.
    + constructor.
  - apply (Hmarker (new_session "c1") "hello" _ _ [] itinerary_agent booking_agent
             [] booking_agent "HANDOFF: summary" summary_agent [] eq_refl eq_refl eq_refl).
    constructor.
Defined.


(** C3 is not what the code does: the failed turn leaves the user's
    message in the transcript. *)
Lemma failed_turn_changes_transcript :
  ~ (forall (J : JsonLib) (R : Runtime) session msg ctx1 e,
       chat_run session msg = (ctx1, RunRaises e) ->
       items (fst (chat_turn session msg)) = items session
       /\ context (fst (chat_turn session msg)) = context session
       /\ current_agent (fst (chat_turn session msg)) = current_agent session).
Proof.
  intros Hclaim.
  destruct (Hclaim Demo.no_json Demo.failing (new_session "c1") "hello" _ _ eq_refl)
    as (Hitems & _).
  discriminate Hitems.
Qed.

Lemma failed_turn_keeps_pointer_witness :
  @chat_turn Demo.no_json Demo.failing (new_session "c1") "hello"
  = ({| session_id := "c1";
        current_agent := user_preferences_agent;
        items := [user_entry "hello"];
        context := with_conversation_id empty_context (Some "c1") |},
     Raise (AgentError "model unavailable")).
Proof.
  destruct (@failed_turn_keeps_pointer Demo.no_json Demo.failing) as (Hchat & _).
  apply (Hchat (new_session "c1") "hello" _ _ eq_refl).
Defined.

End HandoffExamples.

(** ** Itinerary creation *)

Section ItineraryFacts.
Import PyStr Json Agents Dates Storage Itinerary.

Lemma digit_range c : is_digit c = true -> 0 <= dv c <= 9.
Proof.
  unfold is_digit, dv. intros E. apply andb_true_iff in E as [E1 E2].
  apply Nat.leb_le in E1. apply Nat.leb_le in E2. lia.
Qed.

Lemma read_month_range s m rest : read_month s = Some (m, rest) -> 1 <= m <= 12.
Proof.
  unfold read_month. destruct s as [|a [|b r]]; [discriminate| |].
  - destruct (is_digit a) eqn:Da; cbn; [|discriminate].
    destruct (Z.leb_spec 1 (dv a)); [|discriminate].
    intros E; injection E as <- _. pose proof (digit_range a Da). lia.
  - repeat match goal with
           | |- context [if ?b then _ else _] => destruct b eqn:?
           end; try discriminate; intros E; injection E as <- _;
      repeat match goal with
             | E : (_ && _)%bool = true |- _ => apply andb_true_iff in E as [? ?]
             | E : is_digit _ = true |- _ => apply digit_range in E
             | E : (_ <=? _) = true |- _ => apply Z.leb_le in E
             end; lia.
Qed.

Lemma read_day_range s dd : read_day s = Some dd -> 1 <= dd.
Proof.
  unfold read_day. destruct s as [|a [|b [|? ?]]]; try discriminate;
    repeat match goal with
           | |- context [if ?b then _ else _] => destruct b eqn:?
           end; try discriminate; intros E; injection E as <-;
    repeat match goal with
           | E : (_ && _)%bool = true |- _ => apply andb_true_iff in E as [? ?]
           | E : is_digit _ = true |- _ => apply digit_range in E
           | E : (_ <=? _) = true |- _ => apply Z.leb_le in E
           end; lia.
Qed.

(** What [strptime] accepts is a date of the calendar. *)
Lemma strptime_range s d :
  strptime s = Some d ->
  1 <= year d <= 9999 /\ 1 <= month d <= 12
  /\ 1 <= day d <= days_in_month (year d) (month d).
Proof.
  unfold strptime.
  destruct s as [|y1 [|y2 [|y3 [|y4 [|dash rest]]]]]; try discriminate.
  destruct (Ascii.eqb_spec dash "-") as [->|Hne].
  2:{ destruct dash as [[] [] [] [] [] [] [] []]; try discriminate; contradiction Hne; reflexivity. }
  destruct (is_digit y1 && is_digit y2 && is_digit y3 && is_digit y4)%bool eqn:Hd;
    [|discriminate].
  apply andb_true_iff in Hd as [Hd D4]. apply andb_true_iff in Hd as [Hd D3].
  apply andb_true_iff in Hd as [D1 D2].
  destruct (read_month rest) as [[m rest']|] eqn:Hm; [|discriminate].
  destruct rest' as [|c rest'']; [discriminate|].
  destruct (Ascii.eqb_spec c "-") as [->|Hne].
  2:{ destruct c as [[] [] [] [] [] [] [] []]; try discriminate; contradiction Hne; reflexivity. }
  destruct (read_day rest'') as [dd|] eqn:Hdd; [|discriminate].
  destruct ((1 <=? 1000 * dv y1 + 100 * dv y2 + 10 * dv y3 + dv y4)
            && (dd <=? days_in_month (1000 * dv y1 + 100 * dv y2 + 10 * dv y3 + dv y4) m))%bool
    eqn:Hok; [|discriminate].
  intros E; injection E as <-. cbn [year month day].
  apply andb_true_iff in Hok as [Hy Hdim].
  apply Z.leb_le in Hy. apply Z.leb_le in Hdim.
  repeat match goal with
         | E : is_digit _ = true |- _ => apply digit_range in E
         end.
  pose proof (read_month_range _ _ _ Hm). pose proof (read_day_range _ _ Hdd).
  lia.
Qed.

Lemma days_before_month_range y m :
  1 <= m <= 12 ->
  0 <= days_before_month y m
  /\ days_before_month y m + days_in_month y m <= 365 + (if is_leap y then 1 else 0).
Proof.
  intros Hm. unfold days_before_month, days_in_month.
  assert (Hcases : m = 1 \/ m = 2 \/ m = 3 \/ m = 4 \/ m = 5 \/ m = 6 \/ m = 7
                   \/ m = 8 \/ m = 9 \/ m = 10 \/ m = 11 \/ m = 12) by lia.
  destruct Hcases as [->|[->|[->|[->|[->|[->|[->|[->|[->|[->|[->| ->]]]]]]]]]]];
    destruct (is_leap y); split; apply Z.leb_le; reflexivity.
Qed.

Lemma days_before_year_step y :
  days_before_year (y + 1) = days_before_year y + 365 + (if is_leap y then 1 else 0).
Proof.
  unfold days_before_year, is_leap.
  replace (y + 1 - 1) with y by lia.
  destruct (Z.eqb_spec (y mod 4) 0), (Z.eqb_spec (y mod 100) 0),
    (Z.eqb_spec (y mod 400) 0); cbn [negb andb orb];
    Z.div_mod_to_equations; lia.
Qed.

Lemma days_before_year_mono y z : y <= z -> days_before_year y <= days_before_year z.
Proof. unfold days_before_year. intros Hyz. Z.div_mod_to_equations. lia. Qed.

(** The ordinal of a date [strptime] accepts is within the calendar. *)
Lemma strptime_ordinal s d :
  strptime s = Some d -> 1 <= toordinal d <= max_ordinal.
Proof.
  intros Hs. apply strptime_range in Hs as (Hy & Hm & Hd).
  unfold toordinal.
  pose proof (days_before_month_range (year d) (month d) Hm) as [Hb0 Hb1].
  pose proof (days_before_year_step (year d)) as Hstep.
  pose proof (days_before_year_mono 1 (year d) ltac:(lia)) as Hlo.
  pose proof (days_before_year_mono (year d + 1) 10000 ltac:(lia)) as Hhi.
  change (days_before_year 1) with 0 in Hlo.
  change (days_before_year 10000) with max_ordinal in Hhi.
  lia.
Qed.

Lemma mapM_ok {A B} (f : A -> result B) (g : A -> B) (l : list A) :
  (forall x, x ∈ l -> f x = Ok (g x)) -> mapM f l = Ok (g <$> l).
Proof.
  induction l as [|x l IH]; intros Hf; [reflexivity|].
  cbn. rewrite (Hf x) by left. cbn.
  rewrite IH by (intros y Hy; apply Hf; right; exact Hy). reflexivity.
Qed.

Lemma build_day_ok start dest plans i :
  1 <= toordinal start + i <= max_ordinal ->
  build_day start dest plans i = Ok (day_at start dest plans i).
Proof.
  intros Hr. unfold build_day, add_days_exn, add_days.
  destruct (Z.leb_spec 1 (toordinal start + i)); [|lia].
  destruct (Z.leb_spec (toordinal start + i) max_ordinal); [|lia].
  reflexivity.
Qed.

Lemma build_itinerary_ok ctx plans description dest s e d0 d1 :
  destination ctx = Some dest -> PyStr.truthy dest = true ->
  start_date ctx = Some s -> end_date ctx = Some e ->
  strptime s = Some d0 -> strptime e = Some d1 ->
  toordinal d0 <= toordinal d1 ->
  build_itinerary ctx plans description
  = Ok {| out_destination := dest;
          description := description;
          out_start_date := s;
          out_end_date := e;
          duration_days := toordinal d1 - toordinal d0 + 1;
          itinerary := day_at d0 dest plans <$> seqZ 0 (toordinal d1 - toordinal d0 + 1) |}.
Proof.
  intros Hdest Htruthy Hs He Hd0 Hd1 Hle. unfold build_itinerary.
  rewrite Hdest, Hs, He. cbn [opt_truthy from_option id].
  assert (Ts : PyStr.truthy s = true) by (destruct s; [discriminate Hd0 | reflexivity]).
  assert (Te : PyStr.truthy e = true) by (destruct e; [discriminate Hd1 | reflexivity]).
  rewrite Ts, Te, Htruthy. cbn [andb].
  unfold strptime_exn. rewrite Hd0, Hd1. rewrite !bind_ok.
  unfold days_between.
  pose proof (strptime_ordinal _ _ Hd0) as R0.
  pose proof (strptime_ordinal _ _ Hd1) as R1.
  rewrite (mapM_ok _ (day_at d0 dest plans)); [reflexivity|].
  intros i Hi. apply elem_of_seqZ in Hi. apply build_day_ok. lia.
Qed.

Lemma build_itinerary_missing ctx plans description :
  opt_truthy (destination ctx) = false
  \/ opt_truthy (start_date ctx) = false
  \/ opt_truthy (end_date ctx) = false ->
  build_itinerary ctx plans description = Raise missing_context.
Proof.
  intros Hm. unfold build_itinerary.
  destruct Hm as [-> | [-> | ->]]; rewrite ?andb_false_r; reflexivity.
Qed.

Section WithLibraries.
Context `{JsonLib} `{Database}.


End WithLibraries.


Example created_days :
  (fun doc => (fun d => (day_number d, day_date d)) <$> itinerary doc)
    <$> (match build_itinerary Demo.three_days Demo.three_day_plans "Paris in June" with
         | Ok doc => Some doc
         | Raise _ => None
         end)
  = Some [(1, "2025-06-29"); (2, "2025-06-30"); (3, "2025-07-01")]
  /\ build_itinerary (with_conversation_id empty_context (Some "c1"))
       Demo.three_day_plans "Paris in June" = Raise missing_context.
Proof. vm_compute. split; reflexivity. Qed.

End ItineraryFacts.

(** ** Accommodation enrichment *)

Section DictFacts.
Import Json.

Lemma dict_get_set_eq f k v : dict_get (dict_set f k v) k = Some v.
Proof.
  induction f as [|[k' w] f IH]; cbn.
  - rewrite String.eqb_refl. reflexivity.
  - destruct (String.eqb_spec k' k) as [->|Hne]; cbn.
    + rewrite String.eqb_refl. reflexivity.
    + destruct (String.eqb_spec k' k); [contradiction|]. exact IH.
Qed.

Lemma dict_get_set_ne f k v k' : k' <> k -> dict_get (dict_set f k v) k' = dict_get f k'.
Proof.
  intros Hne. induction f as [|[k0 w] f IH]; cbn.
  - destruct (String.eqb_spec k k'); [congruence | reflexivity].
  - destruct (String.eqb_spec k0 k) as [->|Hk]; cbn.
    + destruct (String.eqb_spec k k'); [congruence | reflexivity].
    + destruct (String.eqb_spec k0 k'); [reflexivity | exact IH].
Qed.

Lemma dict_set_twice f k a b : dict_set (dict_set f k a) k b = dict_set f k b.
Proof.
  induction f as [|[k0 w] f IH]; cbn.
  - rewrite String.eqb_refl. reflexivity.
  - destruct (String.eqb_spec k0 k) as [->|Hk]; cbn.
    + rewrite String.eqb_refl. reflexivity.
    + destruct (String.eqb_spec k0 k); [contradiction|]. rewrite IH. reflexivity.
Qed.

(** Setting a key keeps the keys and their order, or adds the key at
    the end. *)
Lemma dict_set_keys f k v :
  fst <$> dict_set f k v = fst <$> f \/ fst <$> dict_set f k v = (fst <$> f) ++ [k].
Proof.
  induction f as [|[k0 w] f IH]; cbn.
  - right. reflexivity.
  - destruct (String.eqb_spec k0 k) as [->|Hk]; cbn.
    + left. reflexivity.
    + destruct IH as [-> | ->]; [left | right]; reflexivity.
Qed.

End DictFacts.

Section EnrichmentFacts.
Import PyStr Json Agents Dates Storage CityResolver Budget Enrichment.
Context `{JsonLib} `{Database} `{AgodaConfig} `{HttpClient}.

Lemma bindM_inv {A B} (m : M A) (k : A -> M B) s s' b :
  (m ≫= k) s = (s', Ok b) ->
  exists a s1, m s = (s1, Ok a) /\ k a s1 = (s', Ok b).
Proof.
  unfold mbind, M_bind. destruct (m s) as [s1 [a|e]]; [eauto | discriminate].
Qed.

Lemma lift_inv {A} (r : result A) s s' a :
  lift r s = (s', Ok a) -> r = Ok a /\ s' = s.
Proof. unfold lift. intros E. injection E as -> ->. auto. Qed.

Lemma mret_inv {A} (a b : A) (s s' : Env) :
  (mret a : M A) s = (s', Ok b) -> b = a /\ s' = s.
Proof. unfold mret, M_ret. intros E. injection E as -> ->. auto. Qed.

(** *** The store is not touched before the final write *)

Lemma keeps_store_bind {A B} (m : M A) (k : A -> M B) :
  keeps_store m -> (forall a, keeps_store (k a)) -> keeps_store (m ≫= k).
Proof.
  intros Hm Hk s. unfold mbind, M_bind. specialize (Hm s).
  destruct (m s) as [s1 [a|e]]; cbn in *; [|exact Hm].
  rewrite Hk. exact Hm.
Qed.

Lemma keeps_store_ret {A} (a : A) : keeps_store (mret a : M A).
Proof. intros s. reflexivity. Qed.

Lemma keeps_store_lift {A} (r : result A) : keeps_store (lift r).
Proof. intros s. reflexivity. Qed.

Lemma keeps_store_post req : keeps_store (http_post req).
Proof. intros s. reflexivity. Qed.

Lemma keeps_store_resolve name : keeps_store (resolve_city name).
Proof.
  intros s. unfold resolve_city.
  destruct (map_city_to_id (city_cache s) (city_csv s) name). reflexivity.
Qed.

Lemma keeps_store_attempts k req path : forall rj re,
  keeps_store (attempts k req path rj re).
Proof.
  induction k as [|k IH]; intros rj re; [apply keeps_store_ret|].
  cbn [attempts]. apply keeps_store_bind; [apply keeps_store_post|].
  intros [|status text]; [apply IH|].
  destruct (status =? 200); [|apply IH].
  destruct (json_loads text); [apply keeps_store_ret | apply IH].
Qed.

Lemma keeps_store_second path ci co c rj :
  keeps_store (second_fallback path ci co c rj).
Proof.
  unfold second_fallback. destruct (wants_fallback rj); [|apply keeps_store_ret].
  apply keeps_store_bind; [apply keeps_store_post|].
  intros [|status text]; [apply keeps_store_ret|].
  destruct (status =? 200); apply keeps_store_ret.
Qed.

Lemma keeps_store_fallbacks path content ci co c rj :
  keeps_store (fallbacks path content ci co c rj).
Proof.
  unfold fallbacks. destruct (wants_fallback rj); [|apply keeps_store_ret].
  destruct (json_loads (json_dumps content)); [|apply keeps_store_ret].
  apply keeps_store_bind; [apply keeps_store_post|].
  intros [|status text]; [apply keeps_store_ret|].
  destruct (status =? 200); [|apply keeps_store_second].
  destruct (json_loads text); [apply keeps_store_second | apply keeps_store_ret].
Qed.

Lemma keeps_store_paths paths content ci co c : forall rj re,
  keeps_store (try_paths paths content ci co c rj re).
Proof.
  induction paths as [|path rest IH]; intros rj re; [apply keeps_store_ret|].
  cbn [try_paths]. apply keeps_store_bind; [apply keeps_store_attempts|].
  intros [rj1 re1]. apply keeps_store_bind; [apply keeps_store_fallbacks|].
  intros rj2. destruct (is_none rj2); [apply IH | apply keeps_store_ret].
Qed.

Lemma keeps_store_search lo hi ad ci co c : keeps_store (search_day lo hi ad ci co c).
Proof.
  unfold search_day. apply keeps_store_bind; [apply keeps_store_paths|].
  intros [rj re]. apply keeps_store_ret.
Qed.

Lemma keeps_store_day it days lo hi ad i day :
  keeps_store (enrich_day it days lo hi ad i day).
Proof.
  unfold enrich_day.
  repeat (apply keeps_store_bind;
          [first [apply keeps_store_lift | apply keeps_store_resolve] | intros ?]).
  apply keeps_store_bind; [|intros ?; apply keeps_store_ret].
  match goal with
  | |- keeps_store (match ?c with _ => _ end) => destruct c as [c0|]
  end; [|apply keeps_store_ret].
  destruct (c0 =? 0); [apply keeps_store_ret | apply keeps_store_search].
Qed.

Lemma keeps_store_days it days lo hi ad todo : forall i,
  keeps_store (enrich_days it days lo hi ad i todo).
Proof.
  induction todo as [|day rest IH]; intros i; [apply keeps_store_ret|].
  cbn [enrich_days]. apply keeps_store_bind; [apply keeps_store_day|].
  intros day'. apply keeps_store_bind; [apply IH|]. intros rest'. apply keeps_store_ret.
Qed.

(** *** The shape of an enriched day *)

Lemma store_result_cases fields city_id city_name response :
  store_result fields city_id city_name response = fields
  \/ exists acc,
       store_result fields city_id city_name response
       = dict_set fields "accommodation" acc.
Proof.
  unfold store_result.
  destruct (match city_id with Some c => negb (c =? 0) | None => false end);
    [|destruct (truthy (default JNull (dict_get fields "accommodation")))];
    destruct response as [r|]; eauto.
  right. exists r. apply dict_set_twice.
Qed.

Lemma store_result_same fields city_id city_name response :
  same_but_accommodation (JObj fields)
    (JObj (store_result fields city_id city_name response)).
Proof.
  exists fields, (store_result fields city_id city_name response).
  split; [reflexivity|]. split; [reflexivity|].
  destruct (store_result_cases fields city_id city_name response) as [-> | [acc ->]].
  - split; [left; reflexivity | reflexivity].
  - split.
    + destruct (dict_set_keys fields "accommodation" acc) as [E | E]; rewrite E; auto.
    + intros k Hk. apply dict_get_set_ne. exact Hk.
Qed.

Lemma enrich_day_shape it days lo hi ad i day s s' day' :
  enrich_day it days lo hi ad i day s = (s', Ok day') ->
  exists fields city_id city_name response,
    day = JObj fields
    /\ day' = JObj (store_result fields city_id city_name response).
Proof.
  unfold enrich_day. intros E.
  apply bindM_inv in E as (fields & s1 & E1 & E). apply lift_inv in E1 as [Hf ->].
  apply bindM_inv in E as (dest & s1 & E1 & E). apply lift_inv in E1 as [_ ->].
  apply bindM_inv in E as (name & s1 & E1 & E). apply lift_inv in E1 as [_ ->].
  apply bindM_inv in E as (city_id & s1 & _ & E).
  apply bindM_inv in E as (check_out & s2 & E1 & E). apply lift_inv in E1 as [_ ->].
  apply bindM_inv in E as (response & s3 & _ & E).
  apply mret_inv in E as [-> _].
  destruct day; try discriminate Hf. injection Hf as ->. eauto 10.
Qed.

Lemma enrich_days_shape it days lo hi ad todo : forall i s s' updated,
  enrich_days it days lo hi ad i todo s = (s', Ok updated) ->
  Forall2 same_but_accommodation todo updated.
Proof.
  induction todo as [|day rest IH]; intros i s s' updated E.
  - apply mret_inv in E as [-> _]. constructor.
  - cbn [enrich_days] in E.
    apply bindM_inv in E as (day' & s1 & Eday & E).
    apply bindM_inv in E as (rest' & s2 & Erest & E).
    apply mret_inv in E as [-> _].
    constructor; [|exact (IH _ _ _ _ Erest)].
    apply enrich_day_shape in Eday as (f & c & n & r & -> & ->).
    apply store_result_same.
Qed.

(** What a successful call went through. *)
Lemma populate_success ctx cid s s' out :
  populate_accommodations_from_agoda_tool ctx cid s = (s', Ok out) ->
  exists conv_id text fields days band adults s1 updated,
    read_itinerary_json (store s) conv_id = Ok text
    /\ json_loads text = Some (JObj fields)
    /\ iterate (default (JArr []) (dict_get fields "itinerary")) = Ok days
    /\ enrich_days (JObj fields) days (fst band) (snd band) adults 0 days s
       = (s1, Ok updated)
    /\ out = json_dumps_indent (JObj (dict_set fields "itinerary" (JArr updated)))
    /\ write_itinerary_json (store s) conv_id out = (store s', Ok out).
Proof.
  unfold populate_accommodations_from_agoda_tool. intros E.
  apply bindM_inv in E as (conv_id & s0 & E1 & E). apply lift_inv in E1 as [_ ->].
  apply bindM_inv in E as (u & s0 & E1 & E). apply lift_inv in E1 as [_ ->].
  apply bindM_inv in E as (text & s0 & E1 & E).
  unfold read_store in E1. injection E1 as <- Hread.
  apply bindM_inv in E as (itinerary & s0 & E1 & E). apply lift_inv in E1 as [Hload ->].
  apply bindM_inv in E as (band & s0 & E1 & E). apply lift_inv in E1 as [_ ->].
  apply bindM_inv in E as (days_value & s0 & E1 & E). apply lift_inv in E1 as [Hdv ->].
  apply bindM_inv in E as (days & s0 & E1 & E). apply lift_inv in E1 as [Hdays ->].
  apply bindM_inv in E as (updated & s1 & Eloop & E).
  apply bindM_inv in E as (itinerary' & s2 & E1 & E). apply lift_inv in E1 as [Hwith ->].
  apply bindM_inv in E as (written & s2 & Ewrite & E).
  apply mret_inv in E as [-> ->].
  unfold Display.loads_exn in Hload.
  destruct (json_loads text) as [v|] eqn:Hv; [|discriminate]. injection Hload as ->.
  destruct itinerary as [| | | | | |fields]; try discriminate Hwith.
  injection Hwith as <-. cbn in Hdv. injection Hdv as <-.
  match type of Eloop with
  | enrich_days _ _ _ _ ?ad _ _ _ = _ =>
      pose proof (keeps_store_days (JObj fields) days (fst band) (snd band) ad days 0 s)
        as Hk
  end.
  rewrite Eloop in Hk. cbn in Hk.
  unfold write_store in Ewrite. rewrite Hk in Ewrite.
  destruct (write_itinerary_json (store s) conv_id _) as [st' r] eqn:W.
  injection Ewrite as <- ->. cbn.
  destruct (write_ok_inv _ _ _ _ _ W) as [-> _].
  do 5 eexists. eexists _, s1, updated.
  repeat split; eassumption.
Qed.


(** *** When no request gets a response *)

Lemma attempts_offline k req path rj re s :
  offline -> snd (attempts k req path rj re s) = Ok (rj, re).
Proof.
  intros Hoff. revert s. induction k as [|k IH]; intros s; [reflexivity|].
  cbn [attempts]. unfold mbind, M_bind, http_post. rewrite Hoff. apply IH.
Qed.

Lemma try_paths_offline paths content ci co c s :
  offline -> snd (try_paths paths content ci co c JNull None s) = Ok (JNull, None).
Proof.
  intros Hoff. revert s. induction paths as [|path rest IH]; intros s; [reflexivity|].
  cbn [try_paths]. unfold mbind at 1, M_bind at 1.
  pose proof (attempts_offline MAX_RETRIES (request_to path content) path JNull None s Hoff)
    as Ha.
  destruct (attempts MAX_RETRIES _ path JNull None s) as [s1 r]. cbn in Ha. subst r.
  cbn. apply IH.
Qed.

Lemma search_day_offline lo hi ad ci co c s :
  offline -> snd (search_day lo hi ad ci co c s) = Ok None.
Proof.
  intros Hoff. unfold search_day, mbind, M_bind.
  pose proof (try_paths_offline candidate_paths (payload lo hi ad ci co c) ci co c s Hoff)
    as Hp.
  destruct (try_paths _ _ ci co c JNull None s) as [s1 r]. cbn in Hp. subst r.
  reflexivity.
Qed.

Lemma store_result_kept fields city_id city_name :
  truthy (default JNull (dict_get fields "accommodation")) = true ->
  store_result fields city_id city_name None = fields.
Proof.
  intros Hacc. unfold store_result. rewrite Hacc.
  destruct (match city_id with Some c => negb (c =? 0) | None => false end); reflexivity.
Qed.

Lemma enrich_day_offline it days lo hi ad i day s s' day' :
  offline ->
  enrich_day it days lo hi ad i day s = (s', Ok day') ->
  has_accommodation day -> day' = day.
Proof.
  intros Hoff E (f & -> & Hacc). unfold enrich_day in E.
  apply bindM_inv in E as (fields & s1 & E1 & E). apply lift_inv in E1 as [Hf ->].
  injection Hf as <-.
  apply bindM_inv in E as (dest & s1 & E1 & E). apply lift_inv in E1 as [_ ->].
  apply bindM_inv in E as (name & s1 & E1 & E). apply lift_inv in E1 as [_ ->].
  apply bindM_inv in E as (city_id & s1 & _ & E).
  apply bindM_inv in E as (check_out & s2 & E1 & E). apply lift_inv in E1 as [_ ->].
  apply bindM_inv in E as (response & s3 & Esearch & E).
  apply mret_inv in E as [-> _].
  assert (response = None) as ->.
  { destruct city_id as [c|]; [destruct (c =? 0)|];
      try (apply mret_inv in Esearch as [-> _]; reflexivity).
    pose proof (search_day_offline lo hi ad (default JNull (dict_get f "date"))
                  check_out c s1 Hoff) as Hs.
    rewrite Esearch in Hs. cbn in Hs. congruence. }
  rewrite store_result_kept by exact Hacc. reflexivity.
Qed.

Lemma enrich_days_offline it days lo hi ad todo : forall i s s' updated,
  offline ->
  enrich_days it days lo hi ad i todo s = (s', Ok updated) ->
  Forall2 (fun day day' => has_accommodation day -> day' = day) todo updated.
Proof.
  induction todo as [|day rest IH]; intros i s s' updated Hoff E.
  - apply mret_inv in E as [-> _]. constructor.
  - cbn [enrich_days] in E.
    apply bindM_inv in E as (day' & s1 & Eday & E).
    apply bindM_inv in E as (rest' & s2 & Erest & E).
    apply mret_inv in E as [-> _].
    constructor; [|exact (IH _ _ _ _ Hoff Erest)].
    intros Hacc. exact (enrich_day_offline _ _ _ _ _ _ _ _ _ _ Hoff Eday Hacc).
Qed.

Lemma Forall2_kept {A} (P : A -> Prop) (l l' : list A) :
  Forall2 (fun x y => P x -> y = x) l l' -> Forall P l -> l' = l.
Proof.
  induction 1 as [|x y l l' Hxy _ IH]; intros HP; [reflexivity|].
  apply Forall_cons in HP as [Hx HP]. rewrite (Hxy Hx), (IH HP). reflexivity.
Qed.


End EnrichmentFacts.

(** *** Worked enrichments *)

Section EnrichmentExamples.
Import Json Agents Storage Enrichment.

Example enrichment_runs :
  snd (Demo.enrich_trip Demo.fruitful) = Ok "trip with hotels"
  /\ requests (fst (Demo.enrich_trip Demo.fruitful)) = 1%nat
  /\ snd (Demo.enrich_trip Demo.always_500) = Ok "trip with error"
  /\ requests (fst (Demo.enrich_trip Demo.always_500)) = 3%nat
  /\ snd (Demo.enrich_trip Demo.unreachable) = Ok "trip"
  /\ requests (fst (Demo.enrich_trip Demo.unreachable)) = 3%nat.
Proof. vm_compute. repeat split; reflexivity. Qed.




End EnrichmentExamples.

(** ** Rendering of message and tool payloads *)

Section RenderingFacts.
Import PyStr Json Agents Display Orchestrator App.

Example fence_examples :
  fence_search Demo.fenced_object_text = Some Demo.plain_object_text
  /\ fence_sub Demo.fenced_object_text = "Here you go:  done"
  /\ fence_search Demo.plain_object_text = None
  /\ fence_sub Demo.plain_object_text = Demo.plain_object_text
  /\ fence_search (fence +:+ "JSON" +:+ fence) = Some EmptyString
  /\ fence_search (fence +:+ "x" +:+ fence +:+ "y" +:+ fence) = Some "x"
  /\ fence_sub ("a" +:+ fence +:+ "x" +:+ fence +:+ "b" +:+ fence +:+ "y" +:+ fence +:+ "c")
     = "abc"
  /\ fence_search (fence +:+ "never closed") = None.
Proof. vm_compute. repeat split; reflexivity. Qed.

Lemma no_backquote_match_at s : no_backquote s = true -> match_at s = None.
Proof.
  destruct s as [|c s]; [reflexivity|]. cbn [no_backquote].
  intros E. apply andb_true_iff in E as [Hc _]. apply negb_true_iff in Hc.
  unfold match_at, fence. cbn [startswith].
  rewrite Ascii.eqb_sym, Hc. reflexivity.
Qed.

Lemma no_backquote_search s : no_backquote s = true -> fence_search s = None.
Proof.
  induction s as [|c s IH]; intros E; [reflexivity|].
  cbn [fence_search]. rewrite (no_backquote_match_at _ E).
  apply andb_true_iff in E as [_ E]. exact (IH E).
Qed.

Lemma no_backquote_sub s : no_backquote s = true -> fence_sub s = s.
Proof.
  unfold fence_sub. induction s as [|c s IH]; intros E; [reflexivity|].
  cbn [fence_sub_from]. rewrite (no_backquote_match_at _ E).
  apply andb_true_iff in E as [_ E]. rewrite (IH E). reflexivity.
Qed.

Section WithJson.
Context `{JsonLib}.

(** C9, against the code. A payload that parses to an object with the
    four itinerary keys is shown as formatted text (or as the fixed
    line when formatting raises), never as its JSON.  A message whose
    text parses as JSON of another shape is shown as that very text by
    [_format_message] of api.py; by [format_message] of app.py it is
    shown with its fenced blocks removed, hence as that very text,
    stripped, when the JSON is not fenced. *)
Theorem other_json_shown_raw :
  (forall a text v,
     PyStr.truthy text = true ->
     json_loads text = Some v -> has_itinerary_keys (Some v) = true ->
     _format_message (MessageOutputItem a text)
     = match format_itinerary_for_display (json_dumps v) with
       | Ok shown => shown
       | Raise _ => "Itinerary updated."
       end)
  /\ (forall a text v,
       json_loads text = Some v -> has_itinerary_keys (Some v) = true ->
       _format_message (ToolCallOutputItem a text)
       = match format_itinerary_for_display (json_dumps v) with
         | Ok shown => shown
         | Raise _ => name a +:+ ": Itinerary updated."
         end)
  /\ (forall a text v,
       PyStr.truthy text = true ->
       json_loads text = Some v -> has_itinerary_keys (Some v) = false ->
       _format_message (MessageOutputItem a text) = text)
  /\ (forall a text v,
       _try_extract_json text = Some v -> _is_itinerary_like v = false ->
       format_message (MessageOutputItem a text) = strip (fence_sub text))
  /\ (forall a text v,
       no_backquote text = true ->
       startswith (strip text) "{" || startswith (strip text) "[" = true ->
       json_loads (strip text) = Some v -> v <> JNull ->
       _is_itinerary_like v = false ->
       format_message (MessageOutputItem a text) = strip text).
Proof.
  repeat apply conj.
  - intros a text v Ht Hv Hk. cbn. rewrite Ht, Hv. cbn [negb]. rewrite Hk. reflexivity.
  - intros a text v Hv Hk. cbn. rewrite Hv, Hk. reflexivity.
  - intros a text v Ht Hv Hk. cbn. rewrite Ht, Hv. cbn [negb]. rewrite Hk. reflexivity.
  - intros a text v Hv Hk. cbn.
    assert (Ht : PyStr.truthy text = true).
    { unfold _try_extract_json in Hv. destruct (PyStr.truthy text); [reflexivity|discriminate]. }
    rewrite Ht, Hv. cbn [negb]. rewrite Hk. reflexivity.
  - intros a text v Hq Hstart Hv Hnull Hk.
    assert (Hs : PyStr.truthy (strip text) = true).
    { destruct (strip text); [discriminate Hstart | reflexivity]. }
    assert (Ht : PyStr.truthy text = true).
    { destruct text; [discriminate Hs | reflexivity]. }
    assert (Hx : _try_extract_json text = Some v).
    { unfold _try_extract_json. rewrite Ht, (no_backquote_search _ Hq), Hstart.
      cbn [negb]. rewrite Hs, Hv. cbn [negb]. destruct v; congruence. }
    cbn. rewrite Ht, Hx. cbn [negb]. rewrite Hk, (no_backquote_sub _ Hq). reflexivity.
Qed.

End WithJson.

Lemma other_json_shown_raw_witness :
  @_format_message Demo.plain_json
    (MessageOutputItem summary_agent Demo.plain_object_text) = Demo.plain_object_text
  /\ @format_message Demo.plain_json
       (MessageOutputItem summary_agent Demo.plain_object_text) = Demo.plain_object_text.
Proof.
  destruct (@other_json_shown_raw Demo.plain_json) as (_ & _ & Hapi & _ & Happ).
  split.
  - apply (Hapi summary_agent Demo.plain_object_text Demo.plain_object);
      reflexivity.
  - apply (Happ summary_agent Demo.plain_object_text Demo.plain_object);
      try reflexivity. discriminate.
Defined.

Example fenced_json_removed :
  @format_message Demo.plain_json
    (MessageOutputItem summary_agent Demo.fenced_object_text) = "Here you go:  done".
Proof. vm_compute. reflexivity. Qed.

End RenderingFacts.

(** * Further properties of the code *)

(** ** The trip context and the agent roster *)

Section RosterFacts.
Import PyStr Agents Orchestrator Roster.

Lemma overwrite_assoc {A} (a b c : option A) :
  overwrite c (overwrite b a) = overwrite (overwrite c b) a.
Proof. destruct c, b; reflexivity. Qed.

(** X1. [update_context_tool] is a partial update that composes: two
    calls in a row have the effect of one call whose arguments are the
    second call's where given and the first call's otherwise; a call
    with no argument changes nothing, and repeating a call changes
    nothing more. *)
Theorem context_updates_compose :
  (forall ctx u v, apply_update (apply_update ctx u) v = apply_update ctx (then_update u v))
  /\ (forall ctx, apply_update ctx no_update = ctx)
  /\ (forall ctx u, apply_update (apply_update ctx u) u = apply_update ctx u).
Proof.
  repeat apply conj.
  - intros ctx u v. unfold apply_update, update_context_tool, then_update. cbn.
    f_equal; apply overwrite_assoc.
  - intros []. reflexivity.
  - intros ctx u. unfold apply_update, update_context_tool. cbn.
    f_equal;
      match goal with
      | |- overwrite ?x (overwrite ?x _) = _ => destruct x; reflexivity
      end.
Qed.

(** Every native handoff leads to a later stage. *)
Lemma handoffs_rank a b : b ∈ handoffs a -> (rank a < rank b)%nat.
Proof.
  destruct a; cbn; intros Hb;
    repeat (apply elem_of_cons in Hb as [-> | Hb]; [cbn; lia|]);
    apply elem_of_nil in Hb; contradiction.
Qed.

Lemma native_chain_bound path :
  native_chain path ->
  match path with
  | a :: _ => (length path + rank a <= 5)%nat
  | [] => True
  end.
Proof.
  induction path as [|a [|b rest] IH]; cbn; intros Hc; [exact I | destruct a; cbn; lia |].
  destruct Hc as [Hab Hrest]. specialize (IH Hrest). cbn in IH.
  apply handoffs_rank in Hab. lia.
Qed.

Lemma native_chain_ranks path :
  native_chain path ->
  forall a rest, path = a :: rest -> Forall (fun b => (rank a < rank b)%nat) rest.
Proof.
  induction path as [|x [|y tail] IH]; intros Hc a rest E; [discriminate| |].
  - injection E as <- <-. constructor.
  - injection E as <- <-. destruct Hc as [Hxy Htail].
    pose proof (handoffs_rank _ _ Hxy) as Hlt.
    constructor; [exact Hlt|].
    specialize (IH Htail y tail eq_refl).
    eapply Forall_impl; [exact IH|]. cbn. intros b Hb. lia.
Qed.

(** X2. The native handoff graph wired at lines 619-623 has no cycle:
    a chain of native handoffs visits no agent twice and has at most
    five agents, and [summary_agent] hands off to nobody. *)
Theorem native_handoffs_acyclic :
  (forall path, native_chain path -> NoDup path /\ (length path <= 5)%nat)
  /\ handoffs summary_agent = []
  /\ (forall a b, b ∈ handoffs a -> (rank a < rank b)%nat).
Proof.
  split; [|split; [reflexivity|exact handoffs_rank]].
  intros path Hc. split.
  - induction path as [|a rest IH]; [constructor|].
    constructor.
    + intros Hin. pose proof (native_chain_ranks _ Hc a rest eq_refl) as Hr.
      rewrite Forall_forall in Hr. specialize (Hr a Hin). lia.
    + apply IH. destruct rest; [exact I | exact (proj2 Hc)].
  - pose proof (native_chain_bound path Hc) as Hb.
    destruct path; cbn in *; lia.
Qed.

Lemma native_handoffs_acyclic_witness :
  NoDup [user_preferences_agent; destination_research_agent; itinerary_agent;
         summary_agent]
  /\ (length [user_preferences_agent; destination_research_agent; itinerary_agent;
              summary_agent] <= 5)%nat.
Proof.
  destruct native_handoffs_acyclic as (Hchain & _).
  apply Hchain. cbn. repeat split; set_solver.
Defined.

End RosterFacts.

(** ** The text handoff protocol *)

Section ProtocolFacts.
Import PyStr Agents Orchestrator.

Lemma upper_lower_char c : upper_char (lower_char c) = upper_char c.
Proof. destruct c as [[] [] [] [] [] [] [] []]; reflexivity. Qed.

Lemma upper_lower s : upper (lower s) = upper s.
Proof.
  unfold lower, upper. induction s as [|c s IH]; [reflexivity|].
  cbn. rewrite upper_lower_char. f_equal. exact IH.
Qed.

Lemma lower_char_colon c : Ascii.eqb (lower_char c) ":" = Ascii.eqb c ":".
Proof. destruct c as [[] [] [] [] [] [] [] []]; reflexivity. Qed.

Lemma split_once_lower s : split_once ":" (lower s) = lower <$> split_once ":" s.
Proof.
  unfold lower. induction s as [|c s IH]; [reflexivity|].
  cbn [map_chars split_once]. rewrite lower_char_colon.
  destruct (Ascii.eqb c ":"); [reflexivity|].
  rewrite IH. destruct (split_once ":" s); reflexivity.
Qed.

(** When the marker matches, the first colon is the marker's own: the
    two parts of [split(":", 1)] are the seven letters and what follows
    the colon. *)
Lemma marker_parts (s : string) :
  startswith (upper s) "HANDOFF:" = true ->
  split_once ":" s = [take 7 s; drop 8 s].
Proof.
  unfold upper. intros Hs.
  do 8 (apply startswith_cons in Hs as (? & E & Hs);
        apply map_chars_cons in E as (? & ? & -> & ? & <-)).
  repeat match goal with
         | E : upper_char ?c = ":"%char |- _ => apply upper_char_colon in E; subst c
         | E : upper_char ?c = _ |- _ =>
             apply upper_char_letter in E; [|reflexivity]
         end.
  cbn [split_once].
  repeat match goal with
         | E : ?c <> ":"%char |- context [Ascii.eqb ?c ":"] =>
             destruct (Ascii.eqb_spec c ":"); [contradiction|]; clear E
         end.
  reflexivity.
Qed.

(** X3. The marker's key is everything after the marker's colon: when
    the stripped text starts with HANDOFF: in any letter case,
    [split(":", 1)[1]] exists (the index never fails) and is the text
    from the ninth character on, so a second colon belongs to the key;
    the pointer moves exactly when that rest, stripped and lower-cased,
    is one of the five keys. *)
Theorem handoff_key_after_marker text :
  handoff_target text
  = if startswith (upper (strip text)) "HANDOFF:"
    then agent_by_key !! lower (strip (drop 8 (strip text)))
    else None.
Proof.
  unfold handoff_target. destruct (startswith _ _) eqn:E; [|reflexivity].
  rewrite (marker_parts _ E). reflexivity.
Qed.

Lemma handoff_target_lower text : handoff_target (lower text) = handoff_target text.
Proof.
  unfold handoff_target. rewrite strip_lower, upper_lower.
  destruct (startswith _ _); [|reflexivity].
  rewrite split_once_lower, list_lookup_fmap.
  destruct (split_once ":" (strip text) !! 1%nat) as [rest|]; [|reflexivity].
  cbn. rewrite strip_lower, lower_idem. reflexivity.
Qed.

Lemma handoff_target_strip text : handoff_target (strip text) = handoff_target text.
Proof. unfold handoff_target. rewrite strip_idem. reflexivity. Qed.

(** X4. The text protocol ignores letter case and surrounding white
    space of the whole message: a variant of a text that differs only
    in letter case, padded with white space on both sides, selects the
    same agent (or none) as the text itself. *)
Theorem handoff_marker_insensitive text variant pre post :
  all_space pre = true -> all_space post = true ->
  lower variant = lower text ->
  handoff_target (pre +:+ variant +:+ post) = handoff_target text.
Proof.
  intros Hpre Hpost Hv.
  rewrite <- handoff_target_strip, (strip_pad _ _ _ Hpre Hpost), handoff_target_strip.
  rewrite <- (handoff_target_lower variant), Hv. apply handoff_target_lower.
Qed.

Lemma handoff_marker_insensitive_witness :
  handoff_target ("  " +:+ "Handoff: Booking" +:+ " ") = handoff_target "HANDOFF: booking"
  /\ handoff_target "HANDOFF: booking" = Some booking_agent.
Proof.
  split; [|reflexivity].
  apply (handoff_marker_insensitive "HANDOFF: booking" "Handoff: Booking" "  " " ");
    reflexivity.
Defined.

End ProtocolFacts.

(** ** The session registry of api.py *)

Section RegistryFacts.
Import PyStr Json Agents Orchestrator Registry.
Context `{JsonLib} `{Runtime}.

Lemma get_or_create_spec sessions fresh cid :
  _get_or_create_session sessions fresh cid
  = let conv := requested_id fresh cid in
    match sessions !! conv with
    | Some s => (sessions, conv, s)
    | None => (<[conv := new_session conv]> sessions, conv, new_session conv)
    end.
Proof. reflexivity. Qed.

Lemma chat_turn_id session msg :
  session_id (fst (chat_turn session msg)) = session_id session.
Proof.
  unfold chat_turn. destruct (chat_run session msg) as [ctx1 [e|response]]; reflexivity.
Qed.

Lemma chat_spec sessions fresh req :
  chat sessions fresh req
  = let conv := requested_id fresh (request_id req) in
    let session := default (new_session conv) (sessions !! conv) in
    (<[conv := fst (chat_turn session (message req))]> sessions,
     snd (chat_turn session (message req))).
Proof.
  unfold chat. rewrite get_or_create_spec. cbn zeta.
  destruct (sessions !! requested_id fresh (request_id req)) as [s|] eqn:E; cbn [default from_option id].
  - destruct (chat_turn s (message req)); reflexivity.
  - destruct (chat_turn _ (message req)). cbn [fst snd].
    rewrite insert_insert_eq. reflexivity.
Qed.

(** X5. A call of [chat] touches one session only: the one stored
    under the request's conversation id, or under the fresh id when the
    request carries none or an empty one.  Every other session of the
    registry is left as it is, that session is in the registry
    afterwards (also when the run raised), and a registry in which
    every session is stored under its own id stays so. *)
Theorem chat_touches_one_session sessions fresh req :
  let conv := requested_id fresh (request_id req) in
  let sessions' := fst (chat sessions fresh req) in
  (forall k, k <> conv -> sessions' !! k = sessions !! k)
  /\ sessions' !! conv
     = Some (fst (chat_turn (default (new_session conv) (sessions !! conv)) (message req)))
  /\ (well_keyed sessions -> well_keyed sessions').
Proof.
  cbn zeta. rewrite chat_spec. cbn [fst]. repeat split.
  - intros k Hk. apply lookup_insert_ne. congruence.
  - apply lookup_insert_eq.
  - intros Hwk k s. destruct (decide (k = requested_id fresh (request_id req))) as [->|Hk].
    + rewrite lookup_insert_eq. intros [= <-]. rewrite chat_turn_id.
      destruct (sessions !! _) as [s0|] eqn:E; cbn [default from_option id]; [|reflexivity].
      exact (Hwk _ _ E).
    + rewrite lookup_insert_ne by congruence. apply Hwk.
Qed.

(** X6. The id a response carries resumes the conversation: after a
    call that returned, the registry holds under the returned id the
    session of that turn, whose pointer is the agent the response
    names, and a later request with that id runs its turn on exactly
    that session, whatever fresh id is on offer. *)
Theorem returned_id_resumes sessions fresh req sessions1 resp :
  well_keyed sessions ->
  chat sessions fresh req = (sessions1, Ok resp) ->
  PyStr.truthy (response_id resp) = true ->
  exists s1,
    sessions1 !! response_id resp = Some s1
    /\ name (current_agent s1) = response_agent resp
    /\ forall fresh' msg',
         chat sessions1 fresh' {| message := msg'; request_id := Some (response_id resp) |}
         = (<[response_id resp := fst (chat_turn s1 msg')]> sessions1,
            snd (chat_turn s1 msg')).
Proof.
  intros Hwk Hchat Hid. rewrite chat_spec in Hchat. cbn zeta in Hchat.
  set (conv := requested_id fresh (request_id req)) in *.
  set (s0 := default (new_session conv) (sessions !! conv)) in *.
  injection Hchat as <- Hr.
  assert (Hs0 : session_id s0 = conv).
  { unfold s0. destruct (sessions !! conv) as [s|] eqn:E; cbn [default from_option id]; [|reflexivity].
    exact (Hwk _ _ E). }
  assert (Hresp : response_id resp = conv /\
                  name (current_agent (fst (chat_turn s0 (message req)))) = response_agent resp).
  { revert Hr. unfold chat_turn.
    destruct (chat_run s0 (message req)) as [ctx1 [e|response]]; cbn; [discriminate|].
    intros [= <-]. cbn. split; [exact Hs0 | reflexivity]. }
  destruct Hresp as [Hconv Hname]. rewrite Hconv in *.
  exists (fst (chat_turn s0 (message req))). repeat split.
  - apply lookup_insert_eq.
  - exact Hname.
  - intros fresh' msg'. rewrite chat_spec. cbn [request_id message].
    assert (Hreq : requested_id fresh' (Some conv) = conv).
    { unfold requested_id. cbn [opt_truthy]. rewrite Hid. reflexivity. }
    rewrite !Hreq, lookup_insert_eq. reflexivity.
Qed.

(** X7. [chat] answers whenever the run returns: the turn fails only
    with the exception of the run itself (rendering never fails it), and
    the reply of a response is never empty and carries no leading or
    trailing white space: it is the joined messages stripped, or
    [Noted.] when nothing is left. *)
Theorem chat_reply_never_empty session msg :
  match snd (chat_turn session msg) with
  | Ok r =>
      PyStr.truthy (reply r) = true /\ strip (reply r) = reply r
      /\ response_id r = session_id session
      /\ exists ctx1 response, chat_run session msg = (ctx1, RunReturns response)
  | Raise e => exists ctx1, chat_run session msg = (ctx1, RunRaises e)
  end.
Proof.
  unfold chat_turn. destruct (chat_run session msg) as [ctx1 [e|response]]; cbn [snd].
  - eauto.
  - cbn [reply response_id].
    set (joined := join Display.nl _).
    split; [|split; [|split; [reflexivity | eauto]]].
    + destruct (strip joined); reflexivity.
    + destruct (strip joined) eqn:E; [reflexivity|]. rewrite <- E. apply strip_idem.
Qed.

End RegistryFacts.

Section RegistryExamples.
Import PyStr Json Agents Orchestrator Registry.

Lemma chat_touches_one_session_witness :
  fst (@chat Demo.no_json (Demo.scripted []) ∅ "c1"
         {| message := "hi"; request_id := None |}) !! "c2"
  = (∅ : gmap string _Session) !! "c2".
Proof.
  apply (proj1 (@chat_touches_one_session Demo.no_json (Demo.scripted []) ∅ "c1"
                  {| message := "hi"; request_id := None |})).
  discriminate.
Defined.

Lemma returned_id_resumes_witness :
  exists s1,
    fst (@chat Demo.no_json (Demo.scripted []) ∅ "c1"
           {| message := "hi"; request_id := None |}) !! "c1" = Some s1
    /\ name (current_agent s1) = "user_preferences_agent"
    /\ forall fresh' msg',
         @chat Demo.no_json (Demo.scripted [])
           (fst (@chat Demo.no_json (Demo.scripted []) ∅ "c1"
                   {| message := "hi"; request_id := None |}))
           fresh' {| message := msg'; request_id := Some "c1" |}
         = (<["c1" := fst (@chat_turn Demo.no_json (Demo.scripted []) s1 msg')]>
              (fst (@chat Demo.no_json (Demo.scripted []) ∅ "c1"
                      {| message := "hi"; request_id := None |})),
            snd (@chat_turn Demo.no_json (Demo.scripted []) s1 msg')).
Proof.
  apply (@returned_id_resumes Demo.no_json (Demo.scripted []) ∅ "c1"
           {| message := "hi"; request_id := None |} _
           {| response_id := "c1"; reply := "Noted.";
              response_agent := "user_preferences_agent" |}).
  - intros k s Hk. rewrite lookup_empty in Hk. discriminate Hk.
  - reflexivity.
  - reflexivity.
Defined.

End RegistryExamples.

(** ** Storage: how writes compose *)

Section StorageComposition.
Import Json Storage.
Context `{JsonLib} `{Database}.

Lemma write_store_eq st cid text :
  fst (write_itinerary_json st cid text)
  = match json_loads text with
    | None => st
    | Some _ =>
        if use_db st
        then {| db_url := db_url st; files := files st;
                table := <[cid := jsonb_text text]> (table st) |}
        else {| db_url := db_url st;
                files := <[_file_path cid := text]> (files st);
                table := table st |}
    end.
Proof.
  unfold write_itinerary_json. destruct (json_loads text); [|reflexivity].
  destruct (use_db st); reflexivity.
Qed.

Lemma write_keeps_backend st cid text :
  use_db (fst (write_itinerary_json st cid text)) = use_db st.
Proof.
  rewrite write_store_eq. destruct (json_loads text); [|reflexivity].
  destruct (use_db st) eqn:E; unfold use_db in *; cbn; exact E.
Qed.


End StorageComposition.

Section StorageCompositionExamples.
Import Json Storage.


End StorageCompositionExamples.

(** ** The city table *)

Section CityTableFacts.
Import PyStr CityResolver CityTable.

Lemma normalize_idem name :
  _normalize_city_name (_normalize_city_name name) = _normalize_city_name name.
Proof. unfold _normalize_city_name, casefold. apply lower_strip_idem. Qed.

Lemma well_formed_empty : well_formed ∅.
Proof. intros k v Hk. rewrite lookup_empty in Hk. discriminate Hk. Qed.

Lemma load_row_well_formed mapping row :
  well_formed mapping -> well_formed (load_row mapping row).
Proof.
  intros Hm. unfold load_row.
  destruct (match or_str (col_city_id row) (col_cityId row) with
            | Some s => if truthy s then PyNum.int_of_string s else Some 0
            | None => Some 0
            end) as [city_id|]; [|exact Hm].
  destruct (negb (city_id =? 0) && truthy _) eqn:E; [|exact Hm].
  apply andb_true_iff in E as [Hid _].
  apply negb_true_iff, Z.eqb_neq in Hid.
  intros k v. destruct (decide (k = _normalize_city_name
      match or_str (col_city row) (col_city_name row) with
      | Some s => s
      | None => EmptyString
      end)) as [->|Hk].
  - rewrite lookup_insert_eq. intros [= <-]. split; [exact Hid | apply normalize_idem].
  - rewrite lookup_insert_ne by congruence. apply Hm.
Qed.

Lemma load_rows_well_formed rows : forall mapping,
  well_formed mapping -> well_formed (foldl load_row mapping rows).
Proof.
  induction rows as [|row rows IH]; intros mapping Hm; [exact Hm|].
  cbn [foldl]. apply IH, load_row_well_formed, Hm.
Qed.

Lemma load_city_mapping_well_formed cache csv :
  well_formed cache ->
  well_formed (fst (load_city_mapping cache csv))
  /\ well_formed (snd (load_city_mapping cache csv)).
Proof.
  intros Hc. unfold load_city_mapping.
  destruct (bool_decide (cache = ∅)); cbn [fst snd]; [|split; exact Hc].
  destruct csv as [rows|]; split;
    first [apply load_rows_well_formed, well_formed_empty | apply well_formed_empty].
Qed.

(** X9. The loader keeps the city table well formed: if every key of
    the cache is a normalized name and no id is 0, as in the empty cache
    of a fresh process, the same holds after a lookup, and the id the
    lookup returns is never 0 (the value the callers' truth test would
    take for a missing id). *)
Theorem city_ids_never_zero cache csv name :
  well_formed cache ->
  well_formed (fst (map_city_to_id cache csv name))
  /\ forall id, snd (map_city_to_id cache csv name) = Some id -> id <> 0.
Proof.
  intros Hc. destruct (load_city_mapping_well_formed cache csv Hc) as [H1 H2].
  rewrite map_city_to_id_cache, map_city_to_id_lookup. split; [exact H1|].
  intros id Hid. exact (proj1 (H2 _ _ Hid)).
Qed.

Lemma city_ids_never_zero_witness :
  well_formed (fst (map_city_to_id ∅ sample_csv "Paris"))
  /\ forall id, snd (map_city_to_id ∅ sample_csv "Paris") = Some id -> id <> 0.
Proof. apply (city_ids_never_zero ∅ sample_csv "Paris"), well_formed_empty. Defined.



End CityTableFacts.

(** ** Bands: floors, labels and budgets that are not finite *)

Section BandFacts.
Import PyStr PyNum Json Budget.

Lemma numeric_band_floors b lo hi :
  numeric_band b = Ok (lo, hi) -> 20 <= lo /\ 40 <= hi.
Proof.
  unfold numeric_band.
  destruct (float_exn b) as [x|]; [|discriminate]. cbn.
  destruct (int_of_float x) as [val|]; [|discriminate]. cbn.
  destruct (float_of_int val) as [fv|]; [|discriminate]. cbn.
  destruct (int_of_float (fmul fv f0_5)) as [l|]; [|discriminate]. cbn.
  destruct (int_of_float (fmul fv f1_25)) as [h|]; [|discriminate]. cbn.
  intros [= <- <-]. lia.
Qed.

Lemma infer_rate_range_floors budget :
  20 <= fst (infer_rate_range budget) /\ 40 <= snd (infer_rate_range budget).
Proof.
  unfold infer_rate_range. destruct budget as [s|]; [|cbn; lia].
  destruct (negb (PyStr.truthy s)); [cbn; lia|].
  repeat (destruct (bool_decide _); [cbn; lia|]).
  destruct (numeric_band _) as [[lo hi]|] eqn:E; [|cbn; lia].
  exact (numeric_band_floors _ _ _ E).
Qed.

Lemma band_around_floors x n lo hi :
  band_around x n = Ok (lo, hi) -> 20 <= lo /\ lo + 20 <= hi.
Proof.
  unfold band_around.
  destruct (float_of_int (Z.max 1 n)) as [fn|]; [|discriminate]. cbn.
  destruct (int_of_float (fmul (fdiv x fn) f0_5)) as [l|]; [|discriminate]. cbn.
  destruct (int_of_float (fmul (fdiv x fn) f1_5)) as [h|]; [|discriminate]. cbn.
  intros [= <- <-]. lia.
Qed.

(** X11. Whatever the budget says, a band that is computed asks for at
    least 20 a night at the lower end and at least 40 at the upper end;
    a band around the nightly average of a total budget is moreover at
    least 20 wide. *)
Theorem nightly_band_floors budget doc lo hi :
  nightly_range budget doc = Ok (lo, hi) ->
  20 <= lo /\ 40 <= hi
  /\ (20 <= fst (infer_rate_range budget) /\ 40 <= snd (infer_rate_range budget))
  /\ ((lo, hi) = infer_rate_range budget \/ lo + 20 <= hi).
Proof.
  pose proof (infer_rate_range_floors budget) as Hf.
  unfold nightly_range. destruct (infer_rate_range budget) as [l h]. cbn [fst snd] in Hf.
  assert (Hplain : Ok (l, h) = Ok (lo, hi) ->
                   20 <= lo /\ 40 <= hi /\ (20 <= l /\ 40 <= h)
                   /\ ((lo, hi) = (l, h) \/ lo + 20 <= hi)).
  { intros [= <- <-]. repeat split; try lia. left. reflexivity. }
  destruct (match budget with Some s => float_of_string s | None => None end) as [x|];
    [|exact Hplain].
  destruct (float_truthy x && float_gt x f500); [|exact Hplain].
  destruct (get_default doc "itinerary" (JArr [])) as [days|]; [|discriminate]. cbn.
  destruct (len_exn days) as [n|]; [|discriminate]. cbn.
  intros Hb. apply band_around_floors in Hb.
  split; [lia|]. split; [lia|]. split; [lia|]. right. lia.
Qed.

Lemma nightly_band_floors_witness :
  20 <= 100 /\ 40 <= 300
  /\ (20 <= fst (infer_rate_range (Some "600")) /\ 40 <= snd (infer_rate_range (Some "600")))
  /\ ((100, 300) = infer_rate_range (Some "600") \/ 100 + 20 <= 300).
Proof.
  apply (nightly_band_floors (Some "600") (doc_with_days 3) 100 300).
  vm_compute. reflexivity.
Defined.

Lemma infer_rate_range_blank s :
  lower (strip s) = EmptyString -> infer_rate_range (Some s) = (20, 500).
Proof.
  intros E. unfold infer_rate_range. destruct (negb (PyStr.truthy s)); [reflexivity|].
  rewrite E. reflexivity.
Qed.

Lemma infer_rate_range_normal s s' :
  lower (strip s) = lower (strip s') ->
  infer_rate_range (Some s) = infer_rate_range (Some s').
Proof.
  intros E. destruct s as [|c s].
  - symmetry. apply infer_rate_range_blank. rewrite <- E. reflexivity.
  - destruct s' as [|c' s'].
    + apply infer_rate_range_blank. rewrite E. reflexivity.
    + unfold infer_rate_range. cbn [PyStr.truthy negb]. rewrite E. reflexivity.
Qed.



(** Shifting right keeps a mantissa that is not negative so. *)
Lemma shr_1_nonneg mrs : 0 <= shr_m mrs -> 0 <= shr_m (shr_1 mrs).
Proof.
  destruct mrs as [m r s]. cbn. destruct m as [|[p|p|]|p]; cbn; lia.
Qed.

Lemma iter_shr_nonneg p : forall mrs,
  0 <= shr_m mrs -> 0 <= shr_m (SpecFloat.iter_pos shr_1 p mrs).
Proof.
  induction p as [p IH|p IH|]; intros mrs Hm; cbn.
  - apply IH, IH, shr_1_nonneg, Hm.
  - apply IH, IH, Hm.
  - apply shr_1_nonneg, Hm.
Qed.

Lemma shr_fexp_nonneg m e l :
  0 <= m -> 0 <= shr_m (fst (shr_fexp prec emax m e l)).
Proof.
  intros Hm. unfold shr_fexp, shr.
  assert (H0 : 0 <= shr_m (shr_record_of_loc m l)).
  { destruct l as [|[]]; exact Hm. }
  destruct (fexp prec emax (Zdigits2 m + e) - e); cbn [fst]; try exact H0.
  apply iter_shr_nonneg, H0.
Qed.

Lemma round_nearest_even_nonneg m l : 0 <= m -> 0 <= round_nearest_even m l.
Proof.
  intros Hm. destruct l as [|[]]; cbn; try lia. destruct (Z.even m); lia.
Qed.

Lemma binary_round_aux_not_nan sx m e l :
  0 <= m -> binary_round_aux prec emax sx m e l <> S754_nan.
Proof.
  intros Hm. unfold binary_round_aux.
  pose proof (shr_fexp_nonneg m e l Hm) as H1.
  destruct (shr_fexp prec emax m e l) as [mrs1 e1]. cbn [fst] in H1.
  pose proof (shr_fexp_nonneg _ e1 loc_Exact
                (round_nearest_even_nonneg _ (loc_of_shr_record mrs1) H1)) as H2.
  destruct (shr_fexp prec emax _ e1 loc_Exact) as [mrs2 e2]. cbn [fst] in H2.
  destruct (shr_m mrs2) as [|p|p]; [discriminate| |lia].
  destruct (e2 <=? emax - prec); discriminate.
Qed.

(** The float of an integer is a number. *)
Lemma float_of_int_number n y :
  float_of_int n = Ok y ->
  match y with
  | S754_zero _ | S754_finite _ _ _ => True
  | _ => False
  end.
Proof.
  unfold float_of_int.
  assert (Hn : binary_normalize prec emax n 0 false <> S754_nan).
  { destruct n as [|p|p]; cbn [binary_normalize]; [discriminate| |];
      unfold binary_round; destruct (shl_align _ _ _) as [mz ez];
      apply binary_round_aux_not_nan; lia. }
  destruct (binary_normalize prec emax n 0 false); try discriminate;
    intros [= <-]; try exact I. contradiction Hn. reflexivity.
Qed.

Lemma band_around_infinite sign n :
  band_around (S754_infinity sign) n = Raise OverflowError.
Proof.
  unfold band_around.
  destruct (float_of_int (Z.max 1 n)) as [fn|e] eqn:E.
  - apply float_of_int_number in E. destruct fn; try contradiction; reflexivity.
  - unfold float_of_int in E.
    destruct (binary_normalize prec emax (Z.max 1 n) 0 false); try discriminate.
    injection E as <-. reflexivity.
Qed.



End BandFacts.

(** ** The itinerary tools *)

Section ToolFacts.
Import PyStr Json Agents Dates Storage Itinerary Tools.
Context `{JsonLib} `{Database}.

Lemma update_tool_resolved ctx st text cid conv :
  opt_or cid (conversation_id ctx) = Some conv -> PyStr.truthy conv = true ->
  update_itinerary_json_tool ctx st text cid
  = (fst (write_itinerary_json st conv text),
     _ ← snd (write_itinerary_json st conv text); Ok text)
  /\ read_itinerary_json_tool ctx st cid = read_itinerary_json st conv.
Proof.
  intros Hc Ht. unfold update_itinerary_json_tool, read_itinerary_json_tool.
  rewrite Hc. cbn [opt_truthy]. rewrite Ht. cbn [negb default from_option id].
  unfold _update_itinerary_json, _read_itinerary_json.
  destruct (write_itinerary_json st conv text). split; reflexivity.
Qed.


(** The id [create_itinerary_json_tool] works with. *)
Lemma create_id_truthy fresh ctx cid :
  PyStr.truthy fresh = true ->
  PyStr.truthy
    (default fresh (opt_or cid (opt_or (conversation_id ctx) (Some fresh)))) = true.
Proof.
  intros Hf. unfold opt_or.
  destruct cid as [c|]; cbn [opt_truthy].
  - destruct (PyStr.truthy c) eqn:Hc; [exact Hc|].
    destruct (conversation_id ctx) as [c'|]; cbn [opt_truthy]; [|exact Hf].
    destruct (PyStr.truthy c') eqn:Hc'; [exact Hc' | exact Hf].
  - destruct (conversation_id ctx) as [c'|]; cbn [opt_truthy]; [|exact Hf].
    destruct (PyStr.truthy c') eqn:Hc'; [exact Hc' | exact Hf].
Qed.

(** X15. A created itinerary is found again through the context alone:
    when [create_itinerary_json_tool] returns, the context it leaves
    carries a non-empty conversation id (the explicit one, else the
    context's, else the fresh one), and the read tool called with that
    context and no explicit id returns what the backend keeps for the
    text just created. *)
Theorem created_itinerary_read_back fresh ctx st plans description cid ctx' st' text :
  PyStr.truthy fresh = true ->
  create_itinerary_json_tool fresh ctx st plans description cid = (ctx', st', Ok text) ->
  opt_truthy (conversation_id ctx') = true
  /\ conversation_id ctx'
     = Some (default fresh (opt_or cid (opt_or (conversation_id ctx) (Some fresh))))
  /\ read_itinerary_json_tool ctx' st' None = Ok (persisted st text).
Proof.
  intros Hf. unfold create_itinerary_json_tool.
  destruct (build_itinerary ctx plans description) as [doc|e]; [|discriminate].
  set (conv := default fresh _).
  pose proof (create_id_truthy fresh ctx cid Hf) as Hconv. fold conv in Hconv.
  destruct (write_itinerary_json st conv _) as [st1 r] eqn:W.
  intros [= <- <- ->].
  destruct (write_ok_inv _ _ _ _ _ W) as [-> Hjson].
  destruct (write_accepts st conv _ Hjson) as (_ & _ & Hdoc & _).
  rewrite W in Hdoc. cbn [fst] in Hdoc.
  cbn [conversation_id with_conversation_id opt_truthy].
  split; [exact Hconv|]. split; [reflexivity|].
  unfold read_itinerary_json_tool, opt_or.
  cbn [opt_truthy conversation_id with_conversation_id]. rewrite Hconv.
  cbn [negb default from_option id]. unfold _read_itinerary_json.
  rewrite read_document_of, Hdoc. reflexivity.
Qed.

(** X16. Dates that do not describe a stay are handled unevenly.  An
    end date before the start date is no error: the document is built
    with no day at all and a [duration_days] of zero or less.  A start
    or end date that [strptime] rejects raises [ValueError], and
    the tool then leaves the context and the store as they were. *)
Theorem creation_with_odd_dates :
  (forall ctx plans description dest s e d0 d1,
     destination ctx = Some dest -> PyStr.truthy dest = true ->
     start_date ctx = Some s -> end_date ctx = Some e ->
     strptime s = Some d0 -> strptime e = Some d1 ->
     toordinal d1 < toordinal d0 ->
     build_itinerary ctx plans description
     = Ok {| out_destination := dest;
             description := description;
             out_start_date := s;
             out_end_date := e;
             duration_days := days_between d0 d1 + 1;
             itinerary := [] |}
     /\ days_between d0 d1 + 1 <= 0)
  /\ (forall fresh ctx st plans description cid dest s e,
       destination ctx = Some dest -> PyStr.truthy dest = true ->
       start_date ctx = Some s -> PyStr.truthy s = true ->
       end_date ctx = Some e -> PyStr.truthy e = true ->
       strptime s = None \/ strptime e = None ->
       exists msg,
         create_itinerary_json_tool fresh ctx st plans description cid
         = (ctx, st, Raise (ValueError msg))).
Proof.
  split.
  - intros ctx plans description dest s e d0 d1 Hdest Ht Hs He Hd0 Hd1 Hlt.
    assert (Hs' : PyStr.truthy s = true) by (destruct s; [discriminate Hd0 | reflexivity]).
    assert (He' : PyStr.truthy e = true) by (destruct e; [discriminate Hd1 | reflexivity]).
    unfold build_itinerary. rewrite Hdest, Hs, He. cbn [opt_truthy default from_option id].
    rewrite Ht, Hs', He'. cbn [andb].
    unfold strptime_exn. rewrite Hd0, Hd1. cbn.
    unfold days_between.
    assert (Hnil : seqZ 0 (toordinal d1 - toordinal d0 + 1) = []).
    { unfold seqZ. replace (Z.to_nat (toordinal d1 - toordinal d0 + 1)) with 0%nat by lia.
      reflexivity. }
    rewrite Hnil. cbn. split; [reflexivity | lia].
  - intros fresh ctx st plans description cid dest s e Hdest Ht Hs Hs' He He' Hbad.
    unfold create_itinerary_json_tool, build_itinerary.
    rewrite Hdest, Hs, He. cbn [opt_truthy default from_option id].
    rewrite Ht, Hs', He'. cbn [andb]. unfold strptime_exn.
    destruct (strptime s) as [d0|]; [|cbn; eauto].
    destruct Hbad as [Hbad | Hbad]; [discriminate Hbad|]. rewrite Hbad. cbn. eauto.
Qed.

End ToolFacts.

Section ToolExamples.
Import PyStr Json Agents Dates Storage Itinerary Tools.


Lemma created_itinerary_read_back_witness :
  opt_truthy (conversation_id
                (@create_itinerary_json_tool Samples.three_day_json Demo.identity_db
                   "f00d" Demo.three_days Samples.empty_store Demo.three_day_plans
                   "Paris in June" None).1.1) = true
  /\ conversation_id
       (@create_itinerary_json_tool Samples.three_day_json Demo.identity_db
          "f00d" Demo.three_days Samples.empty_store Demo.three_day_plans
          "Paris in June" None).1.1
     = Some "c1"
  /\ @read_itinerary_json_tool
       (@create_itinerary_json_tool Samples.three_day_json Demo.identity_db
          "f00d" Demo.three_days Samples.empty_store Demo.three_day_plans
          "Paris in June" None).1.1
       (@create_itinerary_json_tool Samples.three_day_json Demo.identity_db
          "f00d" Demo.three_days Samples.empty_store Demo.three_day_plans
          "Paris in June" None).1.2
       None
     = Ok "three days".
Proof.
  apply (@created_itinerary_read_back Samples.three_day_json Demo.identity_db
           "f00d" Demo.three_days Samples.empty_store Demo.three_day_plans
           "Paris in June" None _ _ "three days"); [reflexivity|].
  vm_compute. reflexivity.
Defined.

Lemma creation_with_odd_dates_witness :
  build_itinerary
    (update_context_tool Demo.three_days None (Some "2025-07-02") None None None None None)
    Demo.three_day_plans "Backwards"
  = Ok {| out_destination := "Paris";
          description := "Backwards";
          out_start_date := "2025-07-02";
          out_end_date := "2025-07-01";
          duration_days :=
            days_between {| year := 2025; month := 7; day := 2 |}
              {| year := 2025; month := 7; day := 1 |} + 1;
          itinerary := [] |}
  /\ days_between {| year := 2025; month := 7; day := 2 |}
       {| year := 2025; month := 7; day := 1 |} + 1 <= 0.
Proof.
  apply (proj1 (@creation_with_odd_dates Demo.no_json Demo.identity_db)
           (update_context_tool Demo.three_days None (Some "2025-07-02") None None None
              None None)
           Demo.three_day_plans "Backwards" "Paris" "2025-07-02" "2025-07-01");
    reflexivity.
Defined.

End ToolExamples.

(** ** The console loop of main.py against the loop of [chat] *)

Section ConsoleFacts.
Import PyStr Json Agents Display Orchestrator.
Context `{JsonLib} `{Runtime}.

Lemma display_needs_object text v :
  json_loads text = Some v -> is_dict v = false ->
  format_itinerary_for_display text = Raise TypeError.
Proof.
  intros Hv Hd. unfold format_itinerary_for_display, loads_exn. rewrite Hv.
  destruct v; try discriminate Hd; reflexivity.
Qed.

(** X17. main.py shows every JSON text through the itinerary renderer
    and catches [JSONDecodeError] only: a tool output, or a message that
    is no handoff marker, whose text parses to JSON that is not an
    object (a number, a list, [null]) ends the loop, and with it the
    pass, with [TypeError], once the items before it have been
    processed.  The API renders the same item without failing. *)
Theorem console_stops_on_other_json cid st st1 pre item rest text v :
  Forall (fun i => is_marker i = false) pre ->
  main_loop cid st pre = Ok st1 ->
  json_loads text = Some v -> is_dict v = false ->
  (exists a, item = ToolCallOutputItem a text)
  \/ (exists a, item = MessageOutputItem a text
                /\ PyStr.truthy text = true /\ handoff_target text = None) ->
  main_loop cid st (pre ++ item :: rest) = Raise TypeError
  /\ (forall msg ctx1 response,
        main_run st msg = (ctx1, RunReturns response) ->
        new_items response = item :: rest ->
        main_turn cid st msg = Raise TypeError)
  /\ (_format_message item = text
       \/ exists a, _format_message item = name a +:+ ": Tool completed.").
Proof.
  intros Hpre Hst1 Hv Hd Hitem.
  pose proof (display_needs_object text v Hv Hd) as Hshow.
  assert (Hhead : forall st0, main_loop cid st0 (item :: rest) = Raise TypeError).
  { intros st0. destruct Hitem as [[a ->] | (a & -> & Ht & Hh)]; cbn [main_loop].
    - rewrite Hv, Hshow. reflexivity.
    - rewrite Ht, Hh, Hv, Hshow. reflexivity. }
  repeat apply conj.
  - rewrite (main_loop_app cid pre st (item :: rest) Hpre), Hst1. apply Hhead.
  - intros msg ctx1 response Hrun Hnew. unfold main_turn. rewrite Hrun, Hnew, Hhead.
    reflexivity.
  - assert (Hkeys : has_itinerary_keys (Some v) = false).
    { destruct v; try reflexivity. discriminate Hd. }
    destruct Hitem as [[a ->] | (a & -> & Ht & Hh)]; cbn [_format_message].
    + right. exists a. rewrite Hv, Hkeys. reflexivity.
    + left. rewrite Ht, Hv, Hkeys. reflexivity.
Qed.

Lemma main_loop_no_marker cid items : forall st st',
  Forall (fun i => is_marker i = false) items ->
  main_loop cid st items = Ok st' ->
  main_agent st' = default (main_agent st) (last (omap signal items))
  /\ input_items st'
     = input_items st
       ++ ((fun _ => system_entry cid) <$> omap signal items)
  /\ main_context st' = main_context st.
Proof.
  induction items as [|item rest IH]; intros st st' Hno Hloop.
  - injection Hloop as <-. cbn. rewrite app_nil_r. auto.
  - apply Forall_cons in Hno as [Hi Hno]. rewrite omap_signal_cons.
    destruct item as [a text|s t|a|a output|]; cbn [main_loop] in Hloop; cbn [signal].
    + assert (Hh : handoff_target text = None).
      { cbn in Hi. apply bool_decide_eq_false in Hi.
        destruct (handoff_target text); [contradiction Hi; eauto | reflexivity]. }
      rewrite Hh in *.
      destruct (PyStr.truthy text); [|exact (IH _ _ Hno Hloop)].
      destruct (json_loads text); [|exact (IH _ _ Hno Hloop)].
      destruct (format_itinerary_for_display text); [|discriminate Hloop].
      exact (IH _ _ Hno Hloop).
    + destruct (IH _ _ Hno Hloop) as (Ha & Hi' & Hc). cbn in Ha, Hi', Hc.
      rewrite Ha, Hi', Hc, last_cons_default. cbn [fmap list_fmap].
      rewrite <- app_assoc. auto.
    + exact (IH _ _ Hno Hloop).
    + destruct (json_loads output); [|exact (IH _ _ Hno Hloop)].
      destruct (format_itinerary_for_display output); [|discriminate Hloop].
      exact (IH _ _ Hno Hloop).
    + exact (IH _ _ Hno Hloop).
Qed.

(** X18. On a run with no recognised text marker the console loop and
    the loop of [chat] agree on the agent: both end on the target of the
    last native handoff, or stay where they were.  They differ in the
    input list: the console appends one system entry with the
    conversation id per native handoff, [chat] appends none. *)
Theorem console_and_chat_agree cid st st' items lst :
  Forall (fun i => is_marker i = false) items ->
  main_loop cid st items = Ok st' ->
  new_current_agent lst = main_agent st ->
  main_agent st' = new_current_agent (chat_loop cid lst items)
  /\ loop_items (chat_loop cid lst items) = loop_items lst
  /\ input_items st'
     = input_items st ++ replicate (length (omap signal items)) (system_entry cid).
Proof.
  intros Hno Hloop Hsame.
  destruct (main_loop_no_marker cid items st st' Hno Hloop) as (Ha & Hi & _).
  rewrite chat_loop_agent, chat_loop_items, (no_marker_filter _ Hno), Hsame.
  cbn. rewrite app_nil_r. repeat split; [exact Ha|].
  rewrite Hi. f_equal. clear. induction (omap signal items) as [|x l IH]; [reflexivity|].
  cbn. f_equal. exact IH.
Qed.

End ConsoleFacts.

Section ConsoleExamples.
Import PyStr Json Agents Display Orchestrator.

Lemma console_stops_on_other_json_witness :
  @main_loop (Demo.table_json [("42", JInt 42)]) "c1"
    {| main_agent := itinerary_agent; input_items := [];
       main_context := empty_context; printed := [] |}
    ([] ++ ToolCallOutputItem itinerary_agent "42" :: []) = Raise TypeError.
Proof.
  apply (@console_stops_on_other_json (Demo.table_json [("42", JInt 42)])
           (Demo.scripted []) "c1"
           {| main_agent := itinerary_agent; input_items := [];
              main_context := empty_context; printed := [] |}
           {| main_agent := itinerary_agent; input_items := [];
              main_context := empty_context; printed := [] |}
           [] (ToolCallOutputItem itinerary_agent "42") []
           "42" (JInt 42)); [constructor | reflexivity | reflexivity | reflexivity |].
  left. exists itinerary_agent. reflexivity.
Defined.

Lemma console_and_chat_agree_witness :
  booking_agent
  = new_current_agent
      (@chat_loop Demo.no_json "c1"
         {| bot_response := []; new_current_agent := itinerary_agent; loop_items := [] |}
         [HandoffOutputItem itinerary_agent booking_agent])
  /\ loop_items
       (@chat_loop Demo.no_json "c1"
          {| bot_response := []; new_current_agent := itinerary_agent; loop_items := [] |}
          [HandoffOutputItem itinerary_agent booking_agent]) = []
  /\ [system_entry "c1"]
     = [] ++ replicate (length (omap signal [HandoffOutputItem itinerary_agent booking_agent]))
               (system_entry "c1").
Proof.
  refine (@console_and_chat_agree Demo.no_json "c1"
           {| main_agent := itinerary_agent; input_items := [];
              main_context := empty_context; printed := [] |}
           {| main_agent := booking_agent;
              input_items := [system_entry "c1"];
              main_context := empty_context;
              printed := [nl +:+ ">>> Handed off to " +:+ name booking_agent +:+ nl] |}
           [HandoffOutputItem itinerary_agent booking_agent]
           {| bot_response := []; new_current_agent := itinerary_agent; loop_items := [] |}
           _ eq_refl eq_refl).
  repeat constructor.
Defined.

End ConsoleExamples.

(** ** The chat window of app.py against the API *)

Section UiFacts.
Import PyStr Json Agents Display Orchestrator App Ui.
Context `{JsonLib} `{Runtime}.

Lemma app_assoc_str (a b c : string) : (a +:+ b) +:+ c = a +:+ (b +:+ c).
Proof.
  induction a as [|x a IH]; [reflexivity|]. rewrite !app_cons, IH. reflexivity.
Qed.

Lemma app_empty_r (a : string) : a +:+ EmptyString = a.
Proof. induction a as [|x a IH]; [reflexivity|]. rewrite app_cons, IH. reflexivity. Qed.

Lemma lines_snoc l part : lines (l ++ [part]) = lines l +:+ (part +:+ nl).
Proof.
  unfold lines. induction l as [|p l IH]; cbn [app foldr].
  - rewrite app_empty, app_empty_r. reflexivity.
  - rewrite IH, !app_assoc_str. reflexivity.
Qed.

Lemma lines_join l : l <> [] -> lines l = join nl l +:+ nl.
Proof.
  induction l as [|p [|q r] IH]; intros Hne; [contradiction Hne; reflexivity| |].
  - cbn. rewrite app_empty_r. reflexivity.
  - change (lines (p :: q :: r)) with (p +:+ (nl +:+ lines (q :: r))).
    rewrite IH by discriminate.
    change (join nl (p :: q :: r)) with (p +:+ nl +:+ join nl (q :: r)).
    rewrite !app_assoc_str. reflexivity.
Qed.

Lemma strip_lines l : strip (lines l) = strip (join nl l).
Proof.
  destruct l as [|p l]; [reflexivity|].
  rewrite lines_join by discriminate.
  apply (strip_pad EmptyString nl); reflexivity.
Qed.

(** The two loops in step, as long as both renderers give the same text
    for the items seen. *)
Lemma respond_loop_chat_loop cid new : forall ust st,
  Forall (fun item => format_message item = _format_message item) new ->
  ui_agent ust = new_current_agent st ->
  ui_items ust = loop_items st ->
  ui_response ust = lines (bot_response st) ->
  ui_agent (respond_loop cid ust new) = new_current_agent (chat_loop cid st new)
  /\ ui_items (respond_loop cid ust new) = loop_items (chat_loop cid st new)
  /\ ui_response (respond_loop cid ust new) = lines (bot_response (chat_loop cid st new)).
Proof.
  unfold respond_loop, chat_loop.
  induction new as [|item rest IH]; intros ust st Hsame Ha Hi Hr; [auto|].
  apply Forall_cons in Hsame as [Hitem Hrest]. cbn [foldl].
  apply (IH _ _ Hrest); unfold respond_step, chat_step; rewrite Hitem;
    destruct item as [a text|s t|a|a output|];
    try destruct (handoff_target text);
    cbn [ui_agent ui_items ui_response new_current_agent loop_items bot_response];
    rewrite ?Ha, ?Hi, ?Hr; try reflexivity;
    (destruct (PyStr.truthy _); [rewrite lines_snoc|]; reflexivity).
Qed.

(** X19. The chat window and the API answer a turn alike whenever
    their renderers give the same text for each item of the run: with
    the state of a session as its arguments, [respond] returns the
    agent, the input list and the context [chat] leaves in the session,
    and appends to the history the reply [chat] returns, although one
    builds the reply by appending lines and the other by joining them.
    When the run raises, both pass the exception on. *)
Theorem respond_mirrors_chat session msg history :
  match chat_run session msg with
  | (ctx1, RunReturns response) =>
      Forall (fun item => format_message item = _format_message item)
        (new_items response) ->
      exists r,
        snd (chat_turn session msg) = Ok r
        /\ respond msg history (current_agent session) (items session)
             (context session) (session_id session)
           = Ok (history ++ [(msg, reply r)],
                 current_agent (fst (chat_turn session msg)),
                 items (fst (chat_turn session msg)),
                 context (fst (chat_turn session msg)))
  | (ctx1, RunRaises e) =>
      snd (chat_turn session msg) = Raise e
      /\ respond msg history (current_agent session) (items session)
           (context session) (session_id session) = Raise e
  end.
Proof.
  unfold chat_turn, respond. unfold chat_run, chat_context.
  destruct (Runner_run _ _ _) as [ctx1 [e|response]]; [split; reflexivity|].
  intros Hsame. eexists. split; [reflexivity|]. cbn [fst reply current_agent items context].
  match goal with
  | |- context [respond_loop ?cid ?ust ?new] =>
      destruct (respond_loop_chat_loop cid new ust
                  {| bot_response := []; new_current_agent := current_agent session;
                     loop_items := items session ++ [user_entry msg] |}
                  Hsame eq_refl eq_refl eq_refl) as (Ha & Hi & Hr)
  end.
  rewrite Ha, Hi, Hr, strip_lines. reflexivity.
Qed.

Lemma prose_not_extracted text :
  no_backquote text = true ->
  startswith (strip text) "{" || startswith (strip text) "[" = false ->
  _try_extract_json text = None.
Proof.
  intros Hq Hb. unfold _try_extract_json.
  destruct (negb (PyStr.truthy text)); [reflexivity|].
  rewrite (no_backquote_search _ Hq), Hb. reflexivity.
Qed.

(** X20. Where the two renderers agree.  [format_message] of app.py
    and [_format_message] of api.py give the same text for every
    handoff and tool-call item; for a tool output unless it parses to an
    object that has the four itinerary keys with an [itinerary] that is
    no list; and for a message that the window does not take for JSON
    and the API does not take for an itinerary, which covers prose: text
    with no backquote that does not start with a brace or a bracket and
    is not JSON. *)
Theorem renderers_agree :
  (forall item,
     match item with
     | MessageOutputItem _ _ | ToolCallOutputItem _ _ => True
     | _ => format_message item = _format_message item
     end)
  /\ (forall a output,
       (forall fields,
          json_loads output = Some (JObj fields) ->
          has_itinerary_keys (Some (JObj fields)) = true ->
          is_list (default JNull (dict_get fields "itinerary")) = true) ->
       format_message (ToolCallOutputItem a output)
       = _format_message (ToolCallOutputItem a output))
  /\ (forall a text,
       _try_extract_json text = None ->
       has_itinerary_keys (json_loads text) = false ->
       format_message (MessageOutputItem a text) = _format_message (MessageOutputItem a text))
  /\ (forall a text,
       no_backquote text = true ->
       startswith (strip text) "{" || startswith (strip text) "[" = false ->
       json_loads text = None ->
       format_message (MessageOutputItem a text) = text
       /\ _format_message (MessageOutputItem a text) = text).
Proof.
  repeat apply conj.
  - intros []; auto.
  - intros a output Hlist. cbn [format_message _format_message].
    destruct (json_loads output) as [parsed|] eqn:E; [|reflexivity].
    destruct parsed as [| | | | | |fields]; try reflexivity.
    cbn [is_none negb andb].
    unfold _is_itinerary_like.
    destruct (has_itinerary_keys (Some (JObj fields))) eqn:K.
    + rewrite (Hlist fields eq_refl K). unfold has_itinerary_keys, itinerary_keys in K.
      rewrite K. reflexivity.
    + unfold has_itinerary_keys, itinerary_keys in K. rewrite K. reflexivity.
  - intros a text Hnone Hkeys. cbn [format_message _format_message].
    destruct (negb (PyStr.truthy text)); [reflexivity|].
    rewrite Hnone. destruct (json_loads text) as [v|]; [|reflexivity].
    rewrite Hkeys. reflexivity.
  - intros a text Hq Hb Hj. cbn [format_message _format_message].
    rewrite (prose_not_extracted text Hq Hb), Hj.
    destruct text; split; reflexivity.
Qed.

End UiFacts.

Section UiExamples.
Import PyStr Json Agents Display Orchestrator App Ui.

Lemma respond_mirrors_chat_witness :
  exists r,
    snd (@chat_turn Demo.no_json (Demo.scripted Demo.native_then_marker)
           (new_session "c1") "hello") = Ok r
    /\ @respond Demo.no_json (Demo.scripted Demo.native_then_marker) "hello" []
         user_preferences_agent [] (with_conversation_id empty_context (Some "c1")) "c1"
       = Ok ([] ++ [("hello", reply r)],
             current_agent (fst (@chat_turn Demo.no_json
                                   (Demo.scripted Demo.native_then_marker)
                                   (new_session "c1") "hello")),
             items (fst (@chat_turn Demo.no_json
                           (Demo.scripted Demo.native_then_marker)
                           (new_session "c1") "hello")),
             context (fst (@chat_turn Demo.no_json
                             (Demo.scripted Demo.native_then_marker)
                             (new_session "c1") "hello"))).
Proof.
  apply (@respond_mirrors_chat Demo.no_json (Demo.scripted Demo.native_then_marker)
           (new_session "c1") "hello" []).
  repeat constructor.
Defined.

Lemma renderers_agree_witness :
  @format_message Demo.no_json (MessageOutputItem summary_agent "Enjoy your trip!")
  = "Enjoy your trip!"
  /\ @_format_message Demo.no_json (MessageOutputItem summary_agent "Enjoy your trip!")
     = "Enjoy your trip!".
Proof.
  destruct (@renderers_agree Demo.no_json) as (_ & _ & _ & Hprose).
  apply Hprose; reflexivity.
Defined.

End UiExamples.

(** ** Rendering what the tools store *)

Section DisplayFacts.
Import PyStr Json Agents Storage Display Orchestrator Itinerary Enrichment.
Context `{JsonLib} `{Database}.

Lemma mapM_as_str (l : list string) : mapM as_str (JStr <$> l) = Ok l.
Proof.
  induction l as [|x l IH]; [reflexivity|].
  cbn. cbn in IH. rewrite IH. reflexivity.
Qed.

Lemma format_day_typed d : exists shown, format_day (day_to_json d) = Ok shown.
Proof.
  unfold format_day, day_to_json, join_value, str_list. cbn.
  rewrite mapM_as_str. cbn. eauto.
Qed.

Lemma format_days_typed days :
  exists shown, format_days (day_to_json <$> days) = Ok shown.
Proof.
  induction days as [|d days [rest IH]]; [cbn; eauto|].
  destruct (format_day_typed d) as [first Hd].
  cbn [fmap list_fmap format_days]. cbn [fmap list_fmap] in IH.
  rewrite Hd, IH. cbn. eauto.
Qed.

Lemma typed_document_renders doc text :
  json_loads text = Some (to_json doc) ->
  exists shown, format_itinerary_for_display text = Ok shown.
Proof.
  intros Hv. destruct (format_days_typed (itinerary doc)) as [body Hb].
  unfold format_itinerary_for_display, loads_exn. rewrite Hv.
  unfold to_json. cbn. cbn in Hb. rewrite Hb. cbn. eauto.
Qed.

(** X21. What the creation tool stores can always be shown.  When the
    context admits an itinerary and the JSON library reads back what it
    wrote, [create_itinerary_json_tool] returns a text that
    [format_itinerary_for_display] renders without an exception, so the
    console loop of main.py prints it and goes on to the next item, and
    the API shows the rendering rather than a placeholder. *)
Theorem created_itinerary_renders fresh ctx st plans description cid doc :
  build_itinerary ctx plans description = Ok doc ->
  json_loads (json_dumps_indent (to_json doc)) = Some (to_json doc) ->
  exists ctx' st' text shown,
    create_itinerary_json_tool fresh ctx st plans description cid = (ctx', st', Ok text)
    /\ format_itinerary_for_display text = Ok shown
    /\ forall `{Runtime} conv st0 a rest,
         main_loop conv st0 (ToolCallOutputItem a text :: rest)
         = main_loop conv
             (say (say st0 [name a +:+ ": Tool call output"]) ["Itinerary Updated:"; shown])
             rest.
Proof.
  intros Hdoc Hjson.
  destruct (typed_document_renders doc _ Hjson) as [shown Hshown].
  unfold create_itinerary_json_tool. rewrite Hdoc.
  set (conv := default fresh _).
  destruct (write_accepts st conv _ (ex_intro _ _ Hjson)) as (Hret & _).
  destruct (write_itinerary_json st conv _) as [st' r]. cbn in Hret. subst r.
  do 4 eexists. split; [reflexivity|]. split; [exact Hshown|].
  intros R conv0 st0 a rest. cbn [main_loop]. rewrite Hjson, Hshown. reflexivity.
Qed.

Lemma getitem_same f f' k :
  k <> "accommodation" ->
  (forall k, k <> "accommodation" -> dict_get f' k = dict_get f k) ->
  getitem (JObj f') k = getitem (JObj f) k.
Proof. intros Hk Hsame. unfold getitem. rewrite (Hsame k Hk). reflexivity. Qed.

Lemma format_day_same day day' shown :
  same_but_accommodation day day' ->
  format_day day = Ok shown ->
  exists shown', format_day day' = Ok shown'.
Proof.
  intros (f & f' & -> & -> & _ & Hsame). unfold format_day.
  rewrite !(getitem_same f f') by (exact Hsame || discriminate).
  destruct (getitem (JObj f) "day_number"); [|intros E; discriminate E].
  rewrite !bind_ok.
  destruct (getitem (JObj f) "date"); [|intros E; discriminate E].
  rewrite !bind_ok.
  destruct (getitem (JObj f) "location"); [|intros E; discriminate E].
  rewrite !bind_ok.
  destruct (getitem (JObj f) "activities") as [acts|]; [|intros E; discriminate E].
  rewrite !bind_ok.
  destruct (join_value acts); [|intros E; discriminate E].
  rewrite !bind_ok.
  destruct (getitem (JObj f) "transportation"); [|intros E; discriminate E].
  rewrite !bind_ok. cbn [get]. rewrite !bind_ok.
  destruct (getitem (JObj f) "notes"); [|intros E; discriminate E].
  rewrite !bind_ok. eauto.
Qed.

Lemma format_days_same days days' :
  Forall2 same_but_accommodation days days' ->
  forall shown, format_days days = Ok shown ->
  exists shown', format_days days' = Ok shown'.
Proof.
  induction 1 as [|day day' days days' Hd _ IH]; intros shown; [cbn; eauto|].
  cbn [format_days].
  destruct (format_day day) as [first|] eqn:E1; cbn; [|discriminate].
  destruct (format_days days) as [others|] eqn:E2; cbn; [|discriminate]. intros _.
  destruct (format_day_same _ _ _ Hd E1) as [first' ->].
  destruct (IH _ eq_refl) as [others' ->]. cbn. eauto.
Qed.

End DisplayFacts.

(** ** Laws of the enrichment *)

Section EnrichmentLaws.
Import PyStr Json Agents Dates Storage CityResolver Budget Display Enrichment Laws.
Context `{JsonLib} `{Database} `{AgodaConfig} `{HttpClient}.

Lemma bind_raise {A B} (e : exn) (k : A -> result B) : (Raise e ≫= k) = Raise e.
Proof. reflexivity. Qed.

Lemma header_same fields updated k :
  k <> "itinerary" ->
  getitem (JObj (dict_set fields "itinerary" (JArr updated))) k = getitem (JObj fields) k.
Proof. intros Hk. unfold getitem. rewrite dict_get_set_ne by exact Hk. reflexivity. Qed.

Lemma enriched_value_renders text text' fields days updated shown :
  json_loads text = Some (JObj fields) ->
  iterate (default (JArr []) (dict_get fields "itinerary")) = Ok days ->
  Forall2 same_but_accommodation days updated ->
  json_loads text' = Some (JObj (dict_set fields "itinerary" (JArr updated))) ->
  format_itinerary_for_display text = Ok shown ->
  exists shown', format_itinerary_for_display text' = Ok shown'.
Proof.
  intros Hv Hdays Hsame Hv'. unfold format_itinerary_for_display.
  assert (L : loads_exn text = Ok (JObj fields)) by (unfold loads_exn; rewrite Hv; reflexivity).
  assert (L' : loads_exn text' = Ok (JObj (dict_set fields "itinerary" (JArr updated))))
    by (unfold loads_exn; rewrite Hv'; reflexivity).
  rewrite L, L', !bind_ok.
  rewrite (header_same fields updated "destination") by discriminate.
  rewrite (header_same fields updated "description") by discriminate.
  rewrite (header_same fields updated "start_date") by discriminate.
  rewrite (header_same fields updated "end_date") by discriminate.
  rewrite (header_same fields updated "duration_days") by discriminate.
  destruct (getitem (JObj fields) "destination"); [|rewrite bind_raise; discriminate].
  rewrite !bind_ok.
  destruct (getitem (JObj fields) "description"); [|rewrite bind_raise; discriminate].
  rewrite !bind_ok.
  destruct (getitem (JObj fields) "start_date"); [|rewrite bind_raise; discriminate].
  rewrite !bind_ok.
  destruct (getitem (JObj fields) "end_date"); [|rewrite bind_raise; discriminate].
  rewrite !bind_ok.
  destruct (getitem (JObj fields) "duration_days"); [|rewrite bind_raise; discriminate].
  rewrite !bind_ok.
  assert (G : getitem (JObj (dict_set fields "itinerary" (JArr updated))) "itinerary"
              = Ok (JArr updated)).
  { unfold getitem. rewrite dict_get_set_eq. reflexivity. }
  rewrite G, bind_ok. cbn [iterate]. rewrite bind_ok.
  unfold getitem.
  destruct (dict_get fields "itinerary") as [dv|]; [|rewrite bind_raise; discriminate].
  rewrite bind_ok. cbn [default from_option id] in Hdays. rewrite Hdays, bind_ok.
  destruct (format_days days) as [body|] eqn:Hb; [|rewrite bind_raise; discriminate].
  intros _. destruct (format_days_same _ _ Hsame _ Hb) as [body' ->].
  rewrite bind_ok. eauto.
Qed.

(** X22. Enrichment never makes an itinerary unshowable.  If the
    stored text rendered before [populate_accommodations_from_agoda_tool]
    ran, and the JSON library reads back the text the tool wrote, then
    the text the tool returns and stores renders too, whatever the
    search service answered: only the accommodation of a day changes,
    and the renderer accepts any accommodation. *)
Theorem enriched_itinerary_renders ctx cid s out :
  snd (populate_accommodations_from_agoda_tool ctx cid s) = Ok out ->
  (forall conv text,
     read_itinerary_json (store s) conv = Ok text ->
     exists shown, format_itinerary_for_display text = Ok shown) ->
  (forall v, out = json_dumps_indent v -> json_loads out = Some v) ->
  exists shown', format_itinerary_for_display out = Ok shown'.
Proof.
  intros Hout Hbefore Hback.
  destruct (populate_accommodations_from_agoda_tool ctx cid s) as [s' r] eqn:E.
  cbn in Hout. subst r.
  destruct (populate_success _ _ _ _ _ E)
    as (conv & text & fields & days & band & adults & s1 & updated
        & Hread & Hv & Hdays & Hloop & Hdump & _).
  destruct (Hbefore conv text Hread) as [shown Hshown].
  pose proof (enrich_days_shape _ _ _ _ _ _ _ _ _ _ Hloop) as Hsame.
  exact (enriched_value_renders text out fields days updated shown
           Hv Hdays Hsame (Hback _ Hdump) Hshown).
Qed.

End EnrichmentLaws.

Section CodecFacts.
Import Json.

Lemma float_eqb_eq x y : Demo.float_eqb x y = true -> x = y.
Proof.
  destruct x as [a|a| |a m e], y as [b|b| |b n f]; cbn; try discriminate.
  - intros E. apply Bool.eqb_prop in E. congruence.
  - intros E. apply Bool.eqb_prop in E. congruence.
  - reflexivity.
  - intros E. apply andb_true_iff in E as [E E3]. apply andb_true_iff in E as [E1 E2].
    apply Bool.eqb_prop in E1. apply Pos.eqb_eq in E2. apply Z.eqb_eq in E3. congruence.
Qed.

(** [json_eqb] decides equality. *)
Lemma json_eqb_eq : forall a b, Demo.json_eqb a b = true -> a = b.
Proof.
  fix IH 1. intros a b. destruct a as [|x|x|x|x|xs|xs], b as [|y|y|y|y|ys|ys];
    cbn; try discriminate.
  - reflexivity.
  - intros E. apply Bool.eqb_prop in E. congruence.
  - intros E. apply Z.eqb_eq in E. congruence.
  - intros E. apply float_eqb_eq in E. congruence.
  - intros E. apply String.eqb_eq in E. congruence.
  - revert ys. induction xs as [|x xs IHxs]; intros [|y ys]; try discriminate.
    + reflexivity.
    + intros E. apply andb_true_iff in E as [E1 E2].
      apply IH in E1. apply IHxs in E2. congruence.
  - revert ys. induction xs as [|[k x] xs IHxs]; intros [|[l y] ys]; try discriminate.
    + reflexivity.
    + intros E. apply andb_true_iff in E as [E E3]. apply andb_true_iff in E as [E1 E2].
      apply String.eqb_eq in E1. apply IH in E2. apply IHxs in E3. congruence.
Qed.

(** A table library reads back what it wrote, for the values of the
    table. *)
Lemma table_reads_back (table : list (string * json)) out v :
  NoDup (fst <$> table) ->
  out <> "?" ->
  out = @json_dumps_indent (Demo.table_json table) v ->
  @json_loads (Demo.table_json table) out = Some v.
Proof.
  cbn. intros Hnd Hq ->.
  destruct (List.find (fun e => Demo.json_eqb e.2 v) table) as [[text w]|] eqn:F;
    [|contradiction Hq; reflexivity].
  apply List.find_some in F as [Hin Heq]. cbn in Heq. apply json_eqb_eq in Heq. subst w.
  cbn [fmap option_fmap option_map default from_option id fst].
  clear Hq. induction table as [|[t0 w0] table IH]; [contradiction Hin|].
  cbn [List.find fst]. cbn [fmap list_fmap fst] in Hnd. apply NoDup_cons in Hnd as [Hnot Hnd].
  destruct (String.eqb_spec t0 text) as [->|Hne].
  - destruct Hin as [[= ->]|Hin]; [reflexivity|].
    contradiction Hnot. apply list_elem_of_In in Hin.
    apply (list_elem_of_fmap_2 fst) in Hin. exact Hin.
  - destruct Hin as [[= -> ->]|Hin]; [contradiction Hne; reflexivity|].
    exact (IH Hnd Hin).
Qed.

End CodecFacts.

Section EnrichmentLawExamples.
Import PyStr Json Agents Storage Display Enrichment Laws.

Lemma enriched_itinerary_renders_witness :
  exists shown',
    @format_itinerary_for_display Demo.trip_json "trip with hotels" = Ok shown'.
Proof.
  apply (@enriched_itinerary_renders Demo.trip_json Demo.identity_db Demo.agoda
           Demo.fruitful Demo.traveller None Demo.trip_env "trip with hotels").
  - vm_compute. reflexivity.
  - intros conv text Hread. destruct (decide (conv = "c1")) as [->|Hne].
    + vm_compute in Hread. injection Hread as <-. eexists. vm_compute. reflexivity.
    + exfalso. unfold read_itinerary_json in Hread.
      change (use_db (store Demo.trip_env)) with false in Hread. cbv iota in Hread.
      change (files (store Demo.trip_env))
        with ({[ _file_path "c1" := "trip" ]} : gmap string string) in Hread.
      rewrite lookup_singleton_ne in Hread
        by (intros E; apply _file_path_inj in E; congruence).
      discriminate Hread.
  - intros v. apply table_reads_back; [|discriminate].
    cbn. repeat (apply NoDup_cons; split; [set_solver|]). apply NoDup_nil_2.
Defined.

End EnrichmentLawExamples.

(** ** What the enrichment does to its environment *)

Section EnrichmentEffects.
Import PyStr Json Agents Dates Storage CityResolver Budget Display Enrichment Laws.
Context `{JsonLib} `{Database} `{AgodaConfig} `{HttpClient}.

(** X23. The enrichment checks before it acts.  Without a
    conversation id in the argument or the context it raises the
    missing-id error; with an id but without a base URL or an API key
    it raises the configuration error; configured, but with no document
    stored for the id, it raises the not-found error of the store.  In
    all three cases the environment is exactly as before: no request was
    made, the city table was not loaded and nothing was written. *)
Theorem enrichment_fails_fast :
  (forall ctx cid s,
     opt_truthy (opt_or cid (conversation_id ctx)) = false ->
     populate_accommodations_from_agoda_tool ctx cid s = (s, Raise no_conversation))
  /\ (forall ctx cid s,
       opt_truthy (opt_or cid (conversation_id ctx)) = true ->
       PyStr.truthy AGODA_BASE_URL && PyStr.truthy AGODA_API_KEY = false ->
       populate_accommodations_from_agoda_tool ctx cid s = (s, Raise not_configured))
  /\ (forall ctx cid s conv,
       opt_or cid (conversation_id ctx) = Some conv -> PyStr.truthy conv = true ->
       PyStr.truthy AGODA_BASE_URL && PyStr.truthy AGODA_API_KEY = true ->
       document_of (store s) conv = None ->
       populate_accommodations_from_agoda_tool ctx cid s = (s, Raise (not_found conv))).
Proof.
  repeat apply conj.
  - intros ctx cid s Hc. unfold populate_accommodations_from_agoda_tool.
    rewrite Hc. reflexivity.
  - intros ctx cid s Hc Hk. unfold populate_accommodations_from_agoda_tool.
    rewrite Hc, Hk. reflexivity.
  - intros ctx cid s conv Hc Ht Hk Hdoc. unfold populate_accommodations_from_agoda_tool.
    rewrite Hc. cbn [opt_truthy]. rewrite Ht, Hk.
    unfold mbind, M_bind, lift, read_store. cbn [default from_option id].
    rewrite read_document_of, Hdoc. reflexivity.
Qed.

Lemma write_raise_inv st cid text st' e :
  write_itinerary_json st cid text = (st', Raise e) -> st' = st.
Proof.
  unfold write_itinerary_json. destruct (json_loads text); [|intros [= <- _]; reflexivity].
  destruct (use_db st); discriminate.
Qed.

Lemma fails_clean_keeps {A} (m : M A) : keeps_store m -> fails_clean m.
Proof. intros Hm s e _. apply Hm. Qed.

Lemma fails_clean_bind {A B} (m : M A) (k : A -> M B) :
  keeps_store m -> (forall a, fails_clean (k a)) -> fails_clean (m ≫= k).
Proof.
  intros Hm Hk s e. unfold mbind, M_bind. specialize (Hm s).
  destruct (m s) as [s1 [a|e1]]; cbn [fst] in Hm.
  - intros Hr. rewrite (Hk a s1 e Hr). exact Hm.
  - intros _. exact Hm.
Qed.

Lemma keeps_store_read conv : keeps_store (read_store conv).
Proof. intros s. reflexivity. Qed.

Lemma fails_clean_write {A} conv text (a : A) :
  fails_clean (write_store conv text ≫= fun _ => (mret a : M A)).
Proof.
  intros s e. unfold mbind, M_bind, write_store.
  destruct (write_itinerary_json (store s) conv text) as [st' [r|e1]] eqn:W.
  - discriminate.
  - intros _. cbn. exact (write_raise_inv _ _ _ _ _ W).
Qed.

(** X24. A failed enrichment writes nothing: whenever
    [populate_accommodations_from_agoda_tool] raises, at whatever step,
    the itinerary store is as it was before the call. *)
Theorem failed_enrichment_writes_nothing ctx cid s e :
  snd (populate_accommodations_from_agoda_tool ctx cid s) = Raise e ->
  store (fst (populate_accommodations_from_agoda_tool ctx cid s)) = store s.
Proof.
  revert s e. change (fails_clean (populate_accommodations_from_agoda_tool ctx cid)).
  unfold populate_accommodations_from_agoda_tool.
  apply fails_clean_bind; [apply keeps_store_lift | intros conv].
  apply fails_clean_bind; [apply keeps_store_lift | intros _].
  apply fails_clean_bind; [apply keeps_store_read | intros text].
  apply fails_clean_bind; [apply keeps_store_lift | intros itinerary].
  apply fails_clean_bind; [apply keeps_store_lift | intros band].
  apply fails_clean_bind; [apply keeps_store_lift | intros days_value].
  apply fails_clean_bind; [apply keeps_store_lift | intros days].
  apply fails_clean_bind; [apply keeps_store_days | intros updated].
  apply fails_clean_bind; [apply keeps_store_lift | intros itinerary'].
  apply fails_clean_write.
Qed.

(** *** Counting requests *)

Lemma posts_ret {A} (a : A) : posts_at_most 0 (mret a : M A).
Proof. intros s. cbn. lia. Qed.

Lemma posts_lift {A} (r : result A) : posts_at_most 0 (lift r).
Proof. intros s. cbn. lia. Qed.

Lemma posts_post req : posts_at_most 1 (http_post req).
Proof. intros s. cbn. lia. Qed.

Lemma posts_resolve name : posts_at_most 0 (resolve_city name).
Proof.
  intros s. unfold resolve_city. destruct (map_city_to_id _ _ _). cbn. lia.
Qed.

Lemma posts_weaken {A} n n' (m : M A) :
  (n <= n')%nat -> posts_at_most n m -> posts_at_most n' m.
Proof. intros Hle Hm s. specialize (Hm s). lia. Qed.

Lemma posts_bind {A B} n k (m : M A) (f : A -> M B) :
  posts_at_most n m -> (forall a, posts_at_most k (f a)) ->
  posts_at_most (n + k) (m ≫= f).
Proof.
  intros Hm Hf s. unfold mbind, M_bind. specialize (Hm s).
  destruct (m s) as [s1 [a|e]]; cbn [fst] in *.
  - specialize (Hf a s1). lia.
  - lia.
Qed.

Lemma posts_attempts k req path : forall rj re,
  posts_at_most k (attempts k req path rj re).
Proof.
  induction k as [|k IH]; intros rj re; [apply posts_ret|].
  cbn [attempts]. apply (posts_bind 1 k); [apply posts_post|].
  intros [|status text]; [apply IH|].
  destruct (status =? 200); [|apply IH].
  destruct (json_loads text); [|apply IH].
  apply (posts_weaken 0); [lia | apply posts_ret].
Qed.

Lemma posts_second path ci co c rj :
  posts_at_most 1 (second_fallback path ci co c rj).
Proof.
  unfold second_fallback.
  destruct (wants_fallback rj); [|apply (posts_weaken 0); [lia | apply posts_ret]].
  apply (posts_bind 1 0); [apply posts_post|].
  intros [|status text]; [apply posts_ret|].
  destruct (status =? 200); apply posts_ret.
Qed.

Lemma posts_fallbacks path content ci co c rj :
  posts_at_most 2 (fallbacks path content ci co c rj).
Proof.
  unfold fallbacks.
  destruct (wants_fallback rj); [|apply (posts_weaken 0); [lia | apply posts_ret]].
  destruct (json_loads (json_dumps content));
    [|apply (posts_weaken 0); [lia | apply posts_ret]].
  apply (posts_bind 1 1); [apply posts_post|].
  intros [|status text]; [apply (posts_weaken 0); [lia | apply posts_ret]|].
  destruct (status =? 200); [|apply posts_second].
  destruct (json_loads text); [apply posts_second|].
  apply (posts_weaken 0); [lia | apply posts_ret].
Qed.

Lemma posts_paths paths content ci co c : forall rj re,
  posts_at_most (5 * length paths) (try_paths paths content ci co c rj re).
Proof.
  induction paths as [|path rest IH]; intros rj re; [apply posts_ret|].
  cbn [try_paths length]. unfold MAX_RETRIES.
  apply (posts_weaken (3 + (2 + 5 * length rest))); [lia|].
  apply posts_bind; [apply posts_attempts|]. intros [rj1 re1].
  apply posts_bind; [apply posts_fallbacks|]. intros rj2.
  destruct (is_none rj2); [apply IH|].
  apply (posts_weaken 0); [lia | apply posts_ret].
Qed.

Lemma candidate_paths_length : (1 <= length candidate_paths <= 3)%nat.
Proof.
  unfold candidate_paths. destruct (PyStr.truthy AGODA_SEARCH_PATH); [|cbn; lia].
  cbn [foldl]. repeat (destruct (bool_decide _)); rewrite ?length_app; cbn; lia.
Qed.

Lemma posts_search lo hi ad ci co c :
  posts_at_most 15 (search_day lo hi ad ci co c).
Proof.
  unfold search_day. apply (posts_weaken (5 * length candidate_paths + 0)).
  { pose proof candidate_paths_length. lia. }
  apply posts_bind; [apply posts_paths|]. intros [rj re]. apply posts_ret.
Qed.

Lemma posts_day it days lo hi ad i day :
  posts_at_most 15 (enrich_day it days lo hi ad i day).
Proof.
  unfold enrich_day.
  apply (posts_bind 0 15); [apply posts_lift | intros fields].
  apply (posts_bind 0 15); [apply posts_lift | intros destination].
  apply (posts_bind 0 15); [apply posts_lift | intros name].
  apply (posts_bind 0 15); [apply posts_resolve | intros city_id].
  apply (posts_bind 0 15); [apply posts_lift | intros check_out].
  apply (posts_weaken (15 + 0)); [lia|].
  apply posts_bind; [|intros response; apply posts_ret].
  destruct city_id as [c|]; [|apply (posts_weaken 0); [lia | apply posts_ret]].
  destruct (c =? 0); [apply (posts_weaken 0); [lia | apply posts_ret]|].
  apply posts_search.
Qed.

Lemma posts_days it days lo hi ad todo : forall i,
  posts_at_most (15 * length todo) (enrich_days it days lo hi ad i todo).
Proof.
  induction todo as [|day rest IH]; intros i; [apply posts_ret|].
  cbn [enrich_days length].
  apply (posts_weaken (15 + (15 * length rest + 0))); [lia|].
  apply posts_bind; [apply posts_day | intros day'].
  apply posts_bind; [apply IH | intros rest']. apply posts_ret.
Qed.

(** A successful call, with what it leaves in the environment. *)
Lemma populate_env ctx cid s s' out :
  populate_accommodations_from_agoda_tool ctx cid s = (s', Ok out) ->
  exists conv_id text fields days band adults s1 updated,
    read_itinerary_json (store s) conv_id = Ok text
    /\ json_loads text = Some (JObj fields)
    /\ iterate (default (JArr []) (dict_get fields "itinerary")) = Ok days
    /\ enrich_days (JObj fields) days (fst band) (snd band) adults 0 days s
       = (s1, Ok updated)
    /\ out = json_dumps_indent (JObj (dict_set fields "itinerary" (JArr updated)))
    /\ requests s' = requests s1
    /\ city_cache s' = city_cache s1
    /\ city_csv s' = city_csv s1.
Proof.
  unfold populate_accommodations_from_agoda_tool. intros E.
  apply bindM_inv in E as (conv_id & s0 & E1 & E). apply lift_inv in E1 as [_ ->].
  apply bindM_inv in E as (u & s0 & E1 & E). apply lift_inv in E1 as [_ ->].
  apply bindM_inv in E as (text & s0 & E1 & E).
  unfold read_store in E1. injection E1 as <- Hread.
  apply bindM_inv in E as (itinerary & s0 & E1 & E). apply lift_inv in E1 as [Hload ->].
  apply bindM_inv in E as (band & s0 & E1 & E). apply lift_inv in E1 as [_ ->].
  apply bindM_inv in E as (days_value & s0 & E1 & E). apply lift_inv in E1 as [Hdv ->].
  apply bindM_inv in E as (days & s0 & E1 & E). apply lift_inv in E1 as [Hdays ->].
  apply bindM_inv in E as (updated & s1 & Eloop & E).
  apply bindM_inv in E as (itinerary' & s2 & E1 & E). apply lift_inv in E1 as [Hwith ->].
  apply bindM_inv in E as (written & s2 & Ewrite & E).
  apply mret_inv in E as [-> ->].
  unfold Display.loads_exn in Hload.
  destruct (json_loads text) as [v|] eqn:Hv; [|discriminate]. injection Hload as ->.
  destruct itinerary as [| | | | | |fields]; try discriminate Hwith.
  injection Hwith as <-. cbn in Hdv. injection Hdv as <-.
  unfold write_store in Ewrite.
  destruct (write_itinerary_json (store s1) conv_id _) as [st' r].
  injection Ewrite as <- _. cbn [requests city_cache city_csv].
  do 5 eexists. eexists _, s1, updated.
  repeat split; eassumption.
Qed.

(** X25. The number of requests is bounded by the itinerary: a day
    costs at most fifteen requests (at most three paths, on each at most
    three attempts and two fallback queries), so a call that returns has
    made at most fifteen requests per stored day, and the request count
    never goes down. *)
Theorem enrichment_request_budget :
  (forall lo hi ad ci co c, posts_at_most 15 (search_day lo hi ad ci co c))
  /\ (forall it days lo hi ad i todo,
       posts_at_most (15 * length todo) (enrich_days it days lo hi ad i todo))
  /\ (forall ctx cid s s' out,
       populate_accommodations_from_agoda_tool ctx cid s = (s', Ok out) ->
       exists conv_id text fields days,
         read_itinerary_json (store s) conv_id = Ok text
         /\ json_loads text = Some (JObj fields)
         /\ iterate (default (JArr []) (dict_get fields "itinerary")) = Ok days
         /\ (requests s <= requests s' <= requests s + 15 * length days)%nat).
Proof.
  repeat apply conj.
  - apply posts_search.
  - intros. apply posts_days.
  - intros ctx cid s s' out E.
    destruct (populate_env _ _ _ _ _ E)
      as (conv & text & fields & days & band & adults & s1 & updated
          & Hread & Hv & Hdays & Hloop & _ & Hreq & _).
    exists conv, text, fields, days. repeat split; try assumption;
      pose proof (posts_days (JObj fields) days (fst band) (snd band) adults days 0 s) as Hp;
      rewrite Hloop in Hp; cbn [fst] in Hp; lia.
Qed.

(** *** Days whose city has no id *)

Lemma resolve_unmapped name s :
  city_cache s = ∅ -> city_csv s = None -> resolve_city name s = (s, Ok None).
Proof.
  destruct s as [st cache csv n]. cbn. intros -> ->.
  unfold resolve_city, map_city_to_id, load_city_mapping. cbn.
  rewrite bool_decide_eq_true_2 by reflexivity. rewrite lookup_empty. reflexivity.
Qed.

Lemma enrich_day_unmapped it days lo hi ad i day s s' day' destination :
  city_cache s = ∅ -> city_csv s = None ->
  get it "destination" = Ok destination ->
  enrich_day it days lo hi ad i day s = (s', Ok day') ->
  s' = s /\ day' = unresolved destination day.
Proof.
  intros Hcache Hcsv Hdest. unfold enrich_day. intros E.
  apply bindM_inv in E as (fields & s1 & E1 & E). apply lift_inv in E1 as [Hf ->].
  apply bindM_inv in E as (dest & s1 & E1 & E). apply lift_inv in E1 as [Hd ->].
  apply bindM_inv in E as (name & s1 & E1 & E). apply lift_inv in E1 as [_ ->].
  apply bindM_inv in E as (city_id & s1 & E1 & E).
  rewrite (resolve_unmapped _ _ Hcache Hcsv) in E1. injection E1 as <- <-.
  apply bindM_inv in E as (check_out & s2 & E1 & E). apply lift_inv in E1 as [_ ->].
  apply bindM_inv in E as (response & s3 & E1 & E).
  apply mret_inv in E1 as [-> ->]. apply mret_inv in E as [-> ->].
  rewrite Hdest in Hd. injection Hd as <-.
  destruct day; try discriminate Hf. injection Hf as ->. split; reflexivity.
Qed.

Lemma enrich_days_unmapped it days lo hi ad destination todo : forall i s s' updated,
  city_cache s = ∅ -> city_csv s = None ->
  get it "destination" = Ok destination ->
  enrich_days it days lo hi ad i todo s = (s', Ok updated) ->
  s' = s /\ updated = unresolved destination <$> todo.
Proof.
  induction todo as [|day rest IH]; intros i s s' updated Hcache Hcsv Hdest E.
  - apply mret_inv in E as [-> ->]. split; reflexivity.
  - cbn [enrich_days] in E.
    apply bindM_inv in E as (day' & s1 & E1 & E).
    destruct (enrich_day_unmapped _ _ _ _ _ _ _ _ _ _ _ Hcache Hcsv Hdest E1) as [-> ->].
    apply bindM_inv in E as (rest' & s2 & E2 & E).
    destruct (IH _ _ _ _ Hcache Hcsv Hdest E2) as [-> ->].
    apply mret_inv in E as [-> ->]. split; reflexivity.
Qed.


(** *** The first answer *)

Lemma bindM_ok {A B} (m : M A) (k : A -> M B) s s1 a :
  m s = (s1, Ok a) -> (m ≫= k) s = k a s1.
Proof. intros E. unfold mbind, M_bind. rewrite E. reflexivity. Qed.

Lemma attempts_first k req path rj re s text v :
  post (requests s) req = HttpResponse 200 text ->
  json_loads text = Some v ->
  attempts (S k) req path rj re s = (bump s, Ok (v, re)).
Proof.
  intros Hpost Hv. cbn [attempts].
  rewrite (bindM_ok _ _ s (bump s) (HttpResponse 200 text))
    by (unfold http_post; rewrite Hpost; reflexivity).
  change (200 =? 200) with true. cbv iota. rewrite Hv. reflexivity.
Qed.

Lemma fallbacks_skipped path content ci co c rj s :
  wants_fallback rj = false -> fallbacks path content ci co c rj s = (s, Ok rj).
Proof. intros Hwf. unfold fallbacks. rewrite Hwf. reflexivity. Qed.

(** X27. The first usable answer is final.  When the first request
    of a day, the full query sent to the first candidate path, is
    answered 200 with JSON that is not [null] and is no object without
    items, the search for that day is over after this one request: no
    retry, no fallback query and no further path.  The answer becomes the
    day's accommodation if it is an object or a list; any other JSON
    value is dropped and the day keeps what it had. *)
Theorem first_answer_is_final lo hi ad ci co c s text v :
  post (requests s)
    (request_to (default EmptyString (head candidate_paths)) (payload lo hi ad ci co c))
  = HttpResponse 200 text ->
  json_loads text = Some v ->
  wants_fallback v = false -> is_none v = false ->
  search_day lo hi ad ci co c s
  = (bump s, Ok (if is_dict v || is_list v then Some v else None)).
Proof.
  intros Hpost Hv Hwf Hnone. pose proof candidate_paths_length as Hl.
  unfold search_day. revert Hpost Hl.
  destruct candidate_paths as [|path rest]; [cbn; lia|]. intros Hpost _.
  cbn [head default from_option id] in Hpost.
  rewrite (bindM_ok _ _ s (bump s) (v, None)); [reflexivity|].
  cbn [try_paths]. unfold MAX_RETRIES.
  rewrite (bindM_ok _ _ s (bump s) (v, None))
    by (exact (attempts_first _ _ _ _ _ _ _ _ Hpost Hv)).
  cbv beta iota.
  rewrite (bindM_ok _ _ (bump s) (bump s) v) by (apply fallbacks_skipped; exact Hwf).
  rewrite Hnone. reflexivity.
Qed.

End EnrichmentEffects.

Section EnrichmentEffectExamples.
Import PyStr Json Agents Storage Display Enrichment Laws.

Lemma enrichment_fails_fast_witness :
  @populate_accommodations_from_agoda_tool Demo.trip_json Demo.identity_db
    Samples.no_key Demo.fruitful Demo.traveller None Demo.trip_env
  = (Demo.trip_env, Raise not_configured).
Proof.
  destruct (@enrichment_fails_fast Demo.trip_json Demo.identity_db Samples.no_key
              Demo.fruitful) as (_ & Hconfig & _).
  apply Hconfig; reflexivity.
Defined.

Lemma failed_enrichment_writes_nothing_witness :
  store (fst (@populate_accommodations_from_agoda_tool Demo.trip_json Demo.identity_db
                Demo.agoda Demo.fruitful Demo.traveller (Some "c2") Demo.trip_env))
  = store Demo.trip_env.
Proof.
  apply (@failed_enrichment_writes_nothing Demo.trip_json Demo.identity_db Demo.agoda
           Demo.fruitful Demo.traveller (Some "c2") Demo.trip_env (not_found "c2")).
  vm_compute. reflexivity.
Defined.

Lemma enrichment_request_budget_witness :
  exists conv_id text fields days,
    read_itinerary_json (store Demo.trip_env) conv_id = Ok text
    /\ @json_loads Demo.trip_json text = Some (JObj fields)
    /\ iterate (default (JArr []) (dict_get fields "itinerary")) = Ok days
    /\ (requests Demo.trip_env
        <= requests (fst (Demo.enrich_trip Demo.always_500))
        <= requests Demo.trip_env + 15 * length days)%nat.
Proof.
  destruct (@enrichment_request_budget Demo.trip_json Demo.identity_db Demo.agoda
              Demo.always_500) as (_ & _ & Hcall).
  apply (Hcall Demo.traveller None Demo.trip_env _ "trip with error").
  vm_compute. reflexivity.
Defined.


Lemma first_answer_is_final_witness :
  @search_day Demo.trip_json Demo.agoda Demo.fruitful 80 200 2
    (JStr "2025-06-01") (JStr "2025-06-02") 9395 Demo.trip_env
  = (bump Demo.trip_env, Ok (Some Demo.hotels_found)).
Proof.
  apply (@first_answer_is_final Demo.trip_json Demo.agoda Demo.fruitful 80 200 2
           (JStr "2025-06-01") (JStr "2025-06-02") 9395 Demo.trip_env "hotels"
           Demo.hotels_found); reflexivity.
Defined.

End EnrichmentEffectExamples.

Section DisplayExamples.
Import PyStr Json Agents Storage Display Orchestrator Itinerary.

Lemma created_itinerary_renders_witness :
  exists ctx' st' text shown,
    @create_itinerary_json_tool Samples.three_day_json Demo.identity_db "f00d"
      Demo.three_days Samples.empty_store Demo.three_day_plans "Paris in June" None
    = (ctx', st', Ok text)
    /\ @format_itinerary_for_display Samples.three_day_json text = Ok shown
    /\ forall `{Runtime} conv st0 a rest,
         @main_loop Samples.three_day_json conv st0 (ToolCallOutputItem a text :: rest)
         = @main_loop Samples.three_day_json conv
             (say (say st0 [name a +:+ ": Tool call output"]) ["Itinerary Updated:"; shown])
             rest.
Proof.
  apply (@created_itinerary_renders Samples.three_day_json Demo.identity_db "f00d"
           Demo.three_days Samples.empty_store Demo.three_day_plans "Paris in June" None
           {| out_destination := "Paris";
              description := "Paris in June";
              out_start_date := "2025-06-29";
              out_end_date := "2025-07-01";
              duration_days := 3;
              itinerary :=
                day_at {| Dates.year := 2025; Dates.month := 6; Dates.day := 29 |}
                  "Paris" Demo.three_day_plans <$> seqZ 0 3 |}).
  - vm_compute. reflexivity.
  - vm_compute. reflexivity.
Defined.

End DisplayExamples.

(** ** Fenced JSON in the chat window *)

Section FenceFacts.
Import PyStr Json Agents Display Orchestrator Itinerary App.

Lemma fence_search_skip pre rest :
  no_backquote pre = true -> fence_search (pre +:+ rest) = fence_search rest.
Proof.
  induction pre as [|c pre IH]; [reflexivity|]. cbn [no_backquote]. intros E.
  apply andb_true_iff in E as [Hc Hpre]. apply negb_true_iff in Hc.
  rewrite app_cons.
  assert (Hm : match_at (String c (pre +:+ rest)) = None).
  { unfold match_at, fence. cbn [startswith]. rewrite Ascii.eqb_sym, Hc. reflexivity. }
  cbn [fence_search]. rewrite Hm. exact (IH Hpre).
Qed.

Lemma str_take_app a b : take (String.length a) (a +:+ b) = a.
Proof.
  induction a as [|c a IH]; [destruct b; reflexivity|].
  rewrite app_cons. cbn [String.length take]. rewrite IH. reflexivity.
Qed.

Lemma lstrip_length s : (String.length (lstrip s) <= String.length s)%nat.
Proof.
  induction s as [|c s IH]; [reflexivity|]. cbn.
  destruct (isspace c); cbn; lia.
Qed.

Lemma rstrip_length s : (String.length (rstrip s) <= String.length s)%nat.
Proof.
  induction s as [|c s IH]; [reflexivity|]. cbn.
  destruct (rstrip s); [destruct (isspace c)|]; cbn in *; lia.
Qed.

(** A stripped, non-empty text starts and ends with a character that
    is no white space. *)
Lemma stripped_head b :
  strip b = b -> b <> EmptyString ->
  exists c r, b = String c r /\ isspace c = false.
Proof.
  intros Hs Hne. destruct b as [|c r]; [contradiction Hne; reflexivity|].
  exists c, r. split; [reflexivity|]. destruct (isspace c) eqn:Hc; [|reflexivity].
  exfalso. apply (f_equal String.length) in Hs. unfold strip in Hs. cbn [lstrip] in Hs.
  rewrite Hc in Hs. pose proof (rstrip_length (lstrip r)). pose proof (lstrip_length r).
  cbn in Hs. lia.
Qed.

Lemma stripped_rstrip b : strip b = b -> b <> EmptyString -> rstrip b = b.
Proof.
  intros Hs Hne. destruct (stripped_head b Hs Hne) as (c & r & -> & Hc).
  unfold strip in Hs. cbn [lstrip] in Hs. rewrite Hc in Hs. exact Hs.
Qed.

Lemma rstrip_tail c b :
  rstrip (String c b) = String c b -> b <> EmptyString -> rstrip b = b.
Proof.
  cbn. intros E Hne. destruct (rstrip b) as [|d r].
  - destruct (isspace c); [discriminate E|]. injection E as <-. contradiction Hne. reflexivity.
  - injection E as E. exact E.
Qed.

Lemma rstrip_fixed_not_space b :
  rstrip b = b -> b <> EmptyString -> all_space b = false.
Proof.
  intros E Hne. destruct (all_space b) eqn:A; [|reflexivity].
  rewrite (rstrip_all_space b A) in E. contradiction Hne. symmetry. exact E.
Qed.

Lemma no_close_in_text b rest :
  no_backquote b = true -> all_space b = false -> closes_here (b +:+ rest) = None.
Proof.
  unfold closes_here.
  assert (Hs : no_backquote b = true -> all_space b = false ->
               startswith (lstrip (b +:+ rest)) fence = false).
  { induction b as [|c b IH]; [discriminate|]. cbn [no_backquote all_space].
    intros Hq Ha. apply andb_true_iff in Hq as [Hc Hq]. apply negb_true_iff in Hc.
    rewrite app_cons. cbn [lstrip]. destruct (isspace c); [exact (IH Hq Ha)|].
    unfold fence. cbn [startswith]. rewrite Ascii.eqb_sym, Hc. reflexivity. }
  intros Hq Ha. rewrite (Hs Hq Ha). reflexivity.
Qed.

Lemma startswith_fence rest : startswith (fence +:+ rest) fence = true.
Proof. destruct rest; reflexivity. Qed.

Lemma closes_after_space ws post :
  all_space ws = true ->
  closes_here (ws +:+ fence +:+ post) = Some (String.length ws + 3)%nat.
Proof.
  intros Hws. unfold closes_here. rewrite (lstrip_pad _ _ Hws).
  change (lstrip (fence +:+ post)) with (fence +:+ post).
  rewrite startswith_fence.
  rewrite !length_app. change (String.length fence) with 3%nat. f_equal. lia.
Qed.

Lemma find_close_eq s :
  find_close s
  = match closes_here s with
    | Some n => Some (O, n)
    | None =>
        match s with
        | EmptyString => None
        | String _ s' =>
            match find_close s' with
            | Some (k, n) => Some (S k, S n)
            | None => None
            end
        end
    end.
Proof. destruct s; reflexivity. Qed.

(** The lazy group stops at the end of a stripped body that holds no
    backquote. *)
Lemma find_close_body b ws post :
  no_backquote b = true -> rstrip b = b -> b <> EmptyString ->
  all_space ws = true ->
  find_close (b +:+ ws +:+ fence +:+ post)
  = Some (String.length b, (String.length b + String.length ws + 3)%nat).
Proof.
  intros Hq Hr Hne Hws. induction b as [|c b IH]; [contradiction Hne; reflexivity|].
  rewrite find_close_eq.
  rewrite (no_close_in_text (String c b) (ws +:+ fence +:+ post) Hq
             (rstrip_fixed_not_space _ Hr Hne)).
  rewrite app_cons.
  cbn [no_backquote] in Hq. apply andb_true_iff in Hq as [_ Hq].
  destruct b as [|d b].
  - rewrite app_empty, find_close_eq, (closes_after_space ws post Hws). reflexivity.
  - rewrite (IH Hq (rstrip_tail _ _ Hr ltac:(discriminate)) ltac:(discriminate)).
    reflexivity.
Qed.

Lemma space_not_j w : isspace w = true -> Ascii.eqb "j" (lower_char w) = false.
Proof. destruct w as [[] [] [] [] [] [] [] []]; cbn; intros E; try discriminate E; reflexivity. Qed.

(** The pattern at an opening fence: the tag, the white space, the
    body, the white space and the closing fence. *)
Lemma match_at_block tag ws1 body ws2 post :
  lower tag = "json" \/ (tag = EmptyString /\ ws1 <> EmptyString) ->
  all_space ws1 = true -> all_space ws2 = true ->
  no_backquote body = true -> strip body = body -> body <> EmptyString ->
  exists n,
    match_at (fence +:+ tag +:+ ws1 +:+ body +:+ ws2 +:+ fence +:+ post) = Some (body, n).
Proof.
  intros Htag Hws1 Hws2 Hq Hs Hne.
  destruct (stripped_head body Hs Hne) as (c & r & Eb & Hc).
  pose proof (stripped_rstrip body Hs Hne) as Hr.
  assert (Hl : lstrip (ws1 +:+ body +:+ ws2 +:+ fence +:+ post)
               = body +:+ ws2 +:+ fence +:+ post).
  { rewrite (lstrip_pad _ _ Hws1). rewrite Eb, app_cons. cbn [lstrip]. rewrite Hc.
    reflexivity. }
  unfold match_at.
  rewrite startswith_fence.
  change (drop 3 (fence +:+ tag +:+ ws1 +:+ body +:+ ws2 +:+ fence +:+ post))
    with (tag +:+ ws1 +:+ body +:+ ws2 +:+ fence +:+ post).
  destruct Htag as [Htag | [-> Hw]].
  - unfold lower in Htag.
    destruct tag as [|t1 [|t2 [|t3 [|t4 [|t5 tag]]]]]; try discriminate Htag.
    cbn [map_chars] in Htag. injection Htag as E1 E2 E3 E4.
    rewrite !app_cons, app_empty.
    cbn [take]. unfold lower. cbn [map_chars startswith].
    rewrite E1, E2, E3, E4, !Ascii.eqb_refl. cbn [drop]. rewrite Hl.
    rewrite (find_close_body body ws2 post Hq Hr Hne Hws2).
    rewrite str_take_app. eauto.
  - rewrite app_empty. destruct ws1 as [|w ws1]; [contradiction Hw; reflexivity|].
    cbn [all_space] in Hws1. apply andb_true_iff in Hws1 as [Hw1 Hws1].
    assert (Hu : startswith
                   (lower (take 4 (String w ws1 +:+ body +:+ ws2 +:+ fence +:+ post)))
                   "json" = false).
    { rewrite app_cons. cbn [take]. unfold lower. cbn [map_chars startswith].
      rewrite (space_not_j w Hw1). reflexivity. }
    rewrite Hu. rewrite Hl.
    rewrite (find_close_body body ws2 post Hq Hr Hne Hws2).
    rewrite str_take_app. eauto.
Qed.

Section WithJson.
Context `{JsonLib}.

Lemma display_by_value text text' :
  json_loads text = json_loads text' ->
  format_itinerary_for_display text = format_itinerary_for_display text'.
Proof. intros E. unfold format_itinerary_for_display, loads_exn. rewrite E. reflexivity. Qed.

(** X28. An itinerary the model writes in a fenced block is shown
    formatted in the chat window.  For a message made of prose without
    backquotes, an opening fence with the tag json in any letter case
    (or no tag and white space after the fence), white space, a body,
    white space, a closing fence and any text after it, where the body is
    stripped, holds no backquote and is the JSON of an itinerary, the
    pattern's group is the body, the extracted value is the itinerary,
    and [format_message] returns the rendering of the itinerary, not the
    raw text. *)
Theorem fenced_itinerary_is_rendered a pre tag ws1 body ws2 post doc :
  no_backquote pre = true ->
  lower tag = "json" \/ (tag = EmptyString /\ ws1 <> EmptyString) ->
  all_space ws1 = true -> all_space ws2 = true ->
  no_backquote body = true -> strip body = body -> body <> EmptyString ->
  json_loads body = Some (to_json doc) ->
  json_loads (json_dumps (to_json doc)) = Some (to_json doc) ->
  let text := pre +:+ fence +:+ tag +:+ ws1 +:+ body +:+ ws2 +:+ fence +:+ post in
  fence_search text = Some body
  /\ _try_extract_json text = Some (to_json doc)
  /\ exists shown,
       format_itinerary_for_display body = Ok shown
       /\ format_message (MessageOutputItem a text) = shown.
Proof.
  intros Hpre Htag Hws1 Hws2 Hq Hs Hne Hv Hback text.
  destruct (match_at_block tag ws1 body ws2 post Htag Hws1 Hws2 Hq Hs Hne) as [n Hm].
  assert (Hsearch : fence_search text = Some body).
  { unfold text. rewrite (fence_search_skip _ _ Hpre).
    destruct (fence +:+ tag +:+ ws1 +:+ body +:+ ws2 +:+ fence +:+ post) eqn:E;
      cbn [fence_search]; rewrite Hm; reflexivity. }
  assert (Htext : PyStr.truthy text = true).
  { unfold text. destruct pre; [reflexivity | reflexivity]. }
  assert (Hbody : PyStr.truthy body = true).
  { destruct body; [contradiction Hne; reflexivity | reflexivity]. }
  assert (Hextract : _try_extract_json text = Some (to_json doc)).
  { unfold _try_extract_json. rewrite Htext, Hsearch, Hs, Hbody. cbn [negb].
    rewrite Hv. reflexivity. }
  destruct (typed_document_renders doc body Hv) as [shown Hshown].
  repeat split; [exact Hsearch | exact Hextract |].
  exists shown. split; [exact Hshown|].
  cbn [format_message]. rewrite Htext, Hextract. cbn [negb].
  assert (Hlike : _is_itinerary_like (to_json doc) = true) by reflexivity.
  rewrite Hlike.
  rewrite (display_by_value (json_dumps (to_json doc)) body) by (rewrite Hback, Hv; reflexivity).
  rewrite Hshown. reflexivity.
Qed.

End WithJson.
End FenceFacts.

Section FenceExamples.
Import PyStr Json Agents Display Orchestrator Itinerary App.

Lemma fenced_itinerary_is_rendered_witness :
  fence_search ("Your plan: " +:+ fence +:+ "JSON" +:+ nl +:+ "three days" +:+ nl
                +:+ fence +:+ " Enjoy!") = Some "three days"
  /\ @_try_extract_json Samples.three_day_json
       ("Your plan: " +:+ fence +:+ "JSON" +:+ nl +:+ "three days" +:+ nl
        +:+ fence +:+ " Enjoy!") = Some (to_json Samples.three_day_output)
  /\ exists shown,
       @format_itinerary_for_display Samples.three_day_json "three days" = Ok shown
       /\ @format_message Samples.three_day_json
            (MessageOutputItem itinerary_agent
               ("Your plan: " +:+ fence +:+ "JSON" +:+ nl +:+ "three days" +:+ nl
                +:+ fence +:+ " Enjoy!")) = shown.
Proof.
  apply (@fenced_itinerary_is_rendered Samples.three_day_json itinerary_agent
           "Your plan: " "JSON" nl "three days" nl " Enjoy!" Samples.three_day_output);
    try reflexivity.
  - left. reflexivity.
  - discriminate.
Defined.

End FenceExamples.

(** ** The connection string *)

Section DbFacts.
Import PyStr Agents Storage Db.

Lemma lstrip_is_by s : lstrip s = lstrip_by isspace s.
Proof. induction s as [|c s IH]; [reflexivity|]. cbn. rewrite IH. reflexivity. Qed.

Lemma rstrip_is_by s : rstrip s = rstrip_by isspace s.
Proof. induction s as [|c s IH]; [reflexivity|]. cbn. rewrite IH. reflexivity. Qed.

Lemma strip_is_by s : strip s = strip_by isspace s.
Proof. unfold strip, strip_by. rewrite lstrip_is_by, rstrip_is_by. reflexivity. Qed.

Lemma lstrip_by_pad p a s : all_by p a = true -> lstrip_by p (a +:+ s) = lstrip_by p s.
Proof.
  induction a as [|c a IH]; [reflexivity|]. rewrite app_cons. cbn.
  intros E. apply andb_true_iff in E as [Hc Ha]. rewrite Hc. exact (IH Ha).
Qed.

Lemma rstrip_by_all p b : all_by p b = true -> rstrip_by p b = EmptyString.
Proof.
  induction b as [|c b IH]; [reflexivity|]. cbn.
  intros E. apply andb_true_iff in E as [Hc Hb]. rewrite (IH Hb), Hc. reflexivity.
Qed.

Lemma rstrip_by_pad p s b : all_by p b = true -> rstrip_by p (s +:+ b) = rstrip_by p s.
Proof.
  intros Hb. induction s as [|c s IH].
  - rewrite app_empty. rewrite (rstrip_by_all _ _ Hb). reflexivity.
  - rewrite app_cons. cbn. rewrite IH. reflexivity.
Qed.

Lemma rstrip_by_last p s : forall c,
  p (last_char c s) = false -> rstrip_by p (String c s) = String c s.
Proof.
  induction s as [|d s IH]; intros c Hc.
  - cbn in *. rewrite Hc. reflexivity.
  - cbn [last_char] in Hc. specialize (IH d Hc).
    change (rstrip_by p (String c (String d s)))
      with (match rstrip_by p (String d s) with
            | EmptyString => if p c then EmptyString else String c EmptyString
            | r => String c r
            end).
    rewrite IH. reflexivity.
Qed.

Lemma strip_by_core p a s b :
  all_by p a = true -> all_by p b = true -> edges_avoid p s = true ->
  strip_by p (a +:+ s +:+ b) = s.
Proof.
  intros Ha Hb Hs. unfold strip_by. rewrite (lstrip_by_pad _ _ _ Ha).
  destruct s as [|c s]; [discriminate Hs|]. cbn [edges_avoid] in Hs.
  apply andb_true_iff in Hs as [Hc Hl]. apply negb_true_iff in Hc, Hl.
  rewrite app_cons. cbn [lstrip_by]. rewrite Hc. rewrite <- app_cons.
  rewrite (rstrip_by_pad _ _ _ Hb). exact (rstrip_by_last p s c Hl).
Qed.

Lemma last_char_app s : forall c d t,
  last_char c (s +:+ String d t) = last_char d t.
Proof.
  induction s as [|x s IH]; intros c d t; [reflexivity|].
  rewrite app_cons. cbn [last_char]. apply IH.
Qed.

Lemma last_char_all p s : forall c,
  p c = true -> all_by p s = true -> p (last_char c s) = true.
Proof.
  induction s as [|d s IH]; intros c Hc Hs; [exact Hc|].
  cbn in *. apply andb_true_iff in Hs as [Hd Hs]. exact (IH d Hd Hs).
Qed.

Lemma last_char_pad s b : forall c,
  last_char c (s +:+ b) = match b with
                          | EmptyString => last_char c s
                          | String d t => last_char d t
                          end.
Proof.
  destruct b as [|d t]; intros c.
  - rewrite app_empty_r. reflexivity.
  - apply last_char_app.
Qed.

(** Wrapping a text in characters of another kind keeps its edges free
    of the characters tested. *)
Lemma edges_wrap p q a s b :
  (forall c, q c = true -> p c = false) ->
  all_by q a = true -> all_by q b = true ->
  edges_avoid p s = true -> edges_avoid p (a +:+ s +:+ b) = true.
Proof.
  intros Hqp Ha Hb Hs. destruct s as [|c s]; [discriminate Hs|].
  cbn [edges_avoid] in Hs. apply andb_true_iff in Hs as [Hc Hl].
  apply negb_true_iff in Hc, Hl.
  assert (Hlast : forall x, p (last_char x (String c s +:+ b)) = false).
  { intros x. rewrite app_cons. cbn [last_char]. rewrite last_char_pad.
    destruct b as [|d t]; [exact Hl|].
    cbn [all_by] in Hb. apply andb_true_iff in Hb as [Hd Ht].
    apply Hqp. exact (last_char_all q t d Hd Ht). }
  destruct a as [|x a].
  - rewrite app_empty, app_cons. cbn [edges_avoid]. rewrite Hc.
    specialize (Hlast c). rewrite app_cons in Hlast. cbn [last_char] in Hlast.
    rewrite Hlast. reflexivity.
  - cbn [all_by] in Ha. apply andb_true_iff in Ha as [Hx Ha].
    rewrite app_cons. cbn [edges_avoid]. rewrite (Hqp x Hx).
    rewrite app_cons, last_char_app. specialize (Hlast c).
    rewrite app_cons in Hlast. cbn [last_char] in Hlast. rewrite Hlast. reflexivity.
Qed.

Lemma edges_weaken p q s :
  (forall c, p c = true -> q c = true) ->
  edges_avoid q s = true -> edges_avoid p s = true.
Proof.
  intros Hpq. destruct s as [|c s]; [discriminate|]. cbn [edges_avoid].
  intros E. apply andb_true_iff in E as [Hc Hl]. apply negb_true_iff in Hc, Hl.
  apply andb_true_iff. split; apply negb_true_iff.
  - destruct (p c) eqn:E; [|reflexivity]. rewrite (Hpq _ E) in Hc. discriminate Hc.
  - destruct (p (last_char c s)) eqn:E; [|reflexivity]. rewrite (Hpq _ E) in Hl.
    discriminate Hl.
Qed.

Lemma quote_kinds c :
  (mem c double_quote = true -> isspace c = false)
  /\ (mem c single_quote = true -> isspace c = false)
  /\ (mem c single_quote = true -> mem c double_quote = false).
Proof.
  destruct c as [[] [] [] [] [] [] [] []]; vm_compute; repeat split; intros; congruence.
Qed.

(** X29. [get_db_url] trims what can sneak into a .env file, in a
    fixed order: white space outermost, then double quotes, then single
    quotes.  A URL whose first and last characters are neither white
    space nor quotes comes out bare however many such wrappers surround
    it, and the store then uses the database; a first variable that is
    set and not empty hides the second; and with both variables unset or
    empty there is no URL and the store uses the files. *)
Theorem db_url_is_trimmed :
  (forall pre d1 s1 url s2 d2 post other files table,
     all_space pre = true -> all_space post = true ->
     all_by (fun c => mem c double_quote) d1 = true ->
     all_by (fun c => mem c double_quote) d2 = true ->
     all_by (fun c => mem c single_quote) s1 = true ->
     all_by (fun c => mem c single_quote) s2 = true ->
     edges_avoid quote_or_space url = true ->
     get_db_url
       {| SUPABASE_DB_URL := Some (pre +:+ (d1 +:+ (s1 +:+ url +:+ s2) +:+ d2) +:+ post);
          DATABASE_URL := other |} = Some url
     /\ use_db (store_in
                  {| SUPABASE_DB_URL :=
                       Some (pre +:+ (d1 +:+ (s1 +:+ url +:+ s2) +:+ d2) +:+ post);
                     DATABASE_URL := other |} files table) = true)
  /\ (forall first second,
       opt_truthy first = true ->
       get_db_url {| SUPABASE_DB_URL := first; DATABASE_URL := second |}
       = get_db_url {| SUPABASE_DB_URL := first; DATABASE_URL := None |})
  /\ (forall first second files table,
       opt_truthy first = false -> opt_truthy second = false ->
       use_db (store_in {| SUPABASE_DB_URL := first; DATABASE_URL := second |} files table)
       = false).
Proof.
  repeat apply conj.
  - intros pre d1 s1 url s2 d2 post other files table Hpre Hpost Hd1 Hd2 Hs1 Hs2 Hu.
    assert (Hsq : edges_avoid (fun c => mem c single_quote) url = true).
    { apply (edges_weaken _ quote_or_space); [|exact Hu].
      intros c Hc. unfold quote_or_space. rewrite Hc. apply orb_true_r. }
    assert (Hdq : edges_avoid (fun c => mem c double_quote) (s1 +:+ url +:+ s2) = true).
    { apply (edges_wrap _ (fun c => mem c single_quote)); [|exact Hs1|exact Hs2|].
      - intros c Hc. exact (proj2 (proj2 (quote_kinds c)) Hc).
      - apply (edges_weaken _ quote_or_space); [|exact Hu].
        intros c Hc. unfold quote_or_space. rewrite Hc. rewrite orb_true_r. reflexivity. }
    assert (Hws : edges_avoid isspace (d1 +:+ (s1 +:+ url +:+ s2) +:+ d2) = true).
    { apply (edges_wrap _ (fun c => mem c double_quote)); [|exact Hd1|exact Hd2|].
      - intros c Hc. exact (proj1 (quote_kinds c) Hc).
      - apply (edges_wrap _ (fun c => mem c single_quote)); [|exact Hs1|exact Hs2|].
        + intros c Hc. exact (proj1 (proj2 (quote_kinds c)) Hc).
        + apply (edges_weaken _ quote_or_space); [|exact Hu].
          intros c Hc. unfold quote_or_space. rewrite Hc. reflexivity. }
    assert (Hall : forall s, all_space s = all_by isspace s).
    { induction s as [|c s IH]; [reflexivity|]. cbn. rewrite IH. reflexivity. }
    rewrite Hall in Hpre, Hpost.
    assert (Hget : get_db_url
                     {| SUPABASE_DB_URL :=
                          Some (pre +:+ (d1 +:+ (s1 +:+ url +:+ s2) +:+ d2) +:+ post);
                        DATABASE_URL := other |} = Some url).
    { unfold get_db_url, opt_or. cbn [SUPABASE_DB_URL opt_truthy].
      assert (Ht : PyStr.truthy (pre +:+ (d1 +:+ (s1 +:+ url +:+ s2) +:+ d2) +:+ post) = true).
      { destruct pre; [|reflexivity]. rewrite app_empty.
        destruct (d1 +:+ (s1 +:+ url +:+ s2) +:+ d2) eqn:E; [discriminate Hws|].
        reflexivity. }
      rewrite Ht. cbn [opt_truthy]. rewrite Ht. cbn [fmap option_fmap option_map].
      rewrite strip_is_by, (strip_by_core _ _ _ _ Hpre Hpost Hws).
      unfold strip_chars.
      rewrite (strip_by_core _ _ _ _ Hd1 Hd2 Hdq), (strip_by_core _ _ _ _ Hs1 Hs2 Hsq).
      reflexivity. }
    split; [exact Hget|]. unfold use_db, store_in. cbn [db_url]. rewrite Hget.
    destruct url; [discriminate Hu | reflexivity].
  - intros first second Hf. unfold get_db_url, opt_or. cbn [SUPABASE_DB_URL DATABASE_URL].
    rewrite Hf. reflexivity.
  - intros first second files table Hf Hs. unfold use_db, store_in, get_db_url, opt_or.
    cbn [db_url SUPABASE_DB_URL DATABASE_URL]. rewrite Hf, Hs.
    destruct second as [u|]; [exact Hs | reflexivity].
Qed.

Lemma db_url_is_trimmed_witness :
  get_db_url
    {| SUPABASE_DB_URL :=
         Some (" " +:+ (double_quote +:+ (EmptyString +:+ "postgres://db.example/trips"
                                          +:+ EmptyString) +:+ double_quote) +:+ Display.nl);
       DATABASE_URL := None |} = Some "postgres://db.example/trips"
  /\ use_db (store_in
               {| SUPABASE_DB_URL :=
                    Some (" " +:+ (double_quote
                                   +:+ (EmptyString +:+ "postgres://db.example/trips"
                                        +:+ EmptyString) +:+ double_quote) +:+ Display.nl);
                  DATABASE_URL := None |} ∅ ∅) = true.
Proof.
  apply (proj1 db_url_is_trimmed " " double_quote EmptyString
           "postgres://db.example/trips" EmptyString double_quote Display.nl None ∅ ∅);
    reflexivity.
Defined.

End DbFacts.

(** ** Days without a date *)

Section StayFacts.
Import PyStr Json Agents Dates Storage CityResolver Budget Display Enrichment Laws.
Context `{JsonLib} `{Database} `{AgodaConfig} `{HttpClient}.

Lemma resolve_city_requests name s :
  exists found, snd (resolve_city name s) = Ok found
                /\ requests (fst (resolve_city name s)) = requests s.
Proof.
  unfold resolve_city. destruct (map_city_to_id _ _ _) as [cache' found]. cbn. eauto.
Qed.

(** X30. The stay of a day ends on the date of the next stored day,
    read without a default: when the day after a day is an object with
    no [date], enriching that day raises [KeyError] before any request
    is made, which fails the whole call.  The last day has no next day:
    if its own date is missing or does not parse, the search is made
    with a check-out equal to the check-in and nothing is raised. *)
Theorem missing_date_breaks_enrichment :
  (forall top days lo hi ad i fields next name s,
     days !! S i = Some (JObj next) -> dict_get next "date" = None ->
     as_name (or_ (or_ (default JNull (dict_get fields "location"))
                       (default JNull (dict_get top "destination")))
                  (JStr EmptyString)) = Ok name ->
     snd (enrich_day (JObj top) days lo hi ad i (JObj fields) s) = Raise (KeyError "date")
     /\ requests (fst (enrich_day (JObj top) days lo hi ad i (JObj fields) s))
        = requests s)
  /\ (forall days i check_in,
       days !! S i = None ->
       match check_in with
       | JStr text => strptime text = None
       | _ => True
       end ->
       check_out_of days i check_in = Ok check_in).
Proof.
  split.
  - intros top days lo hi ad i fields next name s Hnext Hdate Hname.
    unfold enrich_day.
    rewrite (bindM_ok _ _ s s fields) by reflexivity.
    rewrite (bindM_ok _ _ s s (default JNull (dict_get top "destination"))) by reflexivity.
    rewrite (bindM_ok _ _ s s name) by (unfold lift; rewrite Hname; reflexivity).
    destruct (resolve_city_requests name s) as (found & Hfound & Hreq).
    destruct (resolve_city name s) as [s1 r] eqn:E. cbn in Hfound, Hreq. subst r.
    rewrite (bindM_ok _ _ s s1 found) by exact E.
    unfold check_out_of. rewrite Hnext. unfold getitem. rewrite Hdate.
    unfold mbind, M_bind, lift. cbn [fst snd]. split; [reflexivity | exact Hreq].
  - intros days i check_in Hlast Hci. unfold check_out_of. rewrite Hlast.
    destruct check_in as [| | | |text| |]; try reflexivity.
    rewrite Hci. reflexivity.
Qed.

End StayFacts.

Section StayExamples.
Import PyStr Json Agents Dates Storage Display Enrichment Laws.

Lemma missing_date_breaks_enrichment_witness :
  snd (@enrich_day Demo.trip_json Demo.agoda Demo.fruitful (JObj Demo.paris_trip)
         [JObj Demo.paris_day; JObj [("day_number", JInt 2)]] 80 200 2 0
         (JObj Demo.paris_day) Demo.trip_env) = Raise (KeyError "date")
  /\ requests (fst (@enrich_day Demo.trip_json Demo.agoda Demo.fruitful
                      (JObj Demo.paris_trip)
                      [JObj Demo.paris_day; JObj [("day_number", JInt 2)]] 80 200 2 0
                      (JObj Demo.paris_day) Demo.trip_env))
     = requests Demo.trip_env.
Proof.
  apply (proj1 (@missing_date_breaks_enrichment Demo.trip_json Demo.agoda Demo.fruitful)
           Demo.paris_trip [JObj Demo.paris_day; JObj [("day_number", JInt 2)]]
           80 200 2 0%nat Demo.paris_day [("day_number", JInt 2)] "Paris" Demo.trip_env);
    reflexivity.
Defined.

End StayExamples.
